(** * A fixed-block pool allocator and its size-class dispatcher

    Shallow embedding of [src/allocator.cpp], [include/allocator.h],
    [src/allocator_slab.cpp] and [include/allocator_slab.h].

    Machine model: LP64.  [size_t] and [uintptr_t] are 64-bit unsigned
    integers, kept as [Z] with the wrap-around written out ([wrap]);
    pointers are addresses of the same width and [nullptr] is [0].
    The build flag [DEBUG] is the boolean [debug] taken by every
    definition whose source text contains [#ifdef DEBUG].

    The raw memory is a store of block headers keyed by their address,
    plus a store of 32-bit words for the trailing canaries.  Payload
    bytes are not part of the store: a client that writes only inside
    the payloads it holds leaves headers and canaries as they are.
    The two stores are disjoint, which is the memory of every pool
    whose stride holds a header and the trailing canary; the size
    computations of the constructor give such a stride whenever they
    do not wrap around ([constructible] below).  For a stride that
    wrapped below that, the trailing canary of a debug build lies inside
    a header: module [Flat] keeps the memory byte by byte and is the
    embedding to read for those pools.
    [std::malloc] is an input of the constructor, the pointer it
    returned.  The mutex of the source is not modelled: the development
    is sequential. *)

From Stdlib Require Import String Ascii ZArith List Bool Lia Permutation.
Import ListNotations.
Local Open Scope Z_scope.

(** ** Machine arithmetic *)

Definition SIZE_WIDTH : Z := 64.
Definition wrap (x : Z) : Z := x mod 2 ^ SIZE_WIDTH.

(** [constexpr uint32_t CANARY_VALUE = 0xDEADC0DE;] *)
Definition CANARY_VALUE : Z := 0xDEADC0DE.

(** ** Raw memory *)

(** [struct Block]: in release builds only [next] exists; the three
    other fields are the ones added under [#ifdef DEBUG]. *)
Record Block : Type := mkBlock {
  next : Z;
  is_free : bool;
  pool_id : Z;
  canary_front : Z
}.

(** [sizeof(Block)]: one pointer in release builds; pointer, bool,
    padding and two [uint32_t] rounded up to the pointer alignment in
    debug builds. *)
Definition sizeof_Block (debug : bool) : Z := if debug then 24 else 8.
Definition alignof_Block : Z := 8.
Definition sizeof_uint32 : Z := 4.

Record Heap : Type := mkHeap {
  blocks : Z -> Block;     (* the header found at an address *)
  words : Z -> Z           (* the [uint32_t] found at an address *)
}.

Definition store_block (h : Heap) (p : Z) (b : Block) : Heap :=
  {| blocks := fun q => if q =? p then b else blocks h q;
     words := words h |}.

Definition store_word (h : Heap) (p : Z) (w : Z) : Heap :=
  {| blocks := blocks h;
     words := fun q => if q =? p then w else words h q |}.

Definition set_next (b : Block) (n : Z) : Block :=
  {| next := n; is_free := is_free b; pool_id := pool_id b;
     canary_front := canary_front b |}.

Definition set_is_free (b : Block) (f : bool) : Block :=
  {| next := next b; is_free := f; pool_id := pool_id b;
     canary_front := canary_front b |}.

Definition set_canary_front (b : Block) (c : Z) : Block :=
  {| next := next b; is_free := is_free b; pool_id := pool_id b;
     canary_front := c |}.

(** A heap whose every header is zeroed, for running the code. *)
Definition zero_block : Block :=
  {| next := 0; is_free := false; pool_id := 0; canary_front := 0 |}.
Definition zero_heap : Heap :=
  {| blocks := fun _ => zero_block; words := fun _ => 0 |}.

(** ** Outcomes of a call *)

Inductive Outcome (A : Type) : Type :=
| Returned (v : A)                 (* the call returns [v] *)
| Aborted (diagnostic : string)    (* [std::cerr << diagnostic; std::abort()] *)
| Crashed.                         (* null dereference or division by zero *)
Arguments Returned {A} v.
Arguments Aborted {A} diagnostic.
Arguments Crashed {A}.

Definition newline : string := String (ascii_of_nat 10) EmptyString.
Definition line (s : string) : string := (s ++ newline)%string.

Definition msg_corruption : string := line "Allocator corruption detected".
Definition msg_not_from_pool : string := line "Invalid free (pointer not from pool)".
Definition msg_not_aligned : string := line "Invalid free (not block aligned)".
Definition msg_wrong_allocator : string := line "Invalid free (wrong allocator)".
Definition msg_double_free : string := line "Double free error".
Definition msg_canary : string := line "Memory corruption detected (canary smashed)".

(** ** The pool *)

(** [struct MemoryPool]; [payload_size] is the field the constructor in
    [allocator.cpp] assigns next to [block_size]. *)
Module MemoryPool.
Record t : Type := mk {
  memory : Z;
  free_list : Z;
  block_size : Z;
  block_count : Z;
  payload_size : Z
}.

Definition set_free_list (p : t) (fl : Z) : t :=
  {| memory := memory p; free_list := fl; block_size := block_size p;
     block_count := block_count p; payload_size := payload_size p |}.

Definition set_memory (p : t) (m : Z) : t :=
  {| memory := m; free_list := free_list p; block_size := block_size p;
     block_count := block_count p; payload_size := payload_size p |}.
End MemoryPool.

Module Allocator.

(** [m_MemoryPool] is a [unique_ptr]: [None] is the null pointer. *)
Record t : Type := mk {
  m_Initialized : bool;
  m_MemoryPool : option MemoryPool.t;
  m_PoolId : Z
}.

Definition set_pool (a : t) (p : MemoryPool.t) : t :=
  {| m_Initialized := m_Initialized a; m_MemoryPool := Some p;
     m_PoolId := m_PoolId a |}.

(** [align_up]: [(size + alignment - 1) & ~(alignment - 1)] on [size_t]. *)
Definition align_up (size : Z) : Z :=
  Z.land (wrap (size + alignof_Block - 1)) (wrap (Z.lnot (alignof_Block - 1))).

(** The value the constructor stores in [block_size]: header plus
    payload, plus the trailing canary in debug builds, aligned up. *)
Definition raw_block_size (debug : bool) (payload_size : Z) : Z :=
  let raw := wrap (sizeof_Block debug + payload_size) in
  let raw := if debug then wrap (raw + sizeof_uint32) else raw in
  align_up raw.

(** Address of the trailing canary of the block at [block]. *)
Definition rear (block bs : Z) : Z := wrap (wrap (block + bs) - sizeof_uint32).

(** The loop of the constructor, from index [i], [n] iterations left;
    [fl] is the current [free_list]. *)
Fixpoint init_blocks (debug : bool) (id start bs : Z) (n : nat) (i : Z)
         (fl : Z) (h : Heap) : Z * Heap :=
  match n with
  | O => (fl, h)
  | S n' =>
      let block := wrap (start + wrap (i * bs)) in
      let h1 :=
        if debug then
          let h0 := store_block h block
                      {| next := fl; is_free := true; pool_id := id;
                         canary_front := CANARY_VALUE |} in
          store_word h0 (rear block bs) CANARY_VALUE
        else store_block h block (set_next zero_block fl) in
      init_blocks debug id start bs n' (i + 1) block h1
  end.

(** [Allocator::Allocator(block_size, block_count)].  [this] is the
    address of the object under construction and [mem] the pointer
    [std::malloc] returned for [block_size * block_count] bytes
    ([0] when it failed).  [m_PoolId] is left indeterminate by the
    source on the failure paths and in release builds; it is [0] here.
    The loop writes [block_count] slots from [mem] on whatever the byte
    count passed to [std::malloc] was: the writes stay inside the buffer
    when the product did not wrap ([constructible] below); where it
    wrapped the real loop leaves the buffer and the process may die in
    the constructor, which this function does not show. *)
Definition new (debug : bool) (block_size block_count : Z) (this mem : Z)
           (h : Heap) : t * Heap :=
  if (block_size =? 0) || (block_count =? 0) then
    ({| m_Initialized := false; m_MemoryPool := None; m_PoolId := 0 |}, h)
  else
    let bs := raw_block_size debug block_size in
    let pool := {| MemoryPool.memory := mem; MemoryPool.free_list := 0;
                   MemoryPool.block_size := bs;
                   MemoryPool.block_count := block_count;
                   MemoryPool.payload_size := block_size |} in
    if mem =? 0 then
      ({| m_Initialized := false; m_MemoryPool := Some pool; m_PoolId := 0 |}, h)
    else
      let id := if debug then Z.land this 0xFFFFFFFF else 0 in
      let '(fl, h') :=
        init_blocks debug id mem bs (Z.to_nat block_count) 0 0 h in
      ({| m_Initialized := true;
          m_MemoryPool := Some (MemoryPool.set_free_list pool fl);
          m_PoolId := id |}, h').

Definition is_initialized (a : t) : bool := m_Initialized a.

(** [block_size()] dereferences [m_MemoryPool] without a check. *)
Definition block_size (a : t) : Outcome Z :=
  match m_MemoryPool a with
  | None => Crashed
  | Some pool => Returned (MemoryPool.block_size pool)
  end.

(** [Allocator::allocate()]. *)
Definition allocate (debug : bool) (a : t) (h : Heap) : Outcome Z * t * Heap :=
  if negb (m_Initialized a) then (Returned 0, a, h) else
  match m_MemoryPool a with
  | None => (Returned 0, a, h)
  | Some pool =>
      if MemoryPool.free_list pool =? 0 then (Returned 0, a, h)
      else
        let block := MemoryPool.free_list pool in
        let a' := set_pool a (MemoryPool.set_free_list pool (next (blocks h block))) in
        if debug then
          if negb (is_free (blocks h block)) then (Aborted msg_corruption, a', h)
          else
            let h1 := store_block h block
                        (set_canary_front (set_is_free (blocks h block) false)
                                          CANARY_VALUE) in
            let h2 := store_word h1 (rear block (MemoryPool.block_size pool))
                                 CANARY_VALUE in
            (Returned (wrap (block + sizeof_Block debug)), a', h2)
        else (Returned (wrap (block + sizeof_Block debug)), a', h)
  end.

(** [Allocator::free(ptr)]. *)
Definition free (debug : bool) (ptr : Z) (a : t) (h : Heap)
  : Outcome unit * t * Heap :=
  if ptr =? 0 then (Returned tt, a, h) else
  if negb (m_Initialized a) then (Returned tt, a, h) else
  match m_MemoryPool a with
  | None => (Returned tt, a, h)
  | Some pool =>
      let mem_start := MemoryPool.memory pool in
      let mem_end :=
        wrap (mem_start
              + wrap (MemoryPool.block_size pool * MemoryPool.block_count pool)) in
      let raw_ptr := ptr in
      let block_ptr := wrap (raw_ptr - sizeof_Block debug) in
      if (block_ptr <? mem_start) || (block_ptr >=? mem_end) then
        (Aborted msg_not_from_pool, a, h)
      else
        let offset := wrap (block_ptr - mem_start) in
        if MemoryPool.block_size pool =? 0 then (Crashed, a, h)
        else if negb (offset mod MemoryPool.block_size pool =? 0) then
          (Aborted msg_not_aligned, a, h)
        else
          let block := block_ptr in
          let push (h0 : Heap) :=
            (Returned tt,
             set_pool a (MemoryPool.set_free_list pool block),
             store_block h0 block
               (set_next (blocks h0 block) (MemoryPool.free_list pool))) in
          if debug then
            if negb (pool_id (blocks h block) =? m_PoolId a) then
              (Aborted msg_wrong_allocator, a, h)
            else if is_free (blocks h block) then
              (Aborted msg_double_free, a, h)
            else if negb (canary_front (blocks h block) =? CANARY_VALUE)
                    || negb (words h (rear block (MemoryPool.block_size pool))
                             =? CANARY_VALUE) then
              (Aborted msg_canary, a, h)
            else
              push (store_block h block (set_is_free (blocks h block) true))
          else push h
  end.

(** [n] consecutive [allocate()] calls; the outcomes in call order.
    An abort or crash ends the run. *)
Fixpoint allocate_n (debug : bool) (n : nat) (a : t) (h : Heap)
  : list (Outcome Z) * t * Heap :=
  match n with
  | O => ([], a, h)
  | S n' =>
      match allocate debug a h with
      | (Returned p, a', h') =>
          let '(rs, a'', h'') := allocate_n debug n' a' h' in
          (Returned p :: rs, a'', h'')
      | (r, a', h') => ([r], a', h')
      end
  end.

(** [Allocator::~Allocator()], up to the release of the object itself:
    the object it leaves and the pointer it hands to [std::free], if
    any. *)
Definition destroy (a : t) : t * option Z :=
  match m_MemoryPool a with
  | Some pool =>
      if MemoryPool.memory pool =? 0 then
        ({| m_Initialized := false; m_MemoryPool := Some pool;
            m_PoolId := m_PoolId a |}, None)
      else
        ({| m_Initialized := false;
            m_MemoryPool := Some (MemoryPool.set_memory pool 0);
            m_PoolId := m_PoolId a |}, Some (MemoryPool.memory pool))
  | None =>
      ({| m_Initialized := false; m_MemoryPool := None;
          m_PoolId := m_PoolId a |}, None)
  end.

(** [free] on each pointer of [ps], in order, as the tests do with
    [for (void* p : ptrs) alloc.free(p)].  An abort or crash ends the run. *)
Fixpoint free_each (debug : bool) (ps : list Z) (a : t) (h : Heap)
  : Outcome unit * t * Heap :=
  match ps with
  | [] => (Returned tt, a, h)
  | p :: ps' =>
      match free debug p a h with
      | (Returned _, a', h') => free_each debug ps' a' h'
      | r => r
      end
  end.

End Allocator.

(** ** The dispatcher *)

Module SlabAllocator.

Record t : Type := mk { m_Slabs : list Allocator.t }.

(** [SlabAllocator::SlabAllocator()]: four pools of 100 blocks.  Each
    [make_unique<Allocator>] gets the address of the new object and
    the pointer its [std::malloc] returned. *)
Definition new (debug : bool) (o0 o1 o2 o3 : Z * Z) (h : Heap) : t * Heap :=
  let '(a0, h0) := Allocator.new debug 64 100 (fst o0) (snd o0) h in
  let '(a1, h1) := Allocator.new debug 128 100 (fst o1) (snd o1) h0 in
  let '(a2, h2) := Allocator.new debug 256 100 (fst o2) (snd o2) h1 in
  let '(a3, h3) := Allocator.new debug 512 100 (fst o3) (snd o3) h2 in
  ({| m_Slabs := [a0; a1; a2; a3] |}, h3).

(** The [for (auto& slab : m_Slabs)] loop of [allocate]. *)
Fixpoint allocate_in (debug : bool) (size : Z) (slabs : list Allocator.t)
         (h : Heap) : Outcome Z * list Allocator.t * Heap :=
  match slabs with
  | [] => (Returned 0, [], h)
  | slab :: rest =>
      match Allocator.block_size slab with
      | Returned bs =>
          if size <=? bs then
            let '(r, slab', h') := Allocator.allocate debug slab h in
            (r, slab' :: rest, h')
          else
            let '(r, rest', h') := allocate_in debug size rest h in
            (r, slab :: rest', h')
      | Aborted m => (Aborted m, slabs, h)
      | Crashed => (Crashed, slabs, h)
      end
  end.

Definition allocate (debug : bool) (size : Z) (s : t) (h : Heap)
  : Outcome Z * t * Heap :=
  let '(r, slabs, h') := allocate_in debug size (m_Slabs s) h in
  (r, {| m_Slabs := slabs |}, h').

(** The loop of [free]. *)
Fixpoint free_in (debug : bool) (ptr size : Z) (slabs : list Allocator.t)
         (h : Heap) : Outcome unit * list Allocator.t * Heap :=
  match slabs with
  | [] => (Returned tt, [], h)
  | slab :: rest =>
      match Allocator.block_size slab with
      | Returned bs =>
          if size <=? bs then
            let '(r, slab', h') := Allocator.free debug ptr slab h in
            (r, slab' :: rest, h')
          else
            let '(r, rest', h') := free_in debug ptr size rest h in
            (r, slab :: rest', h')
      | Aborted m => (Aborted m, slabs, h)
      | Crashed => (Crashed, slabs, h)
      end
  end.

Definition free (debug : bool) (ptr size : Z) (s : t) (h : Heap)
  : Outcome unit * t * Heap :=
  let '(r, slabs, h') := free_in debug ptr size (m_Slabs s) h in
  (r, {| m_Slabs := slabs |}, h').

End SlabAllocator.

(** ** Byte-addressed memory *)

(** The constructor and [free] once more, over a memory of bytes, with
    the layout of [struct Block] on LP64 written out: [next] in bytes
    0 to 7 and, in a debug build, [is_free] in byte 8, [pool_id] in bytes
    12 to 15 and [canary_front] in bytes 16 to 19; integers are stored
    least significant byte first.  Here a store through [rear] that falls
    inside a header changes the field it falls on. *)
Module Flat.

Definition Memory : Type := Z -> Z.

Definition zero_memory : Memory := fun _ => 0.

(** Byte [k] of [v], the least significant being byte [0]. *)
Definition byte_of (v k : Z) : Z := Z.land (Z.shiftr v (8 * k)) 0xFF.

(** Stores the [n] low bytes of [v] at the addresses [p], ..., [p + n - 1]. *)
Definition store (n : Z) (m : Memory) (p v : Z) : Memory :=
  fun q => let k := wrap (q - p) in if k <? n then byte_of v k else m q.

(** The unsigned integer in the [n] bytes from [p]. *)
Fixpoint load (n : nat) (m : Memory) (p : Z) : Z :=
  match n with
  | O => 0
  | S n' => m p + 256 * load n' m (wrap (p + 1))
  end.

Definition offsetof_is_free : Z := 8.
Definition offsetof_pool_id : Z := 12.
Definition offsetof_canary_front : Z := 16.

Definition next_at (m : Memory) (block : Z) : Z := load 8 m block.
Definition is_free_at (m : Memory) (block : Z) : bool :=
  negb (m (wrap (block + offsetof_is_free)) =? 0).
Definition pool_id_at (m : Memory) (block : Z) : Z :=
  load 4 m (wrap (block + offsetof_pool_id)).
Definition canary_front_at (m : Memory) (block : Z) : Z :=
  load 4 m (wrap (block + offsetof_canary_front)).

(** The loop of the constructor: [std::construct_at] zeroes the header,
    then the fields are assigned in the order of the source. *)
Fixpoint init_blocks (debug : bool) (id start bs : Z) (n : nat) (i : Z)
         (fl : Z) (m : Memory) : Z * Memory :=
  match n with
  | O => (fl, m)
  | S n' =>
      let block := wrap (start + wrap (i * bs)) in
      let m0 := store (sizeof_Block debug) m block 0 in
      let m1 := store 8 m0 block fl in
      let m2 :=
        if debug then
          let m11 := store 1 m1 (wrap (block + offsetof_is_free)) 1 in
          let m12 := store 4 m11 (wrap (block + offsetof_pool_id)) id in
          let m13 := store 4 m12 (wrap (block + offsetof_canary_front))
                           CANARY_VALUE in
          store 4 m13 (Allocator.rear block bs) CANARY_VALUE
        else m1 in
      init_blocks debug id start bs n' (i + 1) block m2
  end.

(** [Allocator::Allocator(block_size, block_count)]. *)
Definition new (debug : bool) (block_size block_count : Z) (this mem : Z)
           (m : Memory) : Allocator.t * Memory :=
  if (block_size =? 0) || (block_count =? 0) then
    ({| Allocator.m_Initialized := false; Allocator.m_MemoryPool := None;
        Allocator.m_PoolId := 0 |}, m)
  else
    let bs := Allocator.raw_block_size debug block_size in
    let pool := {| MemoryPool.memory := mem; MemoryPool.free_list := 0;
                   MemoryPool.block_size := bs;
                   MemoryPool.block_count := block_count;
                   MemoryPool.payload_size := block_size |} in
    if mem =? 0 then
      ({| Allocator.m_Initialized := false; Allocator.m_MemoryPool := Some pool;
          Allocator.m_PoolId := 0 |}, m)
    else
      let id := if debug then Z.land this 0xFFFFFFFF else 0 in
      let '(fl, m') :=
        init_blocks debug id mem bs (Z.to_nat block_count) 0 0 m in
      ({| Allocator.m_Initialized := true;
          Allocator.m_MemoryPool := Some (MemoryPool.set_free_list pool fl);
          Allocator.m_PoolId := id |}, m').

(** [Allocator::free(ptr)]. *)
Definition free (debug : bool) (ptr : Z) (a : Allocator.t) (m : Memory)
  : Outcome unit * Allocator.t * Memory :=
  if ptr =? 0 then (Returned tt, a, m) else
  if negb (Allocator.m_Initialized a) then (Returned tt, a, m) else
  match Allocator.m_MemoryPool a with
  | None => (Returned tt, a, m)
  | Some pool =>
      let mem_start := MemoryPool.memory pool in
      let mem_end :=
        wrap (mem_start
              + wrap (MemoryPool.block_size pool * MemoryPool.block_count pool)) in
      let raw_ptr := ptr in
      let block_ptr := wrap (raw_ptr - sizeof_Block debug) in
      if (block_ptr <? mem_start) || (block_ptr >=? mem_end) then
        (Aborted msg_not_from_pool, a, m)
      else
        let offset := wrap (block_ptr - mem_start) in
        if MemoryPool.block_size pool =? 0 then (Crashed, a, m)
        else if negb (offset mod MemoryPool.block_size pool =? 0) then
          (Aborted msg_not_aligned, a, m)
        else
          let block := block_ptr in
          let push (m0 : Memory) :=
            (Returned tt,
             Allocator.set_pool a (MemoryPool.set_free_list pool block),
             store 8 m0 block (MemoryPool.free_list pool)) in
          if debug then
            if negb (pool_id_at m block =? Allocator.m_PoolId a) then
              (Aborted msg_wrong_allocator, a, m)
            else if is_free_at m block then
              (Aborted msg_double_free, a, m)
            else if negb (canary_front_at m block =? CANARY_VALUE)
                    || negb (load 4 m (Allocator.rear block
                                         (MemoryPool.block_size pool))
                             =? CANARY_VALUE) then
              (Aborted msg_canary, a, m)
            else
              push (store 1 m (wrap (block + offsetof_is_free)) 1)
          else push m
  end.

End Flat.

(** ** Specification vocabulary *)

(** [chain h p l]: following [next] from [p] visits exactly the
    blocks of [l], in order, and then reaches the null pointer. *)
Fixpoint chain (h : Heap) (p : Z) (l : list Z) : Prop :=
  match l with
  | [] => p = 0
  | b :: l' => p = b /\ b <> 0 /\ chain h (next (blocks h b)) l'
  end.

(** The same walk as a program, bounded by [fuel] steps. *)
Fixpoint walk (fuel : nat) (h : Heap) (p : Z) : option (list Z) :=
  if p =? 0 then Some []
  else match fuel with
       | O => None
       | S fuel' => option_map (cons p) (walk fuel' h (next (blocks h p)))
       end.

(** [on_list h p b]: block [b] is met when following [next] from [p]. *)
Inductive on_list (h : Heap) : Z -> Z -> Prop :=
| on_list_here : forall p, p <> 0 -> on_list h p p
| on_list_next : forall p b, p <> 0 -> on_list h (next (blocks h p)) b -> on_list h p b.

(** The fixed block slots of a pool, by index. *)
Definition slot (pool : MemoryPool.t) (i : nat) : Z :=
  MemoryPool.memory pool + Z.of_nat i * MemoryPool.block_size pool.

Definition slots (pool : MemoryPool.t) : list Z :=
  map (slot pool) (seq 0 (Z.to_nat (MemoryPool.block_count pool))).

(** A block's payload pointer, and back. *)
Definition payload_of (debug : bool) (block : Z) : Z := block + sizeof_Block debug.
Definition block_of (debug : bool) (ptr : Z) : Z := ptr - sizeof_Block debug.

(** Bytes reserved behind the payload: the trailing canary of a debug
    build. *)
Definition tail_size (debug : bool) : Z := if debug then sizeof_uint32 else 0.

(** The constructor arguments and the buffer for which no size
    computation of the constructor wraps around: the aligned stride,
    the byte count, and the end address of the buffer [std::malloc]
    returned. *)
Definition constructible (debug : bool) (block_size block_count mem : Z) : Prop :=
  0 < block_size /\ 0 < block_count /\
  sizeof_Block debug + block_size + tail_size debug + (alignof_Block - 1)
    < 2 ^ SIZE_WIDTH /\
  Allocator.raw_block_size debug block_size * block_count < 2 ^ SIZE_WIDTH /\
  0 < mem /\
  mem + Allocator.raw_block_size debug block_size * block_count < 2 ^ SIZE_WIDTH.

(** The layout facts every operation relies on. *)
Definition geometry (debug : bool) (pool : MemoryPool.t) : Prop :=
  0 < MemoryPool.memory pool /\
  sizeof_Block debug + tail_size debug < MemoryPool.block_size pool /\
  0 < MemoryPool.block_count pool /\
  MemoryPool.memory pool
    + MemoryPool.block_size pool * MemoryPool.block_count pool < 2 ^ SIZE_WIDTH.

(** What the debug fields of the slots hold. *)
Definition debug_fields (a : Allocator.t) (pool : MemoryPool.t) (h : Heap)
           (free_blocks used_blocks : list Z) : Prop :=
  forall b, In b (slots pool) ->
    pool_id (blocks h b) = Allocator.m_PoolId a /\
    (In b free_blocks -> is_free (blocks h b) = true) /\
    (In b used_blocks ->
       is_free (blocks h b) = false /\
       canary_front (blocks h b) = CANARY_VALUE /\
       words h (Allocator.rear b (MemoryPool.block_size pool)) = CANARY_VALUE).

(** The invariant of a ready pool: [free_blocks] is the free list,
    [live] the payload pointers handed out and not yet freed. *)
Definition pool_inv (debug : bool) (a : Allocator.t) (h : Heap)
           (free_blocks live : list Z) : Prop :=
  Allocator.m_Initialized a = true /\
  exists pool,
    Allocator.m_MemoryPool a = Some pool /\
    geometry debug pool /\
    chain h (MemoryPool.free_list pool) free_blocks /\
    Permutation (free_blocks ++ map (block_of debug) live) (slots pool) /\
    (debug = true ->
     debug_fields a pool h free_blocks (map (block_of debug) live)).

(** The statement of the free-list invariant in the words of the
    specification: a null-terminated chain without repetition inside
    the slots, and free and in-use blocks splitting the slots. *)
Definition free_list_partition (debug : bool) (a : Allocator.t) (h : Heap)
           (live : list Z) : Prop :=
  exists pool free_blocks,
    Allocator.m_MemoryPool a = Some pool /\
    chain h (MemoryPool.free_list pool) free_blocks /\
    NoDup free_blocks /\
    incl free_blocks (slots pool) /\
    NoDup (slots pool) /\
    length (slots pool) = Z.to_nat (MemoryPool.block_count pool) /\
    (forall b, In b (slots pool) <->
               In b free_blocks \/ In b (map (block_of debug) live)) /\
    (forall b, ~ (In b free_blocks /\ In b (map (block_of debug) live))) /\
    NoDup live.

(** Pool states reached from a construction without wrap-around by
    [allocate()] calls and by [free(p)] calls on pointers in use. *)
Inductive reachable (debug : bool) : Allocator.t -> Heap -> list Z -> Prop :=
| reach_new : forall block_size block_count this mem h0 a h,
    constructible debug block_size block_count mem ->
    Allocator.new debug block_size block_count this mem h0 = (a, h) ->
    reachable debug a h []
| reach_allocate : forall a h live p a' h',
    reachable debug a h live ->
    Allocator.allocate debug a h = (Returned p, a', h') ->
    p <> 0 ->
    reachable debug a' h' (p :: live)
| reach_exhausted : forall a h live a' h',
    reachable debug a h live ->
    Allocator.allocate debug a h = (Returned 0, a', h') ->
    reachable debug a' h' live
| reach_free : forall a h l1 p l2 a' h',
    reachable debug a h (l1 ++ p :: l2) ->
    Allocator.free debug p a h = (Returned tt, a', h') ->
    reachable debug a' h' (l1 ++ l2).

(** Pool states reached from [(a0, h0)] by any calls that return,
    whatever pointers [free] is given. *)
Inductive client_states (debug : bool) (a0 : Allocator.t) (h0 : Heap)
  : Allocator.t -> Heap -> Prop :=
| cs_start : client_states debug a0 h0 a0 h0
| cs_allocate : forall a h p a' h',
    client_states debug a0 h0 a h ->
    Allocator.allocate debug a h = (Returned p, a', h') ->
    client_states debug a0 h0 a' h'
| cs_free : forall a h ptr a' h',
    client_states debug a0 h0 a h ->
    Allocator.free debug ptr a h = (Returned tt, a', h') ->
    client_states debug a0 h0 a' h'.


(** ** Claim vocabulary *)

Definition fresh_pool (debug : bool) (block_size block_count mem fl : Z)
  : MemoryPool.t :=
  {| MemoryPool.memory := mem; MemoryPool.free_list := fl;
     MemoryPool.block_size := Allocator.raw_block_size debug block_size;
     MemoryPool.block_count := block_count;
     MemoryPool.payload_size := block_size |}.

(** [count] calls return a block and the next one returns null. *)
Definition exhausts_after (debug : bool) (count : Z) (a : Allocator.t) (h : Heap)
  : Prop :=
  exists ps,
    fst (fst (Allocator.allocate_n debug (S (Z.to_nat count)) a h))
    = map Returned ps ++ [Returned 0] /\
    List.length ps = Z.to_nat count /\
    Forall (fun p => p <> 0) ps.

(** [free(p)] returns and the [allocate()] after it returns [p]. *)
Definition free_then_allocate_gives (debug : bool) (p : Z) (a : Allocator.t)
           (h : Heap) : Prop :=
  exists a1 h1 a2 h2,
    Allocator.free debug p a h = (Returned tt, a1, h1) /\
    Allocator.allocate debug a1 h1 = (Returned p, a2, h2).

(** The partition holds now, after the next [allocate()], and after a
    [free] of any pointer in use. *)
Definition partition_kept (debug : bool) (a : Allocator.t) (h : Heap)
           (live : list Z) : Prop :=
  free_list_partition debug a h live /\
  (exists p a' h',
      Allocator.allocate debug a h = (Returned p, a', h') /\
      free_list_partition debug a' h' (if p =? 0 then live else p :: live)) /\
  (forall l1 p l2, live = l1 ++ p :: l2 ->
     exists a' h',
       Allocator.free debug p a h = (Returned tt, a', h') /\
       free_list_partition debug a' h' (l1 ++ l2)).


(** The acceptance test of [free] in the words of the specification:
    [ptr] inside the buffer and [(ptr - buffer_start) % stride == 0]. *)
Definition accepted_as_specified (pool : MemoryPool.t) (ptr : Z) : bool :=
  (MemoryPool.memory pool <=? ptr)
  && (ptr <? MemoryPool.memory pool
             + MemoryPool.block_size pool * MemoryPool.block_count pool)
  && ((ptr - MemoryPool.memory pool) mod MemoryPool.block_size pool =? 0).

(** The acceptance test of the source: the same two checks on the header
    address [ptr - sizeof(Block)]. *)
Definition header_accepted (debug : bool) (pool : MemoryPool.t) (ptr : Z) : bool :=
  let block := wrap (ptr - sizeof_Block debug) in
  let mem_end :=
    wrap (MemoryPool.memory pool
          + wrap (MemoryPool.block_size pool * MemoryPool.block_count pool)) in
  negb ((block <? MemoryPool.memory pool) || (block >=? mem_end))
  && (wrap (block - MemoryPool.memory pool) mod MemoryPool.block_size pool =? 0).

(** The further checks of a debug build: owner, liveness flag, canaries. *)
Definition debug_accepted (a : Allocator.t) (pool : MemoryPool.t) (h : Heap)
           (block : Z) : bool :=
  (pool_id (blocks h block) =? Allocator.m_PoolId a)
  && negb (is_free (blocks h block))
  && (canary_front (blocks h block) =? CANARY_VALUE)
  && (words h (Allocator.rear block (MemoryPool.block_size pool)) =? CANARY_VALUE).

Definition free_accepted (debug : bool) (a : Allocator.t) (pool : MemoryPool.t)
           (h : Heap) (ptr : Z) : bool :=
  header_accepted debug pool ptr
  && (negb debug || debug_accepted a pool h (wrap (ptr - sizeof_Block debug))).

(** Bytes of a slot the caller may use: between the header and the end of
    the slot (the trailing canary in a debug build). *)
Definition usable_capacity (debug : bool) (pool : MemoryPool.t) : Z :=
  MemoryPool.block_size pool - sizeof_Block debug - tail_size debug.

(** [p] is the payload pointer of a slot of the pool of [a], a pool built
    for payloads of [payload] bytes. *)
Definition served_by (debug : bool) (a : Allocator.t) (payload p : Z) : Prop :=
  exists pool,
    Allocator.m_MemoryPool a = Some pool /\
    MemoryPool.payload_size pool = payload /\
    In (block_of debug p) (slots pool).

(** The buffers of two pools of 100 blocks do not overlap. *)
Definition separate (debug : bool) (size1 mem1 size2 mem2 : Z) : Prop :=
  mem1 + Allocator.raw_block_size debug size1 * 100 <= mem2 \/
  mem2 + Allocator.raw_block_size debug size2 * 100 <= mem1.

(** The three requests of the dispatcher scenario, on the dispatcher
    state [s] with pools [a0 .. a3]. *)
Definition dispatch_scenario (debug : bool) (s : SlabAllocator.t) (h : Heap) : Prop :=
  exists a0 a1 a2 a3,
    SlabAllocator.m_Slabs s = [a0; a1; a2; a3] /\
    (exists p a0' h',
        SlabAllocator.allocate debug 50 s h
        = (Returned p, {| SlabAllocator.m_Slabs := [a0'; a1; a2; a3] |}, h') /\
        p <> 0 /\ served_by debug a0 64 p) /\
    (exists p a3' h',
        SlabAllocator.allocate debug 500 s h
        = (Returned p, {| SlabAllocator.m_Slabs := [a0; a1; a2; a3'] |}, h') /\
        p <> 0 /\ served_by debug a3 512 p) /\
    SlabAllocator.allocate debug 600 s h = (Returned 0, s, h).

(** In a debug build every slot the constructor wrote carries the
    owner id of the pool; the layout fields have the range of their types. *)
Definition stamped (a : Allocator.t) (h : Heap) : Prop :=
  forall pool,
    Allocator.m_MemoryPool a = Some pool ->
    Allocator.m_Initialized a = true ->
    0 <= MemoryPool.block_size pool /\
    0 <= MemoryPool.block_count pool /\
    0 <= MemoryPool.memory pool < 2 ^ SIZE_WIDTH /\
    forall j, 0 <= j < MemoryPool.block_count pool ->
      pool_id (blocks h (wrap (MemoryPool.memory pool
                               + wrap (j * MemoryPool.block_size pool))))
      = Allocator.m_PoolId a.

(** The fields of a pool that no call changes after construction. *)
Definition layout (a : Allocator.t) : bool * Z * option (Z * Z * Z) :=
  (Allocator.m_Initialized a, Allocator.m_PoolId a,
   option_map (fun pool => (MemoryPool.memory pool, MemoryPool.block_size pool,
                            MemoryPool.block_count pool))
              (Allocator.m_MemoryPool a)).

(** A dispatcher built on a zeroed heap, its four buffers 64 KiB apart. *)
Definition fresh_slab (debug : bool) : SlabAllocator.t * Heap :=
  SlabAllocator.new debug (0, 65536) (0, 131072) (0, 196608) (0, 262144) zero_heap.

Definition usable_capacities (debug : bool) (s : SlabAllocator.t) : list (option Z) :=
  map (fun a => option_map (usable_capacity debug) (Allocator.m_MemoryPool a))
      (SlabAllocator.m_Slabs s).

(** The heads of the free lists of the pools of a dispatcher. *)
Definition free_lists (s : SlabAllocator.t) : list (option Z) :=
  map (fun a => option_map MemoryPool.free_list (Allocator.m_MemoryPool a))
      (SlabAllocator.m_Slabs s).

(** What [allocate()] on the first pool of the dispatcher returns. *)
Definition first_pool_result (debug : bool) (s : SlabAllocator.t) (h : Heap)
  : option (Outcome Z) :=
  match SlabAllocator.m_Slabs s with
  | a0 :: _ => Some (fst (fst (Allocator.allocate debug a0 h)))
  | [] => None
  end.

(** ** Vocabulary of the further properties *)

(** Every block met on the free list is one of the slots. *)
Definition list_in_slots (debug : bool) (a : Allocator.t) (h : Heap) : Prop :=
  Allocator.m_Initialized a = true /\
  exists pool,
    Allocator.m_MemoryPool a = Some pool /\
    geometry debug pool /\
    forall b, on_list h (MemoryPool.free_list pool) b -> In b (slots pool).

(** The two sizes of a pool that no call changes after construction. *)
Definition sizes (a : Allocator.t) : option (Z * Z) :=
  option_map (fun pool => (MemoryPool.block_size pool, MemoryPool.payload_size pool))
             (Allocator.m_MemoryPool a).

(** A slot has room for the header, the payload asked for at
    construction and the trailing canary. *)
Definition roomy (debug : bool) (a : Allocator.t) : Prop :=
  forall pool, Allocator.m_MemoryPool a = Some pool ->
    sizeof_Block debug + MemoryPool.payload_size pool + tail_size debug
    <= MemoryPool.block_size pool.

(** [q] is the address of one of the [count] slots of the buffer at
    [mem], for the stride the constructor computes. *)
Definition slot_address (debug : bool) (block_size block_count mem q : Z) : Prop :=
  exists i, 0 <= i < block_count /\
            q = mem + i * Allocator.raw_block_size debug block_size.

(** [q] is the address of the trailing canary of one of the slots. *)
Definition canary_address (debug : bool) (block_size block_count mem q : Z) : Prop :=
  exists i, 0 <= i < block_count /\
            q = mem + i * Allocator.raw_block_size debug block_size
                + Allocator.raw_block_size debug block_size - sizeof_uint32.

(** The dispatcher's pools split at the first one whose [block_size()]
    is at least [size]. *)
Definition first_fit (size : Z) (slabs pre : list Allocator.t)
           (a : Allocator.t) (post : list Allocator.t) : Prop :=
  slabs = pre ++ a :: post /\
  (forall x, In x pre ->
     exists bs, Allocator.block_size x = Returned bs /\ bs < size) /\
  exists bs, Allocator.block_size a = Returned bs /\ size <= bs.

(** A pool of the dispatcher as its constructor leaves it: built for
    payloads of [size] bytes in the buffer at [mem], every block free. *)
Definition ready_class (debug : bool) (a : Allocator.t) (h : Heap) (size mem : Z)
  : Prop :=
  exists fl,
    Allocator.m_MemoryPool a = Some (fresh_pool debug size 100 mem fl) /\
    pool_inv debug a h (rev (slots (fresh_pool debug size 100 mem fl))) [].

(** The strides of the four pools of the dispatcher, in the order of
    [m_Slabs]. *)
Definition strides (debug : bool) : list Z :=
  map (Allocator.raw_block_size debug) [64; 128; 256; 512].

(** Position of the first entry of [l] that is at least [size]. *)
Fixpoint first_at_least (size : Z) (l : list Z) : option nat :=
  match l with
  | [] => None
  | x :: l' => if size <=? x then Some O else option_map S (first_at_least size l')
  end.

(** The pool the loops of the dispatcher stop at for a request of [size]
    bytes. *)
Definition size_class (debug : bool) (size : Z) : option nat :=
  first_at_least size (strides debug).

(** Constructor arguments in the range of [size_t] for which the loop of
    the constructor, when it runs, stays inside the buffer. *)
Definition no_wrap_around (debug : bool) (block_size block_count mem : Z) : Prop :=
  0 <= block_size /\ 0 <= block_count /\ 0 <= mem /\
  (block_size <> 0 -> block_count <> 0 -> mem <> 0 ->
   constructible debug block_size block_count mem).

(** * Results of calls *)

Lemma result_eta {A B C : Type} (r : A * B * C) (x : A) :
  fst (fst r) = x -> r = (x, snd (fst r), snd r).
Proof. destruct r as ((x' & b) & c). simpl. intros ->. reflexivity. Qed.

(** * Machine arithmetic lemmas *)

Lemma wrap_small (x : Z) : 0 <= x < 2 ^ SIZE_WIDTH -> wrap x = x.
Proof. intros H. unfold wrap. apply Z.mod_small. exact H. Qed.

Lemma wrap_range (x : Z) : 0 <= wrap x < 2 ^ SIZE_WIDTH.
Proof. unfold wrap. apply Z.mod_pos_bound. reflexivity. Qed.


Lemma land_clear_low (x : Z) : Z.land x (wrap (Z.lnot 7)) mod 8 = 0.
Proof.
  change 8 with (2 ^ 3). rewrite <- Z.land_ones by lia.
  rewrite <- Z.land_assoc.
  replace (Z.land (wrap (Z.lnot 7)) (Z.ones 3)) with 0 by reflexivity.
  apply Z.land_0_r.
Qed.

Lemma land_round_down (x : Z) :
  0 <= x < 2 ^ SIZE_WIDTH -> Z.land x (wrap (Z.lnot 7)) = 8 * (x / 8).
Proof.
  intros Hx.
  assert (Hm : wrap (Z.lnot 7) = Z.land (Z.lnot 7) (Z.ones 64)).
  { rewrite Z.land_ones by lia. reflexivity. }
  rewrite Hm, (Z.land_comm (Z.lnot 7)), Z.land_assoc.
  rewrite (Z.land_ones x 64) by lia.
  change (x mod 2 ^ 64) with (wrap x). rewrite (wrap_small x Hx).
  change (Z.land x (Z.lnot 7)) with (Z.ldiff x (Z.ones 3)).
  rewrite Z.ldiff_ones_r by lia.
  rewrite Z.shiftl_mul_pow2, Z.shiftr_div_pow2 by lia.
  change (2 ^ 3) with 8. lia.
Qed.

Lemma align_up_mod (size : Z) : Allocator.align_up size mod alignof_Block = 0.
Proof. unfold Allocator.align_up, alignof_Block. apply land_clear_low. Qed.

Lemma align_up_exact (size : Z) :
  0 <= size -> size + 7 < 2 ^ SIZE_WIDTH ->
  Allocator.align_up size = 8 * ((size + 7) / 8).
Proof.
  intros H0 H1. unfold Allocator.align_up, alignof_Block.
  replace (size + 8 - 1) with (size + 7) by lia.
  rewrite (wrap_small (size + 7)) by lia.
  apply land_round_down. lia.
Qed.

Lemma align_up_bounds (size : Z) :
  0 <= size -> size + 7 < 2 ^ SIZE_WIDTH ->
  size <= Allocator.align_up size <= size + 7.
Proof.
  intros H0 H1. rewrite align_up_exact by assumption.
  pose proof (Z.div_mod (size + 7) 8 ltac:(lia)).
  pose proof (Z.mod_pos_bound (size + 7) 8 ltac:(lia)). lia.
Qed.


Lemma sizeof_Block_pos (debug : bool) : 8 <= sizeof_Block debug.
Proof. destruct debug; simpl; lia. Qed.


Lemma tail_size_range (debug : bool) : 0 <= tail_size debug <= 4.
Proof. destruct debug; unfold tail_size, sizeof_uint32; lia. Qed.

Lemma raw_block_size_bounds (debug : bool) (payload : Z) :
  0 < payload ->
  sizeof_Block debug + payload + tail_size debug + (alignof_Block - 1)
    < 2 ^ SIZE_WIDTH ->
  sizeof_Block debug + payload + tail_size debug
    <= Allocator.raw_block_size debug payload
    <= sizeof_Block debug + payload + tail_size debug + 7.
Proof.
  intros Hp Hlt. unfold alignof_Block in Hlt.
  pose proof (sizeof_Block_pos debug) as Hs.
  pose proof (tail_size_range debug) as Ht.
  unfold Allocator.raw_block_size.
  rewrite (wrap_small (sizeof_Block debug + payload)) by lia.
  assert (E : (if debug then wrap (sizeof_Block debug + payload + sizeof_uint32)
               else sizeof_Block debug + payload)
              = sizeof_Block debug + payload + tail_size debug).
  { destruct debug; unfold tail_size in *; [rewrite wrap_small|]; lia. }
  rewrite E. apply align_up_bounds; lia.
Qed.

(** * The free list as a list *)

Lemma chain_frame (h h' : Heap) (l : list Z) : forall p,
  (forall b, In b l -> next (blocks h' b) = next (blocks h b)) ->
  chain h p l -> chain h' p l.
Proof.
  induction l as [|b l IH]; simpl; intros p Hn Hc; auto.
  destruct Hc as (Hp & Hnz & Hc). repeat split; auto.
  rewrite Hn by auto. apply IH; auto.
Qed.

Lemma walk_chain (h : Heap) (l : list Z) : forall p,
  chain h p l -> walk (List.length l) h p = Some l.
Proof.
  induction l as [|b l IH]; simpl; intros p Hc.
  - subst p. reflexivity.
  - destruct Hc as (-> & Hnz & Hc).
    apply Z.eqb_neq in Hnz. rewrite Hnz, (IH _ Hc). reflexivity.
Qed.

Lemma store_block_same (h : Heap) (p : Z) (b : Block) :
  blocks (store_block h p b) p = b.
Proof. simpl. rewrite Z.eqb_refl. reflexivity. Qed.

Lemma store_block_other (h : Heap) (p q : Z) (b : Block) :
  q <> p -> blocks (store_block h p b) q = blocks h q.
Proof. intros H. simpl. apply Z.eqb_neq in H. rewrite H. reflexivity. Qed.

Lemma store_word_same (h : Heap) (p w : Z) : words (store_word h p w) p = w.
Proof. simpl. rewrite Z.eqb_refl. reflexivity. Qed.

Lemma store_word_other (h : Heap) (p q w : Z) :
  q <> p -> words (store_word h p w) q = words h q.
Proof. intros H. simpl. apply Z.eqb_neq in H. rewrite H. reflexivity. Qed.

(** * Slots *)

Section Slots.
Variable debug : bool.
Variable pool : MemoryPool.t.
Hypothesis Hgeo : geometry debug pool.

Let mem := MemoryPool.memory pool.
Let bs := MemoryPool.block_size pool.
Let cnt := MemoryPool.block_count pool.

Lemma geometry_bs_pos : 0 < bs.
Proof.
  destruct Hgeo as (_ & H & _). pose proof (sizeof_Block_pos debug).
  pose proof (tail_size_range debug). subst bs. lia.
Qed.

Lemma in_slots (b : Z) :
  In b (slots pool) <-> exists i, (i < Z.to_nat cnt)%nat /\ b = slot pool i.
Proof.
  unfold slots. rewrite in_map_iff. split.
  - intros (i & E & Hi). apply in_seq in Hi. exists i. split; [lia|congruence].
  - intros (i & Hi & E). exists i. split; [congruence|]. apply in_seq. lia.
Qed.

Lemma slot_bounds (i : nat) :
  (i < Z.to_nat cnt)%nat ->
  0 < mem <= slot pool i /\
  slot pool i + bs <= mem + bs * cnt /\
  mem + bs * cnt < 2 ^ SIZE_WIDTH.
Proof.
  intros Hi. pose proof geometry_bs_pos as Hb.
  destruct Hgeo as (Hm & _ & Hc & Hend). fold mem bs cnt in Hm, Hc, Hend.
  unfold slot. fold mem bs. nia.
Qed.

Lemma slot_inj (i j : nat) : slot pool i = slot pool j -> i = j.
Proof.
  pose proof geometry_bs_pos as Hb. unfold slot. fold mem bs. intros E.
  assert (Z.of_nat i = Z.of_nat j) by nia. lia.
Qed.

Lemma slots_NoDup : NoDup (slots pool).
Proof.
  unfold slots. apply Finite.Injective_map_NoDup.
  - intros i j. apply slot_inj.
  - apply seq_NoDup.
Qed.

Lemma slots_length : List.length (slots pool) = Z.to_nat cnt.
Proof. unfold slots. rewrite length_map, length_seq. reflexivity. Qed.

Lemma payload_no_wrap (b : Z) :
  In b (slots pool) ->
  wrap (b + sizeof_Block debug) = payload_of debug b /\ payload_of debug b <> 0.
Proof.
  intros Hin. apply in_slots in Hin. destruct Hin as (i & Hi & ->).
  pose proof (slot_bounds i Hi) as (Hlo & Hhi & Hend).
  destruct Hgeo as (_ & Hs & _). fold bs in Hs.
  pose proof (sizeof_Block_pos debug). pose proof (tail_size_range debug).
  unfold payload_of. split; [apply wrap_small|]; lia.
Qed.

Lemma rear_no_wrap (b : Z) :
  In b (slots pool) -> Allocator.rear b bs = b + bs - sizeof_uint32.
Proof.
  intros Hin. apply in_slots in Hin. destruct Hin as (i & Hi & ->).
  pose proof (slot_bounds i Hi) as (Hlo & Hhi & Hend).
  destruct Hgeo as (_ & Hs & _). fold bs in Hs.
  pose proof (sizeof_Block_pos debug). pose proof (tail_size_range debug).
  unfold Allocator.rear, sizeof_uint32 in *.
  rewrite (wrap_small (slot pool i + bs)) by lia. apply wrap_small. lia.
Qed.

Lemma block_ptr_no_wrap (p : Z) :
  In (block_of debug p) (slots pool) ->
  wrap (p - sizeof_Block debug) = block_of debug p /\ p <> 0 /\
  payload_of debug (block_of debug p) = p.
Proof.
  intros Hin. apply in_slots in Hin. destruct Hin as (i & Hi & E).
  pose proof (slot_bounds i Hi) as (Hlo & Hhi & Hend).
  pose proof geometry_bs_pos. pose proof (sizeof_Block_pos debug).
  unfold block_of, payload_of in *. repeat split; [apply wrap_small| |]; lia.
Qed.

Lemma slot_passes_checks (b : Z) :
  In b (slots pool) ->
  (b <? mem) || (b >=? wrap (mem + wrap (bs * cnt))) = false /\
  (bs =? 0) = false /\
  (wrap (b - mem) mod bs =? 0) = true.
Proof.
  intros Hin. apply in_slots in Hin. destruct Hin as (i & Hi & ->).
  pose proof (slot_bounds i Hi) as (Hlo & Hhi & Hend).
  pose proof geometry_bs_pos as Hb.
  destruct Hgeo as (_ & _ & Hc & _). fold cnt in Hc.
  rewrite (wrap_small (bs * cnt)) by nia.
  rewrite (wrap_small (mem + bs * cnt)) by nia.
  repeat split.
  - apply orb_false_iff. rewrite Z.geb_leb. split; [apply Z.ltb_ge|apply Z.leb_gt]; lia.
  - apply Z.eqb_neq. lia.
  - apply Z.eqb_eq. unfold slot. fold mem bs.
    replace (mem + Z.of_nat i * bs - mem) with (Z.of_nat i * bs) by lia.
    rewrite wrap_small by nia. apply Z.mod_mul. lia.
Qed.

End Slots.

(** * The constructor *)

Section Construction.
Variables (debug : bool) (id mem bs : Z).
Hypothesis Hmem : 0 < mem.
Hypothesis Hbs : sizeof_Block debug + tail_size debug < bs.

Let sl (j : nat) : Z := mem + Z.of_nat j * bs.

Lemma sl_inj (i j : nat) : sl i = sl j -> i = j.
Proof.
  pose proof (sizeof_Block_pos debug). pose proof (tail_size_range debug).
  unfold sl. intros E. assert (Z.of_nat i = Z.of_nat j) by nia. lia.
Qed.

Lemma init_blocks_spec : forall n k fl h L,
  mem + bs * Z.of_nat (k + n) < 2 ^ SIZE_WIDTH ->
  chain h fl L ->
  (forall b, In b L -> exists j, (j < k)%nat /\ b = sl j) ->
  exists fl' h',
    Allocator.init_blocks debug id mem bs n (Z.of_nat k) fl h = (fl', h') /\
    chain h' fl' (rev (map sl (seq k n)) ++ L) /\
    (forall q, (forall j, (k <= j < k + n)%nat -> q <> sl j) ->
               blocks h' q = blocks h q) /\
    (forall q, (forall j, (k <= j < k + n)%nat ->
                          q <> sl j + bs - sizeof_uint32) ->
               words h' q = words h q) /\
    (debug = true -> forall j, (k <= j < k + n)%nat ->
       pool_id (blocks h' (sl j)) = id /\ is_free (blocks h' (sl j)) = true).
Proof.
  pose proof (sizeof_Block_pos debug) as Hsz.
  pose proof (tail_size_range debug) as Htl.
  induction n as [|n IH]; intros k fl h L Hend Hc HL.
  - exists fl, h. simpl. repeat split; auto; intros; lia.
  - cbn [Allocator.init_blocks].
    assert (Hblock : wrap (mem + wrap (Z.of_nat k * bs)) = sl k).
    { unfold sl. rewrite (wrap_small (Z.of_nat k * bs)) by nia.
      apply wrap_small. nia. }
    rewrite Hblock.
    assert (Hrear : Allocator.rear (sl k) bs = sl k + bs - sizeof_uint32).
    { unfold Allocator.rear, sl, sizeof_uint32.
      rewrite (wrap_small (mem + Z.of_nat k * bs + bs)) by nia.
      apply wrap_small. nia. }
    rewrite Hrear.
    set (h1 := if debug then _ else _).
    assert (H1next : next (blocks h1 (sl k)) = fl).
    { subst h1. destruct debug; simpl; rewrite Z.eqb_refl; reflexivity. }
    assert (H1dbg : debug = true ->
                    pool_id (blocks h1 (sl k)) = id /\
                    is_free (blocks h1 (sl k)) = true).
    { intros ->. subst h1. simpl. rewrite Z.eqb_refl. auto. }
    assert (H1blocks : forall q, q <> sl k -> blocks h1 q = blocks h q).
    { intros q Hq. apply Z.eqb_neq in Hq. subst h1.
      destruct debug; simpl; rewrite Hq; reflexivity. }
    assert (H1words : forall q, q <> sl k + bs - sizeof_uint32 ->
                                words h1 q = words h q).
    { intros q Hq. apply Z.eqb_neq in Hq. subst h1.
      destruct debug; simpl; [rewrite Hq|]; reflexivity. }
    clearbody h1.
    replace (Z.of_nat k + 1) with (Z.of_nat (S k)) by lia.
    destruct (IH (S k) (sl k) h1 (sl k :: L)) as (fl' & h' & E & Hc' & Hb' & Hw' & Hd').
    + replace (S k + n)%nat with (k + S n)%nat by lia. exact Hend.
    + simpl. repeat split; [unfold sl; nia|]. rewrite H1next.
      apply chain_frame with (h := h); [|exact Hc].
      intros b Hb. rewrite H1blocks; [reflexivity|].
      destruct (HL b Hb) as (j & Hj & ->). intros E.
      apply sl_inj in E. lia.
    + intros b [<-|Hb]; [exists k; split; [lia|reflexivity]|].
      destruct (HL b Hb) as (j & Hj & ->). exists j. split; [lia|reflexivity].
    + exists fl', h'. split; [exact E|]. split; [|split; [|split]].
      * cbn [seq map rev]. rewrite <- app_assoc. exact Hc'.
      * intros q Hq. rewrite Hb'.
        -- apply H1blocks. apply Hq. lia.
        -- intros j Hj. apply Hq. lia.
      * intros q Hq. rewrite Hw'.
        -- apply H1words. apply Hq. lia.
        -- intros j Hj. apply Hq. lia.
      * intros Hdbg j Hj. destruct (Nat.eq_dec j k) as [->|Hne].
        -- rewrite Hb'; [auto|]. intros j Hj' E'. apply sl_inj in E'. lia.
        -- apply Hd'; [exact Hdbg|lia].
Qed.

End Construction.

Lemma constructible_geometry (debug : bool) (block_size block_count mem fl : Z) :
  constructible debug block_size block_count mem ->
  geometry debug (fresh_pool debug block_size block_count mem fl).
Proof.
  intros (Hb & Hc & Hs & Hn & Hm & He).
  pose proof (raw_block_size_bounds debug block_size Hb Hs).
  unfold geometry, fresh_pool.
  cbn [MemoryPool.memory MemoryPool.block_size MemoryPool.block_count].
  repeat split; lia.
Qed.

Lemma new_ready (debug : bool) (block_size block_count this mem : Z) (h0 : Heap) :
  constructible debug block_size block_count mem ->
  exists fl h,
    let pool := fresh_pool debug block_size block_count mem fl in
    let a := {| Allocator.m_Initialized := true;
                Allocator.m_MemoryPool := Some pool;
                Allocator.m_PoolId :=
                  if debug then Z.land this 0xFFFFFFFF else 0 |} in
    Allocator.new debug block_size block_count this mem h0 = (a, h) /\
    pool_inv debug a h (rev (slots pool)) [] /\
    (forall q, ~ In q (slots pool) -> blocks h q = blocks h0 q) /\
    (forall q, (forall b, In b (slots pool) ->
                          q <> b + MemoryPool.block_size pool - sizeof_uint32) ->
               words h q = words h0 q).
Proof.
  intros Hcon.
  pose proof (constructible_geometry debug block_size block_count mem 0 Hcon) as Hgeo.
  destruct Hcon as (Hb & Hc & Hs & Hn & Hm & He).
  pose proof (raw_block_size_bounds debug block_size Hb Hs) as Hrbs.
  set (bs := Allocator.raw_block_size debug block_size) in *.
  set (id := if debug then Z.land this 0xFFFFFFFF else 0).
  destruct (init_blocks_spec debug id mem bs Hm ltac:(lia)
              (Z.to_nat block_count) 0%nat 0 h0 [])
    as (fl & h & E & Hchain & Hblocks & Hwords & Hdbg).
  { simpl Nat.add. rewrite Z2Nat.id by lia. exact He. }
  { reflexivity. }
  { intros b []. }
  exists fl, h. cbn zeta.
  assert (Hslots : forall q,
             In q (slots (fresh_pool debug block_size block_count mem fl)) <->
             exists j, (0 <= j < 0 + Z.to_nat block_count)%nat
                       /\ q = mem + Z.of_nat j * bs).
  { intros q. unfold slots. cbn [fresh_pool MemoryPool.block_count].
    rewrite in_map_iff. split.
    - intros (j & <- & Hj). apply in_seq in Hj. exists j. split; [lia|reflexivity].
    - intros (j & Hj & ->). exists j. split; [reflexivity|apply in_seq; lia]. }
  split; [|split; [|split]].
  - unfold Allocator.new.
    replace (block_size =? 0) with false by (symmetry; apply Z.eqb_neq; lia).
    replace (block_count =? 0) with false by (symmetry; apply Z.eqb_neq; lia).
    replace (mem =? 0) with false by (symmetry; apply Z.eqb_neq; lia).
    simpl orb. cbv iota. fold bs. fold id.
    change 0 with (Z.of_nat 0) at 1. rewrite E. reflexivity.
  - split; [reflexivity|]. eexists. split; [reflexivity|].
    split; [exact Hgeo|]. split; [|split].
    + simpl MemoryPool.free_list. rewrite app_nil_r in Hchain. exact Hchain.
    + simpl map. rewrite app_nil_r. symmetry. apply Permutation_rev.
    + intros Hd b Hin. apply Hslots in Hin. destruct Hin as (j & Hj & ->).
      destruct (Hdbg Hd j Hj) as (Hid & Hfree).
      split; [exact Hid|]. split; [intros _; exact Hfree|intros []].
  - intros q Hq. apply Hblocks. intros j Hj ->. apply Hq, Hslots. eauto.
  - intros q Hq. apply Hwords. intros j Hj ->.
    eapply Hq; [|reflexivity]. apply Hslots. eauto.
Qed.

(** * The invariant is kept by [allocate] and by a valid [free] *)

Lemma pool_inv_NoDup (debug : bool) (a : Allocator.t) (h : Heap)
      (fl live : list Z) :
  pool_inv debug a h fl live -> NoDup (fl ++ map (block_of debug) live).
Proof.
  intros (_ & pool & _ & Hgeo & _ & Hperm & _).
  eapply Permutation_NoDup; [symmetry; exact Hperm|].
  eapply slots_NoDup; eauto.
Qed.

Lemma allocate_empty (debug : bool) (a : Allocator.t) (h : Heap) (live : list Z) :
  pool_inv debug a h [] live ->
  Allocator.allocate debug a h = (Returned 0, a, h).
Proof.
  intros (Hinit & pool & Hpool & _ & Hchain & _).
  simpl in Hchain. unfold Allocator.allocate.
  rewrite Hinit, Hpool, Hchain. reflexivity.
Qed.

Lemma allocate_pop (debug : bool) (a : Allocator.t) (h : Heap) (b : Z)
      (fl live : list Z) :
  pool_inv debug a h (b :: fl) live ->
  exists a' h',
    Allocator.allocate debug a h = (Returned (payload_of debug b), a', h') /\
    payload_of debug b <> 0 /\
    pool_inv debug a' h' fl (payload_of debug b :: live).
Proof.
  intros Hinv. pose proof (pool_inv_NoDup _ _ _ _ _ Hinv) as Hnd.
  destruct Hinv as (Hinit & pool & Hpool & Hgeo & Hchain & Hperm & Hdbg).
  destruct Hchain as (Hfl & Hnz & Hchain).
  assert (Hin : In b (slots pool)).
  { eapply Permutation_in; [exact Hperm|]. left. reflexivity. }
  destruct (payload_no_wrap debug pool Hgeo b Hin) as (Hw & Hp).
  assert (Hperm' : Permutation (fl ++ map (block_of debug) (payload_of debug b :: live))
                               (slots pool)).
  { simpl map. replace (block_of debug (payload_of debug b)) with b
      by (unfold block_of, payload_of; lia).
    etransitivity; [symmetry; apply Permutation_middle|exact Hperm]. }
  assert (Hnotin : forall c, In c (fl ++ map (block_of debug) live) -> c <> b).
  { simpl in Hnd. inversion Hnd; subst. intros c Hc ->. contradiction. }
  apply Z.eqb_neq in Hnz.
  unfold Allocator.allocate. rewrite Hinit, Hpool, Hfl, Hnz, Hw. cbn [negb].
  destruct debug.
  - destruct (Hdbg eq_refl b Hin) as (Hid & Hfree & _).
    rewrite (Hfree (or_introl eq_refl)). cbn [negb].
    eexists. eexists. split; [reflexivity|]. split; [exact Hp|].
    split; [exact Hinit|]. eexists. split; [reflexivity|].
    split; [exact Hgeo|]. split; [|split; [exact Hperm'|]].
    + eapply chain_frame; [|exact Hchain]. intros c Hc. simpl.
      destruct (c =? b) eqn:E; [apply Z.eqb_eq in E; subst c|]; reflexivity.
    + intros _ c Hc. destruct (Hdbg eq_refl c Hc) as (Hcid & Hcfree & Hcused).
      assert (Hrb := rear_no_wrap true pool Hgeo b Hin).
      assert (Hrc := rear_no_wrap true pool Hgeo c Hc).
      cbn [Allocator.set_pool Allocator.m_PoolId MemoryPool.set_free_list
           MemoryPool.block_size].
      destruct (Z.eq_dec c b) as [->|Hne].
      * rewrite store_word_same. cbn [blocks store_word].
        rewrite store_block_same. cbn.
        split; [exact Hid|]. split; [|auto].
        intros Hc'. exfalso. eapply Hnotin; [|reflexivity].
        apply in_or_app. left. exact Hc'.
      * rewrite store_word_other by (rewrite Hrb, Hrc; lia).
        cbn [blocks words store_word]. rewrite store_block_other by exact Hne.
        split; [exact Hcid|]. split.
        -- intros Hc'. apply Hcfree. right. exact Hc'.
        -- intros [Hc'|Hc']; [unfold block_of, payload_of in Hc'; lia|].
           apply Hcused. exact Hc'.
  - eexists. eexists. split; [reflexivity|]. split; [exact Hp|].
    split; [exact Hinit|]. eexists. split; [reflexivity|].
    split; [exact Hgeo|]. split; [exact Hchain|]. split; [exact Hperm'|].
    intros Hd. discriminate Hd.
Qed.

Lemma free_push (debug : bool) (a : Allocator.t) (h : Heap) (fl l1 : list Z)
      (p : Z) (l2 : list Z) :
  pool_inv debug a h fl (l1 ++ p :: l2) ->
  exists a' h',
    Allocator.free debug p a h = (Returned tt, a', h') /\
    pool_inv debug a' h' (block_of debug p :: fl) (l1 ++ l2).
Proof.
  intros Hinv. pose proof (pool_inv_NoDup _ _ _ _ _ Hinv) as Hnd.
  destruct Hinv as (Hinit & pool & Hpool & Hgeo & Hchain & Hperm & Hdbg).
  set (b := block_of debug p) in *.
  rewrite map_app in Hnd, Hperm. cbn [map] in Hnd, Hperm. fold b in Hnd, Hperm.
  assert (Hused : In b (map (block_of debug) (l1 ++ p :: l2))).
  { apply in_map, in_elt. }
  assert (Hin : In b (slots pool)).
  { eapply Permutation_in; [exact Hperm|]. apply in_or_app. right. apply in_elt. }
  destruct (block_ptr_no_wrap debug pool Hgeo p Hin) as (Hw & Hp & _).
  pose proof (slot_passes_checks debug pool Hgeo b Hin) as (Hrange & Hbs & Hmod).
  cbv zeta in Hrange, Hbs, Hmod.
  rewrite app_assoc in Hnd. apply NoDup_remove in Hnd.
  rewrite <- app_assoc in Hnd. destruct Hnd as (Hnd & Hfresh).
  assert (Hperm' : Permutation ((b :: fl) ++ map (block_of debug) (l1 ++ l2))
                               (slots pool)).
  { rewrite map_app. etransitivity; [|exact Hperm].
    rewrite (app_assoc fl _ (b :: _)). simpl.
    rewrite (app_assoc fl). apply Permutation_middle. }
  assert (Hbnz : b <> 0).
  { apply in_slots in Hin. destruct Hin as (i & Hi & E).
    pose proof (slot_bounds debug pool Hgeo i Hi). lia. }
  assert (Hnotfl : forall c, In c fl -> c <> b).
  { intros c Hc ->. apply Hfresh. apply in_or_app. left. exact Hc. }
  apply Z.eqb_neq in Hp.
  unfold Allocator.free. rewrite Hp, Hinit, Hpool. cbn [negb]. cbv zeta.
  rewrite Hw. fold b. rewrite Hrange, Hbs, Hmod. cbn [negb].
  destruct debug.
  - destruct (Hdbg eq_refl b Hin) as (Hid & _ & Hu).
    destruct (Hu Hused) as (Hfree & Hcf & Hcr).
    rewrite Hid, Z.eqb_refl, Hfree, Hcf, Hcr, Z.eqb_refl. cbn [negb orb].
    eexists. eexists. split; [reflexivity|].
    split; [exact Hinit|]. eexists. split; [reflexivity|].
    split; [exact Hgeo|]. split; [|split; [exact Hperm'|]].
    + cbn [chain MemoryPool.free_list MemoryPool.set_free_list].
      split; [reflexivity|]. split; [exact Hbnz|].
      rewrite !store_block_same. cbn [next set_next].
      eapply chain_frame; [|exact Hchain]. intros c Hc.
      rewrite !store_block_other by (apply Hnotfl; exact Hc). reflexivity.
    + intros _ c Hc. destruct (Hdbg eq_refl c Hc) as (Hcid & Hcfree & Hcused).
      cbn [Allocator.set_pool Allocator.m_PoolId MemoryPool.set_free_list
           MemoryPool.block_size words store_block].
      destruct (Z.eq_dec c b) as [->|Hne].
      * rewrite !store_block_same. cbn.
        split; [exact Hid|]. split; [reflexivity|].
        intros Hc'. exfalso. apply Hfresh. apply in_or_app. right.
        rewrite <- map_app. exact Hc'.
      * rewrite !store_block_other by exact Hne.
        split; [exact Hcid|]. split.
        -- intros [Hc'|Hc']; [congruence|]. apply Hcfree. exact Hc'.
        -- intros Hc'. apply Hcused. rewrite map_app in *. cbn [map].
           apply in_app_or in Hc'. apply in_or_app.
           destruct Hc' as [Hc'|Hc']; [left|right; right]; exact Hc'.
  - eexists. eexists. split; [reflexivity|].
    split; [exact Hinit|]. eexists. split; [reflexivity|].
    split; [exact Hgeo|]. split; [|split; [exact Hperm'|]].
    + cbn [chain MemoryPool.free_list MemoryPool.set_free_list].
      split; [reflexivity|]. split; [exact Hbnz|].
      rewrite store_block_same. cbn [next set_next].
      eapply chain_frame; [|exact Hchain]. intros c Hc.
      rewrite store_block_other by (apply Hnotfl; exact Hc). reflexivity.
    + intros Hd. discriminate Hd.
Qed.

Lemma reachable_inv (debug : bool) (a : Allocator.t) (h : Heap) (live : list Z) :
  reachable debug a h live -> exists fl, pool_inv debug a h fl live.
Proof.
  induction 1 as [bsz cnt this mem h0 a h Hcon Hnew
                 | a h live p a' h' _ IH Hal Hp
                 | a h live a' h' _ IH Hal
                 | a h l1 p l2 a' h' _ IH Hfr].
  - destruct (new_ready debug bsz cnt this mem h0 Hcon) as (fl & h1 & E & Hinv & _).
    cbv zeta in E, Hinv. rewrite E in Hnew. inversion Hnew; subst. eauto.
  - destruct IH as ([|b fl] & Hinv).
    + rewrite (allocate_empty _ _ _ _ Hinv) in Hal. inversion Hal. congruence.
    + destruct (allocate_pop _ _ _ _ _ _ Hinv) as (a1 & h1 & E & _ & Hinv').
      rewrite E in Hal. inversion Hal; subst. eauto.
  - destruct IH as ([|b fl] & Hinv).
    + rewrite (allocate_empty _ _ _ _ Hinv) in Hal. inversion Hal; subst. eauto.
    + destruct (allocate_pop _ _ _ _ _ _ Hinv) as (a1 & h1 & E & Hnz & _).
      rewrite E in Hal. inversion Hal. congruence.
  - destruct IH as (fl & Hinv).
    destruct (free_push _ _ _ _ _ _ _ Hinv) as (a1 & h1 & E & Hinv').
    rewrite E in Hfr. inversion Hfr; subst. eauto.
Qed.

(** [n] pops from a free list of [n] blocks, and one more. *)
Lemma allocate_n_drains (debug : bool) (fl : list Z) : forall a h live,
  pool_inv debug a h fl live ->
  exists a' h',
    Allocator.allocate_n debug (S (List.length fl)) a h
    = (map Returned (map (payload_of debug) fl) ++ [Returned 0], a', h') /\
    pool_inv debug a' h' [] (rev (map (payload_of debug) fl) ++ live).
Proof.
  induction fl as [|b fl IH]; intros a h live Hinv.
  - exists a, h. cbn [List.length Allocator.allocate_n].
    rewrite (allocate_empty _ _ _ _ Hinv). split; [reflexivity|exact Hinv].
  - destruct (allocate_pop _ _ _ _ _ _ Hinv) as (a1 & h1 & E & _ & Hinv1).
    destruct (IH _ _ _ Hinv1) as (a2 & h2 & E2 & Hinv2).
    exists a2, h2. split.
    + change (S (List.length (b :: fl))) with (S (S (List.length fl))).
      remember (S (List.length fl)) as n.
      cbn [Allocator.allocate_n]. rewrite E, E2. reflexivity.
    + cbn [map rev]. rewrite <- app_assoc. exact Hinv2.
Qed.

(** * Alignment of the free list, under any use *)

Lemma on_list_ext (h h' : Heap) (p b : Z) :
  (forall q, next (blocks h' q) = next (blocks h q)) ->
  on_list h' p b -> on_list h p b.
Proof.
  intros Hn. induction 1 as [p Hp|p b Hp _ IH].
  - now constructor.
  - apply on_list_next; [exact Hp|]. rewrite <- Hn. exact IH.
Qed.

Lemma on_list_inv (h : Heap) (p b : Z) :
  on_list h p b -> p <> 0 /\ (b = p \/ on_list h (next (blocks h p)) b).
Proof. destruct 1; auto. Qed.

Lemma on_list_update (h h' : Heap) (blk fl p b : Z) :
  next (blocks h' blk) = fl ->
  (forall q, q <> blk -> next (blocks h' q) = next (blocks h q)) ->
  on_list h' p b -> b = blk \/ on_list h p b \/ on_list h fl b.
Proof.
  intros Hblk Hoth. induction 1 as [p Hp|p b Hp Hrest IH].
  - right. left. now constructor.
  - destruct IH as [IH|[IH|IH]]; auto.
    destruct (Z.eq_dec p blk) as [->|Hne].
    + rewrite Hblk in IH. auto.
    + rewrite (Hoth p Hne) in IH. right. left. now apply on_list_next.
Qed.







(** * From the invariant to the partition *)

Lemma pool_inv_partition (debug : bool) (a : Allocator.t) (h : Heap)
      (fl live : list Z) :
  pool_inv debug a h fl live -> free_list_partition debug a h live.
Proof.
  intros Hinv. pose proof (pool_inv_NoDup _ _ _ _ _ Hinv) as Hnd.
  destruct Hinv as (_ & pool & Hpool & Hgeo & Hchain & Hperm & _).
  exists pool, fl. split; [exact Hpool|]. split; [exact Hchain|].
  split; [eapply NoDup_app_remove_r; exact Hnd|].
  split; [intros b Hb; eapply Permutation_in; [exact Hperm|];
          apply in_or_app; left; exact Hb|].
  split; [eapply slots_NoDup; exact Hgeo|].
  split; [apply slots_length|].
  split; [|split].
  - intros b. split.
    + intros Hb. apply in_app_or. eapply Permutation_in; [symmetry; exact Hperm|exact Hb].
    + intros Hb. eapply Permutation_in; [exact Hperm|]. apply in_or_app. exact Hb.
  - intros b (Hb1 & Hb2). apply in_split in Hb1. destruct Hb1 as (x & y & ->).
    rewrite <- app_assoc in Hnd. cbn [app] in Hnd. apply NoDup_remove_2 in Hnd.
    apply Hnd. rewrite app_assoc. apply in_or_app. right. exact Hb2.
  - apply NoDup_app_remove_l in Hnd. eapply NoDup_map_inv. exact Hnd.
Qed.

(** * Owner stamps in a debug build *)

Lemma init_blocks_stamped (id start bs : Z) : forall n i fl h,
  (forall q, pool_id (blocks h q) = id ->
     pool_id (blocks (snd (Allocator.init_blocks true id start bs n i fl h)) q)
     = id) /\
  (forall j, i <= j < i + Z.of_nat n ->
     pool_id (blocks (snd (Allocator.init_blocks true id start bs n i fl h))
                     (wrap (start + wrap (j * bs)))) = id).
Proof.
  induction n as [|n IH]; intros i fl h.
  - split; [auto|intros; lia].
  - cbn [Allocator.init_blocks].
    set (block := wrap (start + wrap (i * bs))).
    set (h1 := store_word _ _ _).
    destruct (IH (i + 1) block h1) as (Hmono & Hrange).
    assert (H1 : forall q, pool_id (blocks h q) = id -> pool_id (blocks h1 q) = id).
    { intros q Hq. subst h1. simpl. destruct (q =? block); [reflexivity|exact Hq]. }
    assert (Hb : pool_id (blocks h1 block) = id).
    { subst h1. simpl. rewrite Z.eqb_refl. reflexivity. }
    split.
    + intros q Hq. apply Hmono, H1, Hq.
    + intros j Hj. destruct (Z.eq_dec j i) as [->|Hne].
      * apply Hmono. exact Hb.
      * apply Hrange. lia.
Qed.

Lemma new_stamped (payload_size count this mem : Z) (h0 : Heap) :
  0 <= count -> 0 <= mem < 2 ^ SIZE_WIDTH ->
  stamped (fst (Allocator.new true payload_size count this mem h0))
          (snd (Allocator.new true payload_size count this mem h0)).
Proof.
  intros Hc Hm. unfold Allocator.new.
  destruct (_ || _); [intros pool Hp; discriminate Hp|].
  destruct (mem =? 0); [intros pool _ Hi; discriminate Hi|].
  pose proof (init_blocks_stamped (Z.land this 0xFFFFFFFF) mem
                (Allocator.raw_block_size true payload_size)
                (Z.to_nat count) 0 0 h0) as (_ & Hrange).
  destruct (Allocator.init_blocks _ _ _ _ _ _ _ _) as (fl & h).
  intros pool Hp _. inversion Hp; subst pool; clear Hp.
  cbn [fst snd Allocator.m_PoolId MemoryPool.set_free_list MemoryPool.memory
       MemoryPool.block_size MemoryPool.block_count] in *.
  split; [|split; [exact Hc|split; [exact Hm|]]].
  - unfold Allocator.raw_block_size, Allocator.align_up.
    apply Z.land_nonneg. left. apply wrap_range.
  - intros j Hj. apply Hrange. rewrite Z2Nat.id; lia.
Qed.

Lemma allocate_layout (debug : bool) (a : Allocator.t) (h : Heap)
      (r : Outcome Z) (a' : Allocator.t) (h' : Heap) :
  Allocator.allocate debug a h = (r, a', h') ->
  layout a' = layout a /\ forall q, pool_id (blocks h' q) = pool_id (blocks h q).
Proof.
  unfold Allocator.allocate, layout. intros E.
  destruct (Allocator.m_Initialized a) eqn:Hi; cbn [negb] in E;
    [|inversion E; subst; rewrite ?Hi, ?Hpool; auto].
  destruct (Allocator.m_MemoryPool a) as [pool|] eqn:Hpool;
    [|inversion E; subst; rewrite ?Hi, ?Hpool; auto].
  destruct (MemoryPool.free_list pool =? 0); [inversion E; subst; rewrite ?Hi, ?Hpool; auto|].
  destruct debug; [destruct (is_free _); cbn [negb] in E|];
    inversion E; subst; cbn; rewrite ?Hi; (split; [reflexivity|]); auto.
  intros q. destruct (q =? MemoryPool.free_list pool) eqn:Eq; [|reflexivity].
  apply Z.eqb_eq in Eq. subst q. reflexivity.
Qed.

Lemma free_layout (debug : bool) (ptr : Z) (a : Allocator.t) (h : Heap)
      (r : Outcome unit) (a' : Allocator.t) (h' : Heap) :
  Allocator.free debug ptr a h = (r, a', h') ->
  layout a' = layout a /\ forall q, pool_id (blocks h' q) = pool_id (blocks h q).
Proof.
  unfold Allocator.free, layout. intros E.
  destruct (ptr =? 0); [inversion E; subst; rewrite ?Hi, ?Hpool; auto|].
  destruct (Allocator.m_Initialized a) eqn:Hi; cbn [negb] in E;
    [|inversion E; subst; rewrite ?Hi, ?Hpool; auto].
  destruct (Allocator.m_MemoryPool a) as [pool|] eqn:Hpool;
    [|inversion E; subst; rewrite ?Hi, ?Hpool; auto].
  cbv zeta in E. set (block := wrap (ptr - sizeof_Block debug)) in *.
  destruct (_ || _); [inversion E; subst; rewrite ?Hi, ?Hpool; auto|].
  destruct (MemoryPool.block_size pool =? 0);
    [inversion E; subst; rewrite ?Hi, ?Hpool; auto|].
  destruct (negb _); [inversion E; subst; rewrite ?Hi, ?Hpool; auto|].
  assert (Hstore : forall h1 b n q,
             pool_id (blocks (store_block h1 b (set_next (blocks h1 b) n)) q)
             = pool_id (blocks h1 q)).
  { intros h1 b n q. simpl. destruct (q =? b) eqn:Eq; [|reflexivity].
    apply Z.eqb_eq in Eq. subst q. reflexivity. }
  destruct debug.
  - destruct (negb _); [inversion E; subst; rewrite ?Hi, ?Hpool; auto|].
    destruct (is_free _); [inversion E; subst; rewrite ?Hi, ?Hpool; auto|].
    destruct (_ || _); [inversion E; subst; rewrite ?Hi, ?Hpool; auto|].
    inversion E; subst. split; [cbn; rewrite Hi; reflexivity|].
    intros q. rewrite Hstore. simpl.
    destruct (q =? block) eqn:Eq; [|reflexivity].
    apply Z.eqb_eq in Eq. subst q. reflexivity.
  - inversion E; subst. cbn [Allocator.set_pool Allocator.m_Initialized
      Allocator.m_PoolId Allocator.m_MemoryPool option_map MemoryPool.set_free_list
      MemoryPool.memory MemoryPool.block_size MemoryPool.block_count].
    rewrite Hi. split; [reflexivity|]. apply Hstore.
Qed.

Lemma stamped_layout (a a' : Allocator.t) (h h' : Heap) :
  layout a' = layout a ->
  (forall q, pool_id (blocks h' q) = pool_id (blocks h q)) ->
  stamped a h -> stamped a' h'.
Proof.
  unfold layout. intros El Hid Hst pool' Hp' Hi'.
  inversion El as [[Ei Eid Epool]].
  destruct (Allocator.m_MemoryPool a) as [pool|] eqn:Hp;
    rewrite Hp' in Epool; cbn in Epool; [|discriminate Epool].
  inversion Epool as [[Em Eb Ec]].
  destruct (Hst pool Hp ltac:(congruence)) as (Hb & Hc & Hm & Hj).
  rewrite Em, Eb, Ec, Eid. repeat split; try lia.
  intros j Hj'. rewrite Hid. apply Hj. exact Hj'.
Qed.

Lemma client_states_stamped (debug : bool) (a0 : Allocator.t) (h0 : Heap)
      (a : Allocator.t) (h : Heap) :
  stamped a0 h0 -> client_states debug a0 h0 a h -> stamped a h.
Proof.
  intros H0. induction 1 as [|a h p a' h' _ IH E|a h ptr a' h' _ IH E].
  - exact H0.
  - destruct (allocate_layout _ _ _ _ _ _ E). eapply stamped_layout; eauto.
  - destruct (free_layout _ _ _ _ _ _ _ E). eapply stamped_layout; eauto.
Qed.

(** A header address that passes the two checks of [free] is the address
    the constructor computed for one of the [count] slots. *)
Lemma accepted_is_slot (debug : bool) (pool : MemoryPool.t) (ptr : Z) :
  0 <= MemoryPool.block_size pool ->
  0 <= MemoryPool.block_count pool ->
  0 <= MemoryPool.memory pool < 2 ^ SIZE_WIDTH ->
  header_accepted debug pool ptr = true ->
  exists j, 0 <= j < MemoryPool.block_count pool /\
            wrap (ptr - sizeof_Block debug)
            = wrap (MemoryPool.memory pool + wrap (j * MemoryPool.block_size pool)).
Proof.
  intros Hb Hc Hm. unfold header_accepted. cbv zeta.
  set (block := wrap (ptr - sizeof_Block debug)).
  set (mem := MemoryPool.memory pool) in *.
  set (bs := MemoryPool.block_size pool) in *.
  set (cnt := MemoryPool.block_count pool) in *.
  intros H. apply andb_true_iff in H. destruct H as (Hrange & Hmod).
  apply negb_true_iff, orb_false_iff in Hrange. destruct Hrange as (Hlo & Hhi).
  apply Z.ltb_ge in Hlo. rewrite Z.geb_leb in Hhi. apply Z.leb_gt in Hhi.
  apply Z.eqb_eq in Hmod.
  pose proof (wrap_range (ptr - sizeof_Block debug)) as Hblock. fold block in Hblock.
  pose proof (wrap_range (bs * cnt)) as Hn.
  assert (Hle : wrap (bs * cnt) <= bs * cnt).
  { unfold wrap. apply Z.mod_le; [nia|reflexivity]. }
  assert (Hend : mem + wrap (bs * cnt) < 2 ^ SIZE_WIDTH).
  { destruct (Z_lt_ge_dec (mem + wrap (bs * cnt)) (2 ^ SIZE_WIDTH)) as [|Hge]; [assumption|].
    exfalso. unfold wrap at 1 in Hhi.
    replace (mem + wrap (bs * cnt))
      with (mem + wrap (bs * cnt) - 2 ^ SIZE_WIDTH + 1 * 2 ^ SIZE_WIDTH) in Hhi by lia.
    rewrite Z.mod_add in Hhi by (compute; discriminate).
    rewrite Z.mod_small in Hhi by lia. lia. }
  rewrite (wrap_small (mem + wrap (bs * cnt))) in Hhi by lia.
  rewrite (wrap_small (block - mem)) in Hmod by lia.
  assert (Hbs : bs <> 0).
  { intros Hz. rewrite Hz, Z.mul_0_l in Hhi. change (wrap 0) with 0 in Hhi. lia. }
  apply Z.mod_divide in Hmod; [|exact Hbs]. destruct Hmod as (j & Hj).
  exists j. assert (Hjr : 0 <= j < cnt) by nia.
  split; [exact Hjr|].
  rewrite <- Hj. rewrite (wrap_small (block - mem)) by lia.
  replace (mem + (block - mem)) with block by lia.
  symmetry. apply wrap_small. exact Hblock.
Qed.

(** * Unready pools *)

Lemma unready_allocate_free_noop (debug : bool) (a : Allocator.t) (h : Heap) :
  Allocator.m_Initialized a = false ->
  Allocator.allocate debug a h = (Returned 0, a, h) /\
  forall ptr, Allocator.free debug ptr a h = (Returned tt, a, h).
Proof.
  intros Hinit. unfold Allocator.allocate, Allocator.free. rewrite Hinit.
  split; [reflexivity|]. intros ptr. destruct (ptr =? 0); reflexivity.
Qed.

(** * Pools side by side in the dispatcher *)

Lemma slot_in_buffer (debug : bool) (pool : MemoryPool.t) (b : Z) :
  geometry debug pool -> In b (slots pool) ->
  MemoryPool.memory pool <= b /\
  b + MemoryPool.block_size pool
  <= MemoryPool.memory pool + MemoryPool.block_size pool * MemoryPool.block_count pool /\
  8 < MemoryPool.block_size pool.
Proof.
  intros Hgeo Hin. apply in_slots in Hin. destruct Hin as (i & Hi & ->).
  pose proof (slot_bounds debug pool Hgeo i Hi) as H. cbv zeta in H.
  destruct Hgeo as (_ & Hs & _).
  pose proof (sizeof_Block_pos debug). pose proof (tail_size_range debug). lia.
Qed.

Lemma pool_inv_frame (debug : bool) (a : Allocator.t) (h h' : Heap)
      (fl live : list Z) :
  pool_inv debug a h fl live ->
  (forall pool b, Allocator.m_MemoryPool a = Some pool -> In b (slots pool) ->
     blocks h' b = blocks h b /\
     words h' (b + MemoryPool.block_size pool - sizeof_uint32)
     = words h (b + MemoryPool.block_size pool - sizeof_uint32)) ->
  pool_inv debug a h' fl live.
Proof.
  intros (Hinit & pool & Hpool & Hgeo & Hchain & Hperm & Hdbg) Hframe.
  split; [exact Hinit|]. exists pool. split; [exact Hpool|].
  split; [exact Hgeo|]. split; [|split; [exact Hperm|]].
  - eapply chain_frame; [|exact Hchain]. intros b Hb.
    destruct (Hframe pool b Hpool) as (-> & _); [|reflexivity].
    eapply Permutation_in; [exact Hperm|]. apply in_or_app. left. exact Hb.
  - intros Hd b Hb. destruct (Hframe pool b Hpool Hb) as (Eb & Ew).
    rewrite (rear_no_wrap debug pool Hgeo b Hb), Eb, Ew.
    rewrite <- (rear_no_wrap debug pool Hgeo b Hb). apply Hdbg; assumption.
Qed.

Lemma new_ready_outside (debug : bool) (size count this mem : Z) (h0 : Heap) :
  constructible debug size count mem ->
  exists fl h,
    let pool := fresh_pool debug size count mem fl in
    let a := {| Allocator.m_Initialized := true;
                Allocator.m_MemoryPool := Some pool;
                Allocator.m_PoolId :=
                  if debug then Z.land this 0xFFFFFFFF else 0 |} in
    Allocator.new debug size count this mem h0 = (a, h) /\
    pool_inv debug a h (rev (slots pool)) [] /\
    (forall q, ~ (mem <= q < mem + Allocator.raw_block_size debug size * count) ->
               blocks h q = blocks h0 q /\ words h q = words h0 q).
Proof.
  intros Hcon.
  pose proof (constructible_geometry debug size count mem) as Hgeo.
  destruct (new_ready debug size count this mem h0 Hcon)
    as (fl & h & E & Hinv & Hb & Hw).
  exists fl, h. cbv zeta in *. split; [exact E|]. split; [exact Hinv|].
  intros q Hq. split.
  - apply Hb. intros Hin.
    pose proof (slot_in_buffer debug _ q (Hgeo fl Hcon) Hin) as H.
    cbn [fresh_pool MemoryPool.memory MemoryPool.block_size MemoryPool.block_count] in H.
    apply Hq. lia.
  - apply Hw. intros b Hin ->.
    pose proof (slot_in_buffer debug _ b (Hgeo fl Hcon) Hin) as H.
    cbn [fresh_pool MemoryPool.memory MemoryPool.block_size MemoryPool.block_count] in *.
    unfold sizeof_uint32 in Hq. apply Hq. lia.
Qed.

Lemma slab_strides (debug : bool) :
  64 < Allocator.raw_block_size debug 64 < 128 /\
  128 < Allocator.raw_block_size debug 128 < 256 /\
  256 < Allocator.raw_block_size debug 256 < 500 /\
  512 < Allocator.raw_block_size debug 512 < 600.
Proof. destruct debug; vm_compute; intuition congruence. Qed.

Lemma free_in_none (debug : bool) (ptr size : Z) (h : Heap) :
  forall slabs,
    (forall a, In a slabs ->
       exists bs, Allocator.block_size a = Returned bs /\ bs < size) ->
    SlabAllocator.free_in debug ptr size slabs h = (Returned tt, slabs, h).
Proof.
  induction slabs as [|a slabs IH]; intros Hall; [reflexivity|].
  cbn [SlabAllocator.free_in].
  destruct (Hall a (or_introl eq_refl)) as (bs & -> & Hlt).
  apply Z.leb_gt in Hlt. rewrite Hlt, IH; [reflexivity|].
  intros a' Ha'. apply Hall. right. exact Ha'.
Qed.

Lemma allocate_in_none (debug : bool) (size : Z) (h : Heap) :
  forall slabs,
    (forall a, In a slabs ->
       exists bs, Allocator.block_size a = Returned bs /\ bs < size) ->
    SlabAllocator.allocate_in debug size slabs h = (Returned 0, slabs, h).
Proof.
  induction slabs as [|a slabs IH]; intros Hall; [reflexivity|].
  cbn [SlabAllocator.allocate_in].
  destruct (Hall a (or_introl eq_refl)) as (bs & -> & Hlt).
  apply Z.leb_gt in Hlt. rewrite Hlt, IH; [reflexivity|].
  intros a' Ha'. apply Hall. right. exact Ha'.
Qed.

(** A ready pool with a non-empty free list serves the request. *)
Lemma fresh_pool_serves (debug : bool) (a : Allocator.t) (h : Heap)
      (pool : MemoryPool.t) :
  Allocator.m_MemoryPool a = Some pool ->
  pool_inv debug a h (rev (slots pool)) [] ->
  exists p a' h',
    Allocator.allocate debug a h = (Returned p, a', h') /\ p <> 0 /\
    served_by debug a (MemoryPool.payload_size pool) p.
Proof.
  intros Hpool Hinv.
  assert (Hgeo : geometry debug pool).
  { destruct Hinv as (_ & pool' & Hp' & Hgeo & _). congruence. }
  destruct (rev (slots pool)) as [|b fl] eqn:Hrev.
  { apply (f_equal (@List.length Z)) in Hrev.
    rewrite length_rev, (slots_length pool) in Hrev. cbn in Hrev.
    destruct Hgeo as (_ & _ & Hc & _). lia. }
  destruct (allocate_pop _ _ _ _ _ _ Hinv) as (a' & h' & E & Hnz & _).
  exists (payload_of debug b), a', h'. split; [exact E|]. split; [exact Hnz|].
  exists pool. split; [exact Hpool|]. split; [reflexivity|].
  replace (block_of debug (payload_of debug b)) with b
    by (unfold block_of, payload_of; lia).
  apply in_rev. rewrite Hrev. left. reflexivity.
Qed.

(** Beyond the block size every pool reports through [block_size()], the
    value the loop compares with, [SlabAllocator::free(ptr, size)] falls
    through: no abort, and neither a pool nor the memory changes. *)
Lemma slab_free_beyond_stride_is_noop
      (debug : bool) (ptr size : Z) (s : SlabAllocator.t) (h : Heap) :
  (forall a, In a (SlabAllocator.m_Slabs s) ->
     exists bs, Allocator.block_size a = Returned bs /\ bs < size) ->
  SlabAllocator.free debug ptr size s h = (Returned tt, s, h).
Proof.
  intros Hall. unfold SlabAllocator.free.
  rewrite (free_in_none debug ptr size h _ Hall). destruct s. reflexivity.
Qed.

(** * The test scenarios, run *)

(** [ExhaustionBehavior] on four blocks, release and debug layout. *)
Example exhaustion_release :
  fst (fst (Allocator.allocate_n false 5
              (fst (Allocator.new false 64 4 0 4096 zero_heap))
              (snd (Allocator.new false 64 4 0 4096 zero_heap))))
  = [Returned 4320; Returned 4248; Returned 4176; Returned 4104; Returned 0].
Proof. vm_compute. reflexivity. Qed.

Example exhaustion_debug :
  fst (fst (Allocator.allocate_n true 5
              (fst (Allocator.new true 64 4 0 4096 zero_heap))
              (snd (Allocator.new true 64 4 0 4096 zero_heap))))
  = [Returned 4408; Returned 4312; Returned 4216; Returned 4120; Returned 0].
Proof. vm_compute. reflexivity. Qed.

(** The free list after construction visits the slots last to first. *)
Example free_list_after_construction :
  walk 4 (snd (Allocator.new false 64 4 0 4096 zero_heap)) 4312
  = Some [4312; 4240; 4168; 4096].
Proof. vm_compute. reflexivity. Qed.

(** [MisalignedFree] and [InvalidFreeCausesAbort]. *)
Example misaligned_free_aborts :
  let s := Allocator.new true 128 10 0 4096 zero_heap in
  let r := Allocator.allocate true (fst s) (snd s) in
  fst (fst r) = Returned 5560 /\
  fst (fst (Allocator.free true 5561 (snd (fst r)) (snd r)))
  = Aborted msg_not_aligned /\
  fst (fst (Allocator.free true 140737488355000 (snd (fst r)) (snd r)))
  = Aborted msg_not_from_pool.
Proof. vm_compute. repeat split. Qed.

(** [ReuseWorks] on the dispatcher. *)
Example slab_reuse :
  let r := SlabAllocator.allocate false 60 (fst (fresh_slab false))
                                  (snd (fresh_slab false)) in
  let f := SlabAllocator.free false 72672 60 (snd (fst r)) (snd r) in
  fst (fst r) = Returned 72672 /\
  fst (fst (SlabAllocator.allocate false 60 (snd (fst f)) (snd f)))
  = Returned 72672.
Proof. vm_compute. repeat split. Qed.

(** * The byte-addressed memory *)

(** The owner test of a debug build comes first among the header tests. *)
Lemma flat_free_blames_owner (a : Allocator.t) (m : Flat.Memory)
      (pool : MemoryPool.t) (ptr : Z) :
  ptr <> 0 ->
  Allocator.m_Initialized a = true ->
  Allocator.m_MemoryPool a = Some pool ->
  header_accepted true pool ptr = true ->
  MemoryPool.block_size pool <> 0 ->
  Flat.pool_id_at m (wrap (ptr - sizeof_Block true)) <> Allocator.m_PoolId a ->
  Flat.free true ptr a m = (Aborted msg_wrong_allocator, a, m).
Proof.
  intros Hp Hinit Hpool Hacc Hbs Hid.
  unfold header_accepted in Hacc. cbv zeta in Hacc.
  apply andb_true_iff in Hacc. destruct Hacc as (Hrange & Hmod).
  apply negb_true_iff in Hrange.
  apply Z.eqb_neq in Hp. apply Z.eqb_neq in Hbs. apply Z.eqb_neq in Hid.
  unfold Flat.free. rewrite Hp, Hinit, Hpool. cbn [negb]. cbv zeta.
  rewrite Hrange, Hbs, Hmod. cbn [negb]. rewrite Hid. reflexivity.
Qed.

(** On the pool of the test [DoubleFreeCausesAbort] the byte-addressed
    memory and the two stores give the same diagnostic for a block still
    marked free. *)
Example flat_regular_pool_double_free :
  let s := Flat.new true 128 2 140737488347136 4096 Flat.zero_memory in
  let t := Allocator.new true 128 2 140737488347136 4096 zero_heap in
  fst s = fst t /\
  fst (fst (Flat.free true 4280 (fst s) (snd s))) = Aborted msg_double_free /\
  fst (fst (Allocator.free true 4280 (fst t) (snd t))) = Aborted msg_double_free.
Proof. vm_compute. repeat split. Qed.

(** * Claims *)

(** C1 (as stated, refuted).  The pool built for [payload_size = 2^64 - 8]
    and [count = 2] in a release build is marked initialized, yet it is never
    exhausted: the size computation [sizeof(Block) + payload_size] wraps to
    a stride of [0], [std::malloc(0)] hands back a non-null pointer (4096
    here), both blocks land on that address and the free list loops on it,
    so the third [allocate()] still returns a block. *)
Lemma wrapped_stride_never_exhausts :
  exists a h,
    Allocator.new false (2 ^ 64 - 8) 2 0 4096 zero_heap = (a, h) /\
    Allocator.is_initialized a = true /\
    ~ exhausts_after false 2 a h.
Proof.
  exists (fst (Allocator.new false (2 ^ 64 - 8) 2 0 4096 zero_heap)),
         (snd (Allocator.new false (2 ^ 64 - 8) 2 0 4096 zero_heap)).
  split; [apply surjective_pairing|]. split; [reflexivity|].
  intros (ps & E & Hlen & _).
  assert (Hrun : fst (fst (Allocator.allocate_n false (S (Z.to_nat 2))
                    (fst (Allocator.new false (2 ^ 64 - 8) 2 0 4096 zero_heap))
                    (snd (Allocator.new false (2 ^ 64 - 8) 2 0 4096 zero_heap))))
                 = [Returned 4104; Returned 4104; Returned 4104])
    by (vm_compute; reflexivity).
  rewrite Hrun in E.
  destruct ps as [|p0 [|p1 [|p2 ps]]]; try discriminate Hlen.
  cbn in E. inversion E.
Qed.

(** C1 (amended).  For every pool constructed with [payload_size > 0] and
    [count > 0] whose size computations do not wrap around [size_t] and
    whose buffer lies inside the address space, the construction succeeds,
    exactly [count] consecutive [allocate()] calls return a non-null
    pointer, and the [count + 1]-th returns null. *)
Theorem allocate_exhausts_after_count
        (debug : bool) (payload_size count this mem : Z) (h0 : Heap)
        (a : Allocator.t) (h : Heap) :
  constructible debug payload_size count mem ->
  Allocator.new debug payload_size count this mem h0 = (a, h) ->
  Allocator.is_initialized a = true /\ exhausts_after debug count a h.
Proof.
  intros Hcon Hnew.
  destruct (new_ready debug payload_size count this mem h0 Hcon)
    as (fl & h1 & E & Hinv & _).
  cbv zeta in E, Hinv. rewrite E in Hnew. inversion Hnew; subst a h; clear Hnew.
  split; [reflexivity|].
  set (pool := fresh_pool debug payload_size count mem fl) in *.
  assert (Hlen : List.length (rev (slots pool)) = Z.to_nat count).
  { rewrite length_rev. unfold slots. rewrite length_map, length_seq. reflexivity. }
  destruct (allocate_n_drains debug _ _ _ _ Hinv) as (a' & h' & Hrun & Hinv').
  rewrite Hlen in Hrun.
  exists (map (payload_of debug) (rev (slots pool))).
  rewrite Hrun. split; [reflexivity|]. split; [rewrite length_map; exact Hlen|].
  apply Forall_forall. intros p Hp. apply in_map_iff in Hp.
  destruct Hp as (b & <- & Hb). apply in_rev in Hb.
  destruct Hinv as (_ & pool' & Hp' & Hgeo & _).
  inversion Hp'; subst pool'.
  apply (payload_no_wrap debug pool Hgeo b Hb).
Qed.

Lemma allocate_exhausts_after_count_witness :
  constructible false 64 4 4096 /\
  (Allocator.is_initialized (fst (Allocator.new false 64 4 0 4096 zero_heap)) = true /\
   exhausts_after false 4
     (fst (Allocator.new false 64 4 0 4096 zero_heap))
     (snd (Allocator.new false 64 4 0 4096 zero_heap))).
Proof.
  assert (Hcon : constructible false 64 4 4096)
    by (repeat split; vm_compute; reflexivity).
  split; [exact Hcon|].
  apply (allocate_exhausts_after_count false 64 4 0 4096 zero_heap _ _ Hcon).
  apply surjective_pairing.
Defined.

(** C2 (the code departs from the claim).  On a freshly built dispatcher
    [allocate(70)] is forwarded to the first pool, built for 64-byte
    payloads, whose slots leave 64 usable bytes in a release build and 68 in
    a debug build; and in a release build [allocate(515)] returns a block
    although no pool has 515 usable bytes.  The loop compares the request
    with [block_size()], which is the stride, header included. *)
Theorem slab_allocate_compares_stride :
  usable_capacities false (fst (fresh_slab false))
  = [Some 64; Some 128; Some 256; Some 512] /\
  fst (fst (SlabAllocator.allocate false 70 (fst (fresh_slab false))
                                   (snd (fresh_slab false))))
  = Returned 72672 /\
  first_pool_result false (fst (fresh_slab false)) (snd (fresh_slab false))
  = Some (Returned 72672) /\
  fst (fst (SlabAllocator.allocate false 515 (fst (fresh_slab false))
                                   (snd (fresh_slab false))))
  = Returned 313632 /\
  usable_capacities true (fst (fresh_slab true))
  = [Some 68; Some 132; Some 260; Some 516] /\
  fst (fst (SlabAllocator.allocate true 70 (fst (fresh_slab true))
                                   (snd (fresh_slab true))))
  = Returned 75064 /\
  first_pool_result true (fst (fresh_slab true)) (snd (fresh_slab true))
  = Some (Returned 75064).
Proof.
  split; [vm_compute; reflexivity|]. split; [vm_compute; reflexivity|].
  split; [vm_compute; reflexivity|]. split; [vm_compute; reflexivity|].
  split; [vm_compute; reflexivity|]. split; vm_compute; reflexivity.
Qed.

(** C3 (as stated, refuted).  The release pool built for
    [payload_size = 2^64 - 8] and [count = 1] is marked initialized and its
    only block is handed out by [allocate()], but freeing that block aborts:
    the wrapped stride is [0], so the buffer range checked by [free] is
    empty. *)
Lemma wrapped_stride_free_aborts :
  exists a h p a1 h1,
    Allocator.new false (2 ^ 64 - 8) 1 0 4096 zero_heap = (a, h) /\
    Allocator.is_initialized a = true /\
    Allocator.allocate false a h = (Returned p, a1, h1) /\
    p <> 0 /\
    fst (fst (Allocator.free false p a1 h1)) = Aborted msg_not_from_pool /\
    ~ free_then_allocate_gives false p a1 h1.
Proof.
  set (s := Allocator.new false (2 ^ 64 - 8) 1 0 4096 zero_heap).
  set (r := Allocator.allocate false (fst s) (snd s)).
  exists (fst s), (snd s), 4104, (snd (fst r)), (snd r).
  assert (Hab : fst (fst (Allocator.free false 4104 (snd (fst r)) (snd r)))
                = Aborted msg_not_from_pool) by (vm_compute; reflexivity).
  split; [apply surjective_pairing|]. split; [reflexivity|].
  split; [|split; [|split]].
  - apply result_eta. vm_compute. reflexivity.
  - discriminate.
  - exact Hab.
  - intros (a1 & h1 & a2 & h2 & Hfree & _).
    rewrite Hfree in Hab. discriminate Hab.
Qed.

(** C3 (amended).  For every pool state reached from a construction whose
    size computations do not wrap, and every pointer [p] in use, [free(p)]
    returns and the [allocate()] that follows returns exactly [p]. *)
Theorem free_then_allocate_reuses_block
        (debug : bool) (a : Allocator.t) (h : Heap) (live : list Z) (p : Z) :
  reachable debug a h live ->
  In p live ->
  free_then_allocate_gives debug p a h.
Proof.
  intros Hreach Hin. destruct (reachable_inv _ _ _ _ Hreach) as (fl & Hinv).
  apply in_split in Hin. destruct Hin as (l1 & l2 & ->).
  assert (Hslot : exists pool, geometry debug pool /\
                               In (block_of debug p) (slots pool)).
  { destruct Hinv as (_ & pool & _ & Hgeo & _ & Hperm & _). exists pool.
    split; [exact Hgeo|]. eapply Permutation_in; [exact Hperm|].
    apply in_or_app. right. apply in_map, in_elt. }
  destruct Hslot as (pool & Hgeo & Hslot).
  destruct (block_ptr_no_wrap debug pool Hgeo p Hslot) as (_ & _ & Hback).
  destruct (free_push _ _ _ _ _ _ _ Hinv) as (a1 & h1 & Hfree & Hinv1).
  destruct (allocate_pop _ _ _ _ _ _ Hinv1) as (a2 & h2 & Halloc & _).
  rewrite Hback in Halloc. exists a1, h1, a2, h2. auto.
Qed.

(** The test scenario [FreedBlockGetsReused]: a pool of one block. *)
Lemma free_then_allocate_reuses_block_witness :
  let s := Allocator.new false 128 1 0 4096 zero_heap in
  let r := Allocator.allocate false (fst s) (snd s) in
  free_then_allocate_gives false 4104 (snd (fst r)) (snd r).
Proof.
  intros s r.
  apply (free_then_allocate_reuses_block false (snd (fst r)) (snd r) [4104] 4104).
  - apply (reach_allocate false (fst s) (snd s) [] 4104 (snd (fst r)) (snd r)).
    + apply (reach_new false 128 1 0 4096 zero_heap).
      * repeat split; vm_compute; reflexivity.
      * apply surjective_pairing.
    + apply result_eta. vm_compute. reflexivity.
    + discriminate.
  - left. reflexivity.
Defined.

(** C4 (as stated, refuted).  After the release construction for
    [payload_size = 2^64 - 8] and [count = 2] the pool is marked initialized
    but its free list is a one-block cycle: no null-terminated chain without
    repetition exists. *)
Lemma wrapped_stride_cyclic_free_list :
  exists a h,
    Allocator.new false (2 ^ 64 - 8) 2 0 4096 zero_heap = (a, h) /\
    Allocator.is_initialized a = true /\
    ~ free_list_partition false a h [].
Proof.
  set (s := Allocator.new false (2 ^ 64 - 8) 2 0 4096 zero_heap).
  exists (fst s), (snd s).
  split; [apply surjective_pairing|]. split; [reflexivity|].
  intros (pool & fl & Hp & Hc & Hnd & _).
  assert (Hpool : Allocator.m_MemoryPool (fst s)
                  = Some (MemoryPool.mk 4096 4096 0 2 (2 ^ 64 - 8)))
    by (vm_compute; reflexivity).
  rewrite Hpool in Hp. inversion Hp; subst pool; clear Hp.
  cbn [MemoryPool.free_list] in Hc.
  assert (Hnext : next (blocks (snd s) 4096) = 4096) by (vm_compute; reflexivity).
  destruct fl as [|b [|c fl]]; cbn [chain] in Hc.
  - discriminate Hc.
  - destruct Hc as (<- & _ & Hc). rewrite Hnext in Hc. discriminate Hc.
  - destruct Hc as (<- & _ & Hc). rewrite Hnext in Hc. destruct Hc as (<- & _).
    inversion Hnd as [|? ? Hnotin _]. apply Hnotin. left. reflexivity.
Qed.

(** C4 (amended).  For every pool state reached from a construction whose
    size computations do not wrap, by [allocate()] calls and by [free] calls
    on pointers in use: the free list is a null-terminated chain without
    repetition inside the [count] slots, free and in-use blocks split the
    slots without overlap, and this still holds after the next
    [allocate()] and after a [free] of any pointer in use. *)
Theorem free_list_partitions_slots
        (debug : bool) (a : Allocator.t) (h : Heap) (live : list Z) :
  reachable debug a h live -> partition_kept debug a h live.
Proof.
  intros Hreach. destruct (reachable_inv _ _ _ _ Hreach) as (fl & Hinv).
  split; [eapply pool_inv_partition; exact Hinv|]. split.
  - destruct fl as [|b fl].
    + exists 0, a, h. split; [eapply allocate_empty; exact Hinv|].
      eapply pool_inv_partition; exact Hinv.
    + destruct (allocate_pop _ _ _ _ _ _ Hinv) as (a' & h' & E & Hnz & Hinv').
      exists (payload_of debug b), a', h'. split; [exact E|].
      apply Z.eqb_neq in Hnz. rewrite Hnz.
      eapply pool_inv_partition; exact Hinv'.
  - intros l1 p l2 ->.
    destruct (free_push _ _ _ _ _ _ _ Hinv) as (a' & h' & E & Hinv').
    exists a', h'. split; [exact E|]. eapply pool_inv_partition; exact Hinv'.
Qed.

Lemma free_list_partitions_slots_witness :
  let s := Allocator.new true 128 2 0 4096 zero_heap in
  let r := Allocator.allocate true (fst s) (snd s) in
  partition_kept true (snd (fst r)) (snd r) [4280].
Proof.
  intros s r.
  apply (free_list_partitions_slots true (snd (fst r)) (snd r) [4280]).
  apply (reach_allocate true (fst s) (snd s) [] 4280 (snd (fst r)) (snd r)).
  - apply (reach_new true 128 2 0 4096 zero_heap).
    + repeat split; vm_compute; reflexivity.
    + apply surjective_pairing.
  - apply result_eta. vm_compute. reflexivity.
  - discriminate.
Defined.

(** C5 (the code departs from the claim).  A pool constructed with
    [payload_size = 0] is unready, [allocate()] and [free(ptr)] on it are
    no-ops, but [block_size()] dereferences the null [m_MemoryPool]. *)
Theorem block_size_crashes_when_unready
        (debug : bool) (payload_size count this mem ptr : Z) (h : Heap) :
  let a := fst (Allocator.new debug 0 count this mem h) in
  let a' := fst (Allocator.new debug payload_size 0 this mem h) in
  Allocator.is_initialized a = false /\
  Allocator.allocate debug a h = (Returned 0, a, h) /\
  Allocator.free debug ptr a h = (Returned tt, a, h) /\
  Allocator.block_size a = Crashed /\
  Allocator.is_initialized a' = false /\
  Allocator.block_size a' = Crashed.
Proof.
  cbv zeta. unfold Allocator.new. rewrite orb_true_r. cbn [Z.eqb orb fst].
  split; [reflexivity|].
  split; [apply unready_allocate_free_noop; reflexivity|].
  split; [apply unready_allocate_free_noop; reflexivity|].
  repeat split.
Qed.

(** C6 (as stated, refuted).  In a release pool of four 64-byte blocks at
    address 4096, the pointer 4320 returned by [allocate()] fails the test
    [(ptr - buffer_start) % stride == 0] yet [free] accepts it, and the
    pointer 4168 passes that test yet [free] aborts on it. *)
Lemma free_checks_header_address :
  exists a h p a1 h1 pool,
    Allocator.new false 64 4 0 4096 zero_heap = (a, h) /\
    Allocator.allocate false a h = (Returned p, a1, h1) /\
    Allocator.m_Initialized a1 = true /\
    Allocator.m_MemoryPool a1 = Some pool /\
    p <> 0 /\
    accepted_as_specified pool p = false /\
    fst (fst (Allocator.free false p a1 h1)) = Returned tt /\
    accepted_as_specified pool 4168 = true /\
    fst (fst (Allocator.free false 4168 a1 h1)) = Aborted msg_not_aligned.
Proof.
  set (s := Allocator.new false 64 4 0 4096 zero_heap).
  set (r := Allocator.allocate false (fst s) (snd s)).
  exists (fst s), (snd s), 4320, (snd (fst r)), (snd r),
         (MemoryPool.mk 4096 4240 72 4 64).
  split; [apply surjective_pairing|]. split.
  { apply result_eta. vm_compute. reflexivity. }
  repeat split; try (vm_compute; reflexivity). discriminate.
Qed.

(** C6 (amended).  For every initialized pool and every non-null [ptr],
    [free(ptr)] aborts with a diagnostic, leaving the pool unchanged, if and
    only if the header address [ptr - sizeof(Block)] falls outside the
    buffer or off a slot boundary, or, in a debug build, the owner, liveness
    or canary check fails; when all checks pass the block at that header
    address becomes the head of the free list and links to the old head. *)
Theorem free_aborts_iff_rejected
        (debug : bool) (a : Allocator.t) (pool : MemoryPool.t) (h : Heap) (ptr : Z) :
  Allocator.m_Initialized a = true ->
  Allocator.m_MemoryPool a = Some pool ->
  0 <= MemoryPool.memory pool < 2 ^ SIZE_WIDTH ->
  ptr <> 0 ->
  let block := wrap (ptr - sizeof_Block debug) in
  (free_accepted debug a pool h ptr = false ->
   exists msg, Allocator.free debug ptr a h = (Aborted msg, a, h)) /\
  (free_accepted debug a pool h ptr = true ->
   exists h',
     Allocator.free debug ptr a h
     = (Returned tt, Allocator.set_pool a (MemoryPool.set_free_list pool block), h')
     /\ next (blocks h' block) = MemoryPool.free_list pool).
Proof.
  intros Hinit Hpool Hmem Hp block.
  apply Z.eqb_neq in Hp.
  unfold free_accepted, header_accepted, debug_accepted, Allocator.free.
  rewrite Hp, Hinit, Hpool. cbn [negb]. cbv zeta. fold block.
  destruct ((block <? MemoryPool.memory pool) || _) eqn:Hrange; cbn [negb andb].
  { split; [eauto|discriminate]. }
  assert (Hbs : (MemoryPool.block_size pool =? 0) = false).
  { apply Z.eqb_neq. intros Hz. rewrite Hz, Z.mul_0_l in Hrange.
    change (wrap 0) with 0 in Hrange. rewrite Z.add_0_r in Hrange.
    rewrite (wrap_small _ Hmem) in Hrange.
    apply orb_false_iff in Hrange. destruct Hrange as (H1 & H2).
    apply Z.ltb_ge in H1. rewrite Z.geb_leb in H2. apply Z.leb_gt in H2. lia. }
  rewrite Hbs.
  destruct (_ mod _ =? 0); cbn [negb andb].
  2:{ split; [eauto|discriminate]. }
  destruct debug; cbn [negb orb].
  - destruct (pool_id (blocks h block) =? Allocator.m_PoolId a); cbn [negb andb].
    2:{ split; [eauto|discriminate]. }
    destruct (is_free (blocks h block)); cbn [negb andb].
    { split; [eauto|discriminate]. }
    destruct (canary_front (blocks h block) =? CANARY_VALUE); cbn [negb andb orb].
    2:{ split; [eauto|discriminate]. }
    destruct (words h _ =? CANARY_VALUE); cbn [negb].
    2:{ split; [eauto|discriminate]. }
    split; [discriminate|]. intros _. eexists. split; [reflexivity|].
    rewrite store_block_same. reflexivity.
  - split; [discriminate|]. intros _. eexists. split; [reflexivity|].
    rewrite store_block_same. reflexivity.
Qed.

Lemma free_aborts_iff_rejected_witness :
  let s := Allocator.new false 64 4 0 4096 zero_heap in
  let r := Allocator.allocate false (fst s) (snd s) in
  let a1 := snd (fst r) in
  let pool := MemoryPool.mk 4096 4240 72 4 64 in
  (free_accepted false a1 pool (snd r) 4321 = false ->
   exists msg, Allocator.free false 4321 a1 (snd r) = (Aborted msg, a1, snd r)) /\
  (free_accepted false a1 pool (snd r) 4321 = true ->
   exists h',
     Allocator.free false 4321 a1 (snd r)
     = (Returned tt,
        Allocator.set_pool a1
          (MemoryPool.set_free_list pool (wrap (4321 - sizeof_Block false))), h')
     /\ next (blocks h' (wrap (4321 - sizeof_Block false))) = MemoryPool.free_list pool).
Proof.
  intros s r a1 pool.
  apply (free_aborts_iff_rejected false a1 pool (snd r) 4321).
  - reflexivity.
  - vm_compute. reflexivity.
  - split; vm_compute; [discriminate|reflexivity].
  - discriminate.
Defined.

(** C7 (as stated, refuted).  A debug pool built by
    [Allocator(2^64 - 12, 1)]: the stride wraps to 16, so the trailing
    canary of the block is its [pool_id] field and the constructor
    overwrites the owner id with [CANARY_VALUE].  The pool is initialized
    and its block is marked free, and [free] on its pointer aborts with
    the wrong-allocator diagnostic, not the double-free one.  (The
    24-byte header fits the chunk [std::malloc(16)] hands back, whose
    usable size is 24 bytes with glibc.) *)
Lemma wrapped_stride_free_blames_owner :
  let s := Flat.new true (2 ^ 64 - 12) 1 140737488347136 4096 Flat.zero_memory in
  Allocator.is_initialized (fst s) = true /\
  Allocator.block_size (fst s) = Returned 16 /\
  Allocator.rear 4096 16 = 4096 + Flat.offsetof_pool_id /\
  Flat.is_free_at (snd s) 4096 = true /\
  Flat.pool_id_at (snd s) 4096 = CANARY_VALUE /\
  Allocator.m_PoolId (fst s) <> CANARY_VALUE /\
  Flat.free true (4096 + sizeof_Block true) (fst s) (snd s)
  = (Aborted msg_wrong_allocator, fst s, snd s) /\
  msg_wrong_allocator <> msg_double_free.
Proof.
  cbv zeta.
  split; [vm_compute; reflexivity|]. split; [vm_compute; reflexivity|].
  split; [vm_compute; reflexivity|]. split; [vm_compute; reflexivity|].
  split; [vm_compute; reflexivity|]. split; [vm_compute; discriminate|].
  split; [|vm_compute; discriminate].
  apply (flat_free_blames_owner _ _ (MemoryPool.mk 4096 4096 16 1 (2 ^ 64 - 12))).
  - vm_compute. discriminate.
  - vm_compute. reflexivity.
  - vm_compute. reflexivity.
  - vm_compute. reflexivity.
  - vm_compute. discriminate.
  - vm_compute. discriminate.
Qed.

(** C7.  In a debug build, for a pool constructed without wrap-around and
    whatever calls returned before: [free(p)] on a non-null pointer whose
    header address lies in the buffer of the initialized pool on a slot
    boundary and whose block is already marked free aborts with the
    double-free diagnostic, and neither the pool object nor the memory,
    hence the free list, has changed at the abort. *)
Theorem double_free_aborts
        (payload_size count this mem : Z) (h0 : Heap)
        (a0 : Allocator.t) (h1 : Heap) (a : Allocator.t) (h : Heap)
        (pool : MemoryPool.t) (p : Z) :
  constructible true payload_size count mem ->
  Allocator.new true payload_size count this mem h0 = (a0, h1) ->
  client_states true a0 h1 a h ->
  Allocator.is_initialized a = true ->
  Allocator.m_MemoryPool a = Some pool ->
  p <> 0 ->
  header_accepted true pool p = true ->
  is_free (blocks h (wrap (p - sizeof_Block true))) = true ->
  Allocator.free true p a h = (Aborted msg_double_free, a, h).
Proof.
  intros Hcon Hnew Hrun Hinit Hpool Hp Hacc Hfree.
  assert (Hc : 0 <= count) by (destruct Hcon as (_ & Hc & _); lia).
  assert (Hm : 0 <= mem < 2 ^ SIZE_WIDTH).
  { destruct Hcon as (Hb & Hc' & Hs & _ & Hm & He).
    pose proof (raw_block_size_bounds true payload_size Hb Hs).
    pose proof (sizeof_Block_pos true). pose proof (tail_size_range true). nia. }
  pose proof (new_stamped payload_size count this mem h0 Hc Hm) as H0.
  rewrite Hnew in H0. cbn [fst snd] in H0.
  pose proof (client_states_stamped _ _ _ _ _ H0 Hrun) as Hst.
  destruct (Hst pool Hpool Hinit) as (Hb & Hcnt & Hmem & Hstamp).
  destruct (accepted_is_slot true pool p Hb Hcnt Hmem Hacc) as (j & Hj & Eblock).
  pose proof (Hstamp j Hj) as Hid. rewrite <- Eblock in Hid.
  unfold header_accepted in Hacc. cbv zeta in Hacc.
  apply andb_true_iff in Hacc. destruct Hacc as (Hrange & Hmod).
  apply negb_true_iff in Hrange.
  assert (Hbs : (MemoryPool.block_size pool =? 0) = false).
  { apply Z.eqb_neq. intros Hz. rewrite Hz, Z.mul_0_l in Hrange.
    change (wrap 0) with 0 in Hrange. rewrite Z.add_0_r in Hrange.
    rewrite (wrap_small _ Hmem) in Hrange.
    apply orb_false_iff in Hrange. destruct Hrange as (H1 & H2).
    apply Z.ltb_ge in H1. rewrite Z.geb_leb in H2. apply Z.leb_gt in H2. lia. }
  apply Z.eqb_neq in Hp. unfold Allocator.is_initialized in Hinit.
  unfold Allocator.free. rewrite Hp, Hinit, Hpool. cbn [negb]. cbv zeta.
  rewrite Hrange, Hbs, Hmod. cbn [negb].
  rewrite Hid, Z.eqb_refl, Hfree. reflexivity.
Qed.

(** The test scenario [DoubleFreeCausesAbort]. *)
Lemma double_free_aborts_witness :
  let s := Allocator.new true 128 2 0 4096 zero_heap in
  let r := Allocator.allocate true (fst s) (snd s) in
  let f := Allocator.free true 4280 (snd (fst r)) (snd r) in
  Allocator.free true 4280 (snd (fst f)) (snd f)
  = (Aborted msg_double_free, snd (fst f), snd f).
Proof.
  intros s r f.
  apply (double_free_aborts 128 2 0 4096 zero_heap (fst s) (snd s)
           (snd (fst f)) (snd f) (MemoryPool.mk 4096 4256 160 2 128) 4280).
  - repeat split; vm_compute; reflexivity.
  - apply surjective_pairing.
  - apply (cs_free true (fst s) (snd s) (snd (fst r)) (snd r) 4280).
    + apply (cs_allocate true (fst s) (snd s) (fst s) (snd s) 4280).
      * apply cs_start.
      * apply result_eta. vm_compute. reflexivity.
    + apply result_eta. vm_compute. reflexivity.
  - vm_compute. reflexivity.
  - vm_compute. reflexivity.
  - discriminate.
  - vm_compute. reflexivity.
  - vm_compute. reflexivity.
Defined.

(** C8.  With the four fixed size classes of 100 blocks, each buffer
    inside the address space and the first buffer apart from the others:
    [allocate(50)] returns a block of the 64-byte pool, [allocate(500)] a
    block of the 512-byte pool, and [allocate(600)] returns null. *)
Theorem slab_dispatch_scenario
        (debug : bool) (this0 mem0 this1 mem1 this2 mem2 this3 mem3 : Z)
        (h0 : Heap) (s : SlabAllocator.t) (h : Heap) :
  constructible debug 64 100 mem0 ->
  constructible debug 128 100 mem1 ->
  constructible debug 256 100 mem2 ->
  constructible debug 512 100 mem3 ->
  separate debug 64 mem0 128 mem1 ->
  separate debug 64 mem0 256 mem2 ->
  separate debug 64 mem0 512 mem3 ->
  SlabAllocator.new debug (this0, mem0) (this1, mem1) (this2, mem2) (this3, mem3) h0
  = (s, h) ->
  dispatch_scenario debug s h.
Proof.
  intros C0 C1 C2 C3 S1 S2 S3 Hnew.
  destruct (new_ready_outside debug 64 100 this0 mem0 h0 C0)
    as (fl0 & g0 & E0 & I0 & _).
  destruct (new_ready_outside debug 128 100 this1 mem1 g0 C1)
    as (fl1 & g1 & E1 & _ & F1).
  destruct (new_ready_outside debug 256 100 this2 mem2 g1 C2)
    as (fl2 & g2 & E2 & _ & F2).
  destruct (new_ready_outside debug 512 100 this3 mem3 g2 C3)
    as (fl3 & g3 & E3 & I3 & F3).
  cbv zeta in *.
  unfold SlabAllocator.new in Hnew. cbn [fst snd] in Hnew.
  rewrite E0, E1, E2, E3 in Hnew. inversion Hnew; subst s h; clear Hnew.
  pose proof (slab_strides debug) as (St0 & St1 & St2 & St3).
  set (p0 := fresh_pool debug 64 100 mem0 fl0) in *.
  set (p3 := fresh_pool debug 512 100 mem3 fl3) in *.
  set (a0 := Allocator.mk true (Some p0) _) in *.
  set (a1 := Allocator.mk true (Some (fresh_pool debug 128 100 mem1 fl1)) _) in *.
  set (a2 := Allocator.mk true (Some (fresh_pool debug 256 100 mem2 fl2)) _) in *.
  set (a3 := Allocator.mk true (Some p3) _) in *.
  assert (I0' : pool_inv debug a0 g3 (rev (slots p0)) []).
  { eapply pool_inv_frame; [exact I0|]. intros pool b Hp Hb.
    inversion Hp; subst pool; clear Hp.
    pose proof (slot_in_buffer debug p0 b
                  (constructible_geometry debug 64 100 mem0 fl0 C0) Hb) as Hin.
    cbn [p0 fresh_pool MemoryPool.memory MemoryPool.block_size
         MemoryPool.block_count] in *.
    unfold separate, sizeof_uint32 in *.
    destruct (F3 b ltac:(lia)) as (-> & _).
    destruct (F2 b ltac:(lia)) as (-> & _).
    destruct (F1 b ltac:(lia)) as (-> & _).
    destruct (F3 (b + Allocator.raw_block_size debug 64 - 4) ltac:(lia)) as (_ & ->).
    destruct (F2 (b + Allocator.raw_block_size debug 64 - 4) ltac:(lia)) as (_ & ->).
    destruct (F1 (b + Allocator.raw_block_size debug 64 - 4) ltac:(lia)) as (_ & ->).
    split; reflexivity. }
  exists a0, a1, a2, a3. split; [reflexivity|]. split; [|split].
  - destruct (fresh_pool_serves debug a0 g3 p0 eq_refl I0')
      as (p & a0' & h' & E & Hnz & Hserved).
    exists p, a0', h'. split; [|split; [exact Hnz|exact Hserved]].
    unfold SlabAllocator.allocate.
    cbn [SlabAllocator.m_Slabs SlabAllocator.allocate_in Allocator.block_size
         Allocator.m_MemoryPool a0 p0 fresh_pool MemoryPool.block_size].
    replace (50 <=? Allocator.raw_block_size debug 64) with true
      by (symmetry; apply Z.leb_le; lia).
    fold p0. fold a0. rewrite E. reflexivity.
  - destruct (fresh_pool_serves debug a3 g3 p3 eq_refl I3)
      as (p & a3' & h' & E & Hnz & Hserved).
    exists p, a3', h'. split; [|split; [exact Hnz|exact Hserved]].
    unfold SlabAllocator.allocate.
    cbn [SlabAllocator.m_Slabs SlabAllocator.allocate_in Allocator.block_size
         Allocator.m_MemoryPool a0 a1 a2 a3 p0 p3 fresh_pool MemoryPool.block_size].
    replace (500 <=? Allocator.raw_block_size debug 64) with false
      by (symmetry; apply Z.leb_gt; lia).
    replace (500 <=? Allocator.raw_block_size debug 128) with false
      by (symmetry; apply Z.leb_gt; lia).
    replace (500 <=? Allocator.raw_block_size debug 256) with false
      by (symmetry; apply Z.leb_gt; lia).
    replace (500 <=? Allocator.raw_block_size debug 512) with true
      by (symmetry; apply Z.leb_le; lia).
    fold p3. fold a3. rewrite E. reflexivity.
  - unfold SlabAllocator.allocate. cbn [SlabAllocator.m_Slabs].
    rewrite allocate_in_none; [reflexivity|].
    intros a [<-|[<-|[<-|[<-|[]]]]]; eexists; (split; [reflexivity|]);
      cbn [p0 p3 fresh_pool MemoryPool.block_size]; lia.
Qed.

Lemma slab_dispatch_scenario_witness :
  dispatch_scenario true (fst (fresh_slab true)) (snd (fresh_slab true)).
Proof.
  apply (slab_dispatch_scenario true 0 65536 0 131072 0 196608 0 262144 zero_heap).
  - repeat split; vm_compute; reflexivity.
  - repeat split; vm_compute; reflexivity.
  - repeat split; vm_compute; reflexivity.
  - repeat split; vm_compute; reflexivity.
  - left. vm_compute. discriminate.
  - left. vm_compute. discriminate.
  - left. vm_compute. discriminate.
  - apply surjective_pairing.
Defined.



(** C10 (the code departs from the claim).  In a release build the largest
    class leaves 512 usable bytes, yet [free(ptr, 515)] is forwarded to the
    last pool: on the block [allocate(515)] returned it pushes that block
    back, changing the pool's free list, and on the foreign pointer [1] it
    aborts.  Only beyond the stride, here at 600, does the call fall
    through. *)
Theorem slab_free_forwards_within_stride :
  let s := fst (fresh_slab false) in
  let h := snd (fresh_slab false) in
  let r := SlabAllocator.allocate false 515 s h in
  let f := SlabAllocator.free false 313632 515 (snd (fst r)) (snd r) in
  usable_capacities false s = [Some 64; Some 128; Some 256; Some 512] /\
  fst (fst r) = Returned 313632 /\
  free_lists (snd (fst r)) = [Some 72664; Some 144536; Some 222744; Some 313104] /\
  fst (fst f) = Returned tt /\
  free_lists (snd (fst f)) = [Some 72664; Some 144536; Some 222744; Some 313624] /\
  fst (fst (SlabAllocator.free false 1 515 s h)) = Aborted msg_not_from_pool /\
  SlabAllocator.free false 1 600 s h = (Returned tt, s, h).
Proof.
  cbv zeta.
  split; [vm_compute; reflexivity|]. split; [vm_compute; reflexivity|].
  split; [vm_compute; reflexivity|]. split; [vm_compute; reflexivity|].
  split; [vm_compute; reflexivity|]. split; [vm_compute; reflexivity|].
  apply slab_free_beyond_stride_is_noop.
  intros a Ha. vm_compute in Ha.
  destruct Ha as [<-|[<-|[<-|[<-|[]]]]]; eexists; (split; [reflexivity|]);
    reflexivity.
Qed.

(** * Further properties *)

(** ** Rounding and construction *)

(** X1.  When [size + alignment - 1] does not wrap, [align_up(size)] is the
    least multiple of the alignment that is not below [size], less than one
    alignment above it, and rounding it again changes nothing. *)
Theorem align_up_least_multiple (size : Z) :
  0 <= size ->
  size + (alignof_Block - 1) < 2 ^ SIZE_WIDTH ->
  Allocator.align_up size mod alignof_Block = 0 /\
  size <= Allocator.align_up size < size + alignof_Block /\
  (forall m, m mod alignof_Block = 0 -> size <= m -> Allocator.align_up size <= m) /\
  Allocator.align_up (Allocator.align_up size) = Allocator.align_up size.
Proof.
  unfold alignof_Block. intros H0 H1.
  pose proof (align_up_bounds size H0 ltac:(lia)) as Hb.
  pose proof (align_up_mod size) as Hm. unfold alignof_Block in Hm.
  split; [exact Hm|]. split; [lia|]. split.
  - intros m Hmm Hle. rewrite align_up_exact by lia.
    apply Z.mod_divide in Hmm; [|lia]. destruct Hmm as (k & ->).
    assert ((size + 7) / 8 < k + 1); [|lia].
    apply Z.div_lt_upper_bound; lia.
  - set (r := Allocator.align_up size) in *.
    assert (Hr : r + 7 < 2 ^ SIZE_WIDTH).
    { apply Z.mod_divide in Hm; [|lia]. destruct Hm as (k & Hk).
      change (2 ^ SIZE_WIDTH) with (2305843009213693952 * 8) in *. lia. }
    rewrite align_up_exact by lia.
    apply Z.mod_divide in Hm; [|lia]. destruct Hm as (k & ->).
    replace (k * 8 + 7) with (7 + k * 8) by lia.
    rewrite Z.div_add by lia. change (7 / 8) with 0. lia.
Qed.

Lemma align_up_least_multiple_witness :
  Allocator.align_up 92 mod alignof_Block = 0 /\
  92 <= Allocator.align_up 92 < 92 + alignof_Block /\
  (forall m, m mod alignof_Block = 0 -> 92 <= m -> Allocator.align_up 92 <= m) /\
  Allocator.align_up (Allocator.align_up 92) = Allocator.align_up 92.
Proof.
  apply (align_up_least_multiple 92); [discriminate|reflexivity].
Defined.

(** X2.  In the last [alignment - 1] values of [size_t] the sum
    [size + alignment - 1] wraps and [align_up] returns [0]. *)
Theorem align_up_wraps_to_zero (size : Z) :
  2 ^ SIZE_WIDTH - alignof_Block < size < 2 ^ SIZE_WIDTH ->
  Allocator.align_up size = 0.
Proof.
  unfold alignof_Block. intros H. unfold Allocator.align_up, alignof_Block.
  assert (Hbig : 8 < 2 ^ SIZE_WIDTH) by reflexivity.
  assert (Hw : wrap (size + 8 - 1) = size + 7 - 2 ^ SIZE_WIDTH).
  { unfold wrap.
    replace (size + 8 - 1) with (size + 7 - 2 ^ SIZE_WIDTH + 1 * 2 ^ SIZE_WIDTH) by lia.
    rewrite Z.mod_add by (compute; discriminate). apply Z.mod_small. lia. }
  rewrite Hw, land_round_down by lia.
  rewrite Z.div_small by lia. reflexivity.
Qed.

Lemma align_up_wraps_to_zero_witness :
  Allocator.align_up (2 ^ 64 - 3) = 0.
Proof.
  apply (align_up_wraps_to_zero (2 ^ 64 - 3)). split; reflexivity.
Defined.

(** X3.  For arguments whose size computations do not wrap around, the
    constructor marks the pool initialized exactly when both arguments are
    non-zero and [std::malloc] returned a buffer, and that is exactly when
    the first [allocate()] on the new pool returns a block. *)
Theorem new_ready_iff
        (debug : bool) (block_size block_count this mem : Z) (h0 : Heap) :
  no_wrap_around debug block_size block_count mem ->
  let s := Allocator.new debug block_size block_count this mem h0 in
  (Allocator.is_initialized (fst s) = true
   <-> block_size <> 0 /\ block_count <> 0 /\ mem <> 0) /\
  (Allocator.is_initialized (fst s) = true
   <-> exists p, p <> 0 /\
                 fst (fst (Allocator.allocate debug (fst s) (snd s))) = Returned p).
Proof.
  intros (_ & _ & _ & Hcon) s.
  assert (Hiff : Allocator.is_initialized (fst s) = true
                 <-> block_size <> 0 /\ block_count <> 0 /\ mem <> 0).
  { subst s. unfold Allocator.new.
    destruct (block_size =? 0) eqn:Eb;
      [apply Z.eqb_eq in Eb|apply Z.eqb_neq in Eb]; cbn [orb].
    { cbn. split; [discriminate|tauto]. }
    destruct (block_count =? 0) eqn:Ec;
      [apply Z.eqb_eq in Ec|apply Z.eqb_neq in Ec].
    { cbn. split; [discriminate|tauto]. }
    destruct (mem =? 0) eqn:Em; [apply Z.eqb_eq in Em|apply Z.eqb_neq in Em].
    { cbn. split; [discriminate|tauto]. }
    destruct (Allocator.init_blocks _ _ _ _ _ _ _ _) as (fl & h). cbn. tauto. }
  split; [exact Hiff|]. split.
  - intros Hinit. apply Hiff in Hinit. destruct Hinit as (Hb & Hc & Hm).
    specialize (Hcon Hb Hc Hm).
    destruct (new_ready debug block_size block_count this mem h0 Hcon)
      as (fl & h & E & Hinv & _).
    cbv zeta in E, Hinv. subst s. rewrite E. cbn [fst snd].
    match type of Hinv with
    | pool_inv _ ?a _ _ _ =>
        destruct (fresh_pool_serves debug a h
                    (fresh_pool debug block_size block_count mem fl) eq_refl Hinv)
          as (p & a' & h' & Ea & Hp & _)
    end.
    exists p. split; [exact Hp|]. rewrite Ea. reflexivity.
  - intros (p & Hp & Ea).
    destruct (Allocator.is_initialized (fst s)) eqn:Hinit; [reflexivity|].
    exfalso. apply Hp.
    destruct (unready_allocate_free_noop debug (fst s) (snd s) Hinit) as (E0 & _).
    rewrite E0 in Ea. cbn [fst] in Ea. congruence.
Qed.

Lemma new_ready_iff_witness :
  let s := Allocator.new true 64 4 0 4096 zero_heap in
  (Allocator.is_initialized (fst s) = true <-> 64 <> 0 /\ 4 <> 0 /\ 4096 <> 0) /\
  (Allocator.is_initialized (fst s) = true
   <-> exists p, p <> 0 /\
                 fst (fst (Allocator.allocate true (fst s) (snd s))) = Returned p).
Proof.
  apply (new_ready_iff true 64 4 0 4096 zero_heap).
  split; [discriminate|]. split; [discriminate|]. split; [discriminate|].
  intros _ _ _. repeat split; vm_compute; reflexivity.
Defined.

(** X4.  When [std::malloc] fails the construction is soft: no memory is
    written, the object is unready but keeps its pool record, so
    [block_size()] returns the stride, [allocate()] returns null and
    [free] does nothing. *)
Theorem failed_malloc_is_soft
        (debug : bool) (block_size block_count this ptr : Z) (h0 : Heap) :
  block_size <> 0 -> block_count <> 0 ->
  let a := fst (Allocator.new debug block_size block_count this 0 h0) in
  snd (Allocator.new debug block_size block_count this 0 h0) = h0 /\
  Allocator.is_initialized a = false /\
  Allocator.block_size a = Returned (Allocator.raw_block_size debug block_size) /\
  Allocator.allocate debug a h0 = (Returned 0, a, h0) /\
  Allocator.free debug ptr a h0 = (Returned tt, a, h0) /\
  Allocator.destroy a = (a, None).
Proof.
  intros Hb Hc. cbv zeta. unfold Allocator.new.
  apply Z.eqb_neq in Hb. apply Z.eqb_neq in Hc. rewrite Hb, Hc.
  cbn [orb Z.eqb fst snd].
  split; [reflexivity|]. split; [reflexivity|]. split; [reflexivity|].
  split; [apply unready_allocate_free_noop; reflexivity|].
  split; [apply unready_allocate_free_noop; reflexivity|reflexivity].
Qed.

Lemma failed_malloc_is_soft_witness :
  let a := fst (Allocator.new true 128 10 0 0 zero_heap) in
  snd (Allocator.new true 128 10 0 0 zero_heap) = zero_heap /\
  Allocator.is_initialized a = false /\
  Allocator.block_size a = Returned (Allocator.raw_block_size true 128) /\
  Allocator.allocate true a zero_heap = (Returned 0, a, zero_heap) /\
  Allocator.free true 4096 a zero_heap = (Returned tt, a, zero_heap) /\
  Allocator.destroy a = (a, None).
Proof.
  apply (failed_malloc_is_soft true 128 10 0 4096 zero_heap); discriminate.
Defined.

(** X5.  A construction whose sizes do not wrap writes only inside the
    buffer it obtained: every header and every word at an address outside
    [[mem, mem + stride * count)] is left as it was. *)
Theorem construction_stays_in_buffer
        (debug : bool) (block_size block_count this mem : Z) (h0 : Heap)
        (a : Allocator.t) (h : Heap) (q : Z) :
  constructible debug block_size block_count mem ->
  Allocator.new debug block_size block_count this mem h0 = (a, h) ->
  ~ (mem <= q < mem + Allocator.raw_block_size debug block_size * block_count) ->
  blocks h q = blocks h0 q /\ words h q = words h0 q.
Proof.
  intros Hcon Hnew Hq.
  destruct (new_ready_outside debug block_size block_count this mem h0 Hcon)
    as (fl & h1 & E & _ & Hout).
  cbv zeta in E. rewrite E in Hnew. inversion Hnew; subst. apply Hout, Hq.
Qed.

Lemma construction_stays_in_buffer_witness :
  blocks (snd (Allocator.new true 64 4 0 4096 zero_heap)) 4480 = blocks zero_heap 4480 /\
  words (snd (Allocator.new true 64 4 0 4096 zero_heap)) 4480 = words zero_heap 4480.
Proof.
  apply (construction_stays_in_buffer true 64 4 0 4096 zero_heap
           (fst (Allocator.new true 64 4 0 4096 zero_heap))).
  - repeat split; vm_compute; reflexivity.
  - apply surjective_pairing.
  - vm_compute. intros (_ & H). discriminate H.
Defined.

(** ** The pool under valid use *)

Lemma pool_inv_count (debug : bool) (a : Allocator.t) (h : Heap)
      (fl live : list Z) :
  pool_inv debug a h fl live ->
  exists pool,
    Allocator.m_MemoryPool a = Some pool /\
    (List.length fl + List.length live)%nat
    = Z.to_nat (MemoryPool.block_count pool).
Proof.
  intros (_ & pool & Hpool & _ & _ & Hperm & _). exists pool.
  split; [exact Hpool|]. apply Permutation_length in Hperm.
  rewrite length_app, length_map in Hperm. rewrite Hperm. apply slots_length.
Qed.

(** The pop of [allocate], with the state it leaves written out. *)
Lemma allocate_pops (debug : bool) (a : Allocator.t) (pool : MemoryPool.t)
      (h : Heap) (b : Z) :
  Allocator.m_Initialized a = true ->
  Allocator.m_MemoryPool a = Some pool ->
  MemoryPool.free_list pool = b -> b <> 0 ->
  (debug = true -> is_free (blocks h b) = true) ->
  Allocator.allocate debug a h
  = (Returned (wrap (b + sizeof_Block debug)),
     Allocator.set_pool a (MemoryPool.set_free_list pool (next (blocks h b))),
     if debug then
       store_word
         (store_block h b
            (set_canary_front (set_is_free (blocks h b) false) CANARY_VALUE))
         (Allocator.rear b (MemoryPool.block_size pool)) CANARY_VALUE
     else h).
Proof.
  intros Hinit Hpool Hfl Hnz Hfree. apply Z.eqb_neq in Hnz.
  unfold Allocator.allocate. rewrite Hinit, Hpool, Hfl, Hnz. cbn [negb].
  destruct debug; [rewrite (Hfree eq_refl)|]; reflexivity.
Qed.

(** The push of [free], with the state it leaves written out. *)
Lemma free_pushes (debug : bool) (a : Allocator.t) (pool : MemoryPool.t)
      (h : Heap) (p b : Z) :
  Allocator.m_Initialized a = true ->
  Allocator.m_MemoryPool a = Some pool ->
  geometry debug pool ->
  b = block_of debug p ->
  In b (slots pool) ->
  (debug = true ->
   pool_id (blocks h b) = Allocator.m_PoolId a /\
   is_free (blocks h b) = false /\
   canary_front (blocks h b) = CANARY_VALUE /\
   words h (Allocator.rear b (MemoryPool.block_size pool)) = CANARY_VALUE) ->
  Allocator.free debug p a h
  = (Returned tt,
     Allocator.set_pool a (MemoryPool.set_free_list pool b),
     store_block (if debug then store_block h b (set_is_free (blocks h b) true) else h)
       b (set_next
            (blocks (if debug then store_block h b (set_is_free (blocks h b) true)
                     else h) b)
            (MemoryPool.free_list pool))).
Proof.
  intros Hinit Hpool Hgeo -> Hin Hdbg.
  destruct (block_ptr_no_wrap debug pool Hgeo p Hin) as (Hw & Hp & _).
  pose proof (slot_passes_checks debug pool Hgeo _ Hin) as (Hrange & Hbs & Hmod).
  cbv zeta in Hrange, Hbs, Hmod. apply Z.eqb_neq in Hp.
  unfold Allocator.free. rewrite Hp, Hinit, Hpool. cbn [negb]. cbv zeta.
  rewrite Hw, Hrange, Hbs, Hmod. cbn [negb].
  destruct debug; [|reflexivity].
  destruct (Hdbg eq_refl) as (Hid & Hfree & Hcf & Hcr).
  rewrite Hid, Z.eqb_refl, Hfree, Hcf, Hcr, Z.eqb_refl. reflexivity.
Qed.

(** X6.  Under valid use [allocate()] returns null exactly when all [count]
    blocks are in use, and never more than [count] are in use. *)
Theorem exhausted_iff_all_in_use
        (debug : bool) (a : Allocator.t) (h : Heap) (live : list Z) :
  reachable debug a h live ->
  exists pool,
    Allocator.m_MemoryPool a = Some pool /\
    (List.length live <= Z.to_nat (MemoryPool.block_count pool))%nat /\
    (fst (fst (Allocator.allocate debug a h)) = Returned 0
     <-> List.length live = Z.to_nat (MemoryPool.block_count pool)).
Proof.
  intros Hreach. destruct (reachable_inv _ _ _ _ Hreach) as (fl & Hinv).
  destruct (pool_inv_count _ _ _ _ _ Hinv) as (pool & Hpool & Hlen).
  exists pool. split; [exact Hpool|]. split; [lia|].
  destruct fl as [|b fl].
  - rewrite (allocate_empty _ _ _ _ Hinv). cbn in *. split; [lia|reflexivity].
  - destruct (allocate_pop _ _ _ _ _ _ Hinv) as (a' & h' & E & Hnz & _).
    rewrite E. cbn in *. split; [intros H; inversion H; congruence|lia].
Qed.

Lemma exhausted_iff_all_in_use_witness :
  let s := Allocator.new false 128 1 0 4096 zero_heap in
  let r := Allocator.allocate false (fst s) (snd s) in
  exists pool,
    Allocator.m_MemoryPool (snd (fst r)) = Some pool /\
    (List.length [4104] <= Z.to_nat (MemoryPool.block_count pool))%nat /\
    (fst (fst (Allocator.allocate false (snd (fst r)) (snd r))) = Returned 0
     <-> List.length [4104] = Z.to_nat (MemoryPool.block_count pool)).
Proof.
  intros s r.
  apply (exhausted_iff_all_in_use false (snd (fst r)) (snd r) [4104]).
  apply (reach_allocate false (fst s) (snd s) [] 4104 (snd (fst r)) (snd r)).
  - apply (reach_new false 128 1 0 4096 zero_heap).
    + repeat split; vm_compute; reflexivity.
    + apply surjective_pairing.
  - apply result_eta. vm_compute. reflexivity.
  - discriminate.
Defined.

(** X7.  Under valid use, freeing the pointer [allocate()] just returned
    puts the pool object back exactly as it was before the call, and every
    header has the link, the liveness flag and the owner id it had: the
    free list is the same list again. *)
Theorem allocate_then_free_restores
        (debug : bool) (a : Allocator.t) (h : Heap) (live : list Z)
        (p : Z) (a1 : Allocator.t) (h1 : Heap) :
  reachable debug a h live ->
  Allocator.allocate debug a h = (Returned p, a1, h1) ->
  p <> 0 ->
  exists h2,
    Allocator.free debug p a1 h1 = (Returned tt, a, h2) /\
    forall q, next (blocks h2 q) = next (blocks h q) /\
              is_free (blocks h2 q) = is_free (blocks h q) /\
              pool_id (blocks h2 q) = pool_id (blocks h q).
Proof.
  intros Hreach Halloc Hp. destruct (reachable_inv _ _ _ _ Hreach) as (fl & Hinv).
  destruct fl as [|b fl].
  { rewrite (allocate_empty _ _ _ _ Hinv) in Halloc. inversion Halloc. congruence. }
  destruct Hinv as (Hinit & pool & Hpool & Hgeo & Hchain & Hperm & Hdbg).
  destruct Hchain as (Hfl & Hnz & _).
  assert (Hin : In b (slots pool)).
  { eapply Permutation_in; [exact Hperm|]. left. reflexivity. }
  assert (Hfree : debug = true -> is_free (blocks h b) = true).
  { intros Hd. apply (Hdbg Hd b Hin). left. reflexivity. }
  destruct (payload_no_wrap debug pool Hgeo b Hin) as (Hw & _).
  rewrite (allocate_pops debug a pool h b Hinit Hpool Hfl Hnz Hfree) in Halloc.
  rewrite Hw in Halloc. inversion Halloc; subst p a1 h1; clear Halloc.
  set (pool1 := MemoryPool.set_free_list pool (next (blocks h b))).
  assert (Hb : b = block_of debug (payload_of debug b))
    by (unfold block_of, payload_of; lia).
  assert (Hdbg1 :
            debug = true ->
            let h1 := if debug
                      then store_word
                             (store_block h b
                                (set_canary_front (set_is_free (blocks h b) false)
                                                  CANARY_VALUE))
                             (Allocator.rear b (MemoryPool.block_size pool))
                             CANARY_VALUE
                      else h in
            pool_id (blocks h1 b) = Allocator.m_PoolId (Allocator.set_pool a pool1) /\
            is_free (blocks h1 b) = false /\
            canary_front (blocks h1 b) = CANARY_VALUE /\
            words h1 (Allocator.rear b (MemoryPool.block_size pool1)) = CANARY_VALUE).
  { intros ->. cbv zeta.
    cbn [Allocator.set_pool Allocator.m_PoolId pool1
         MemoryPool.set_free_list MemoryPool.block_size].
    rewrite store_word_same. cbn [blocks store_word].
    rewrite store_block_same. cbn.
    split; [apply (Hdbg eq_refl b Hin)|auto]. }
  cbv zeta in Hdbg1.
  rewrite (free_pushes debug (Allocator.set_pool a pool1) pool1 _
             (payload_of debug b) b Hinit eq_refl Hgeo Hb Hin Hdbg1).
  eexists. split.
  - f_equal. f_equal. destruct a as [i mp id]. cbn in *. subst mp.
    destruct pool. cbn in *. subst. reflexivity.
  - intros q. cbn [pool1 MemoryPool.set_free_list MemoryPool.free_list].
    destruct (Z.eq_dec q b) as [->|Hne].
    + rewrite store_block_same. destruct debug.
      * rewrite store_block_same. cbn. rewrite Z.eqb_refl. cbn.
        rewrite (Hfree eq_refl). auto.
      * cbn. auto.
    + rewrite store_block_other by exact Hne. destruct debug.
      * rewrite store_block_other by exact Hne. cbn [blocks store_word].
        rewrite store_block_other by exact Hne. auto.
      * auto.
Qed.

Lemma allocate_then_free_restores_witness :
  let s := Allocator.new true 128 2 0 4096 zero_heap in
  let r := Allocator.allocate true (fst s) (snd s) in
  exists h2,
    Allocator.free true 4280 (snd (fst r)) (snd r) = (Returned tt, fst s, h2) /\
    forall q, next (blocks h2 q) = next (blocks (snd s) q) /\
              is_free (blocks h2 q) = is_free (blocks (snd s) q) /\
              pool_id (blocks h2 q) = pool_id (blocks (snd s) q).
Proof.
  intros s r.
  apply (allocate_then_free_restores true (fst s) (snd s) [] 4280 (snd (fst r)) (snd r)).
  - apply (reach_new true 128 2 0 4096 zero_heap).
    + repeat split; vm_compute; reflexivity.
    + apply surjective_pairing.
  - apply result_eta. vm_compute. reflexivity.
  - discriminate.
Defined.

(** A block linked to itself is handed out by every [allocate()] of a
    release build, and the pool does not change. *)
Lemma self_linked_head_repeats (a : Allocator.t) (pool : MemoryPool.t)
      (h : Heap) (b : Z) :
  Allocator.m_Initialized a = true ->
  Allocator.m_MemoryPool a = Some pool ->
  MemoryPool.free_list pool = b -> b <> 0 ->
  next (blocks h b) = b ->
  forall n, Allocator.allocate_n false n a h
            = (repeat (Returned (wrap (b + sizeof_Block false))) n, a, h).
Proof.
  intros Hinit Hpool Hfl Hnz Hself.
  assert (E : Allocator.allocate false a h
              = (Returned (wrap (b + sizeof_Block false)), a, h)).
  { rewrite (allocate_pops false a pool h b Hinit Hpool Hfl Hnz ltac:(discriminate)).
    rewrite Hself. f_equal. f_equal.
    destruct a as [i mp id]. cbn in *. subst mp.
    destruct pool. cbn in *. subst. reflexivity. }
  induction n as [|n IH]; [reflexivity|].
  cbn [Allocator.allocate_n repeat]. rewrite E, IH. reflexivity.
Qed.

(** X8.  A release build does not notice a double free: under valid use,
    [free(p)] on a pointer in use succeeds twice in a row, the second call
    links the block to itself, and from then on every [allocate()] returns
    [p], so the pool hands the same block to every caller. *)
Theorem release_double_free_aliases
        (a : Allocator.t) (h : Heap) (live : list Z) (p : Z) :
  reachable false a h live ->
  In p live ->
  exists a1 h1 a2 h2,
    Allocator.free false p a h = (Returned tt, a1, h1) /\
    Allocator.free false p a1 h1 = (Returned tt, a2, h2) /\
    forall n, Allocator.allocate_n false n a2 h2
              = (repeat (Returned p) n, a2, h2).
Proof.
  intros Hreach Hin. destruct (reachable_inv _ _ _ _ Hreach) as (fl & Hinv).
  apply in_split in Hin. destruct Hin as (l1 & l2 & ->).
  destruct (free_push _ _ _ _ _ _ _ Hinv) as (a1 & h1 & E1 & Hinv1).
  destruct Hinv1 as (Hinit & pool & Hpool & Hgeo & Hchain & Hperm & _).
  set (b := block_of false p) in *.
  destruct Hchain as (Hfl & Hnz & _).
  assert (Hin : In b (slots pool)).
  { eapply Permutation_in; [exact Hperm|]. left. reflexivity. }
  destruct (block_ptr_no_wrap false pool Hgeo p Hin) as (_ & _ & Hback).
  fold b in Hback.
  pose proof (free_pushes false a1 pool h1 p b Hinit Hpool Hgeo eq_refl Hin
                ltac:(discriminate)) as E2.
  cbv iota in E2. rewrite Hfl in E2.
  exists a1, h1. eexists. eexists. split; [exact E1|]. split; [exact E2|].
  destruct (payload_no_wrap false pool Hgeo b Hin) as (Hw & _).
  rewrite Hback in Hw. rewrite <- Hw.
  apply (self_linked_head_repeats _ (MemoryPool.set_free_list pool b));
    [exact Hinit|reflexivity|reflexivity|exact Hnz|].
  rewrite store_block_same. reflexivity.
Qed.

Lemma release_double_free_aliases_witness :
  let s := Allocator.new false 128 2 0 4096 zero_heap in
  let r := Allocator.allocate false (fst s) (snd s) in
  exists a1 h1 a2 h2,
    Allocator.free false 4240 (snd (fst r)) (snd r) = (Returned tt, a1, h1) /\
    Allocator.free false 4240 a1 h1 = (Returned tt, a2, h2) /\
    forall n, Allocator.allocate_n false n a2 h2
              = (repeat (Returned 4240) n, a2, h2).
Proof.
  intros s r.
  apply (release_double_free_aliases (snd (fst r)) (snd r) [4240] 4240).
  - apply (reach_allocate false (fst s) (snd s) [] 4240 (snd (fst r)) (snd r)).
    + apply (reach_new false 128 2 0 4096 zero_heap).
      * repeat split; vm_compute; reflexivity.
      * apply surjective_pairing.
    + apply result_eta. vm_compute. reflexivity.
    + discriminate.
  - left. reflexivity.
Defined.

(** Freeing some of the pointers in use, in any order. *)
Lemma free_each_push (debug : bool) (ps : list Z) : forall a h fl live,
  pool_inv debug a h fl live ->
  NoDup ps -> incl ps live ->
  exists a' h' live',
    Allocator.free_each debug ps a h = (Returned tt, a', h') /\
    pool_inv debug a' h' (rev (map (block_of debug) ps) ++ fl) live' /\
    (List.length live' + List.length ps = List.length live)%nat.
Proof.
  induction ps as [|p ps IH]; intros a h fl live Hinv Hnd Hincl.
  - exists a, h, live. cbn. split; [reflexivity|]. split; [exact Hinv|lia].
  - inversion Hnd as [|? ? Hnotin Hnd']; subst.
    assert (Hin : In p live) by (apply Hincl; left; reflexivity).
    apply in_split in Hin. destruct Hin as (l1 & l2 & ->).
    destruct (free_push _ _ _ _ _ _ _ Hinv) as (a1 & h1 & E & Hinv1).
    destruct (IH a1 h1 (block_of debug p :: fl) (l1 ++ l2) Hinv1 Hnd')
      as (a' & h' & live' & E' & Hinv' & Hlen).
    { intros x Hx. assert (Hxl : In x (l1 ++ p :: l2)) by (apply Hincl; right; exact Hx).
      apply in_app_or in Hxl. apply in_or_app.
      destruct Hxl as [Hxl|[->|Hxl]]; [left; exact Hxl|contradiction|right; exact Hxl]. }
    exists a', h', live'. cbn [Allocator.free_each]. rewrite E.
    split; [exact E'|]. split.
    + cbn [map rev]. rewrite <- app_assoc. exact Hinv'.
    + rewrite !length_app in *. cbn [List.length] in *. lia.
Qed.

(** Popping a known prefix of the free list. *)
Lemma allocate_n_prefix (debug : bool) (l : list Z) : forall a h fl live,
  pool_inv debug a h (l ++ fl) live ->
  exists a' h',
    Allocator.allocate_n debug (List.length l) a h
    = (map Returned (map (payload_of debug) l), a', h') /\
    pool_inv debug a' h' fl (rev (map (payload_of debug) l) ++ live).
Proof.
  induction l as [|b l IH]; intros a h fl live Hinv.
  - exists a, h. split; [reflexivity|exact Hinv].
  - cbn [app] in Hinv.
    destruct (allocate_pop _ _ _ _ _ _ Hinv) as (a1 & h1 & E & _ & Hinv1).
    destruct (IH _ _ _ _ Hinv1) as (a2 & h2 & E2 & Hinv2).
    exists a2, h2. split.
    + cbn [List.length Allocator.allocate_n]. rewrite E, E2. reflexivity.
    + cbn [map rev]. rewrite <- app_assoc. exact Hinv2.
Qed.

Lemma live_payloads (debug : bool) (a : Allocator.t) (h : Heap)
      (fl live : list Z) (ps : list Z) :
  pool_inv debug a h fl live -> incl ps live ->
  map (payload_of debug) (map (block_of debug) ps) = ps.
Proof.
  intros Hinv Hincl. rewrite map_map. rewrite <- (map_id ps) at 2.
  apply map_ext. intros p. unfold payload_of, block_of. lia.
Qed.

(** X9.  The free list is a stack: under valid use, after freeing distinct
    pointers in use in some order, the next allocations return exactly
    those pointers in the reverse order. *)
Theorem frees_come_back_in_reverse
        (debug : bool) (a : Allocator.t) (h : Heap) (live ps : list Z) :
  reachable debug a h live ->
  NoDup ps -> incl ps live ->
  exists a1 h1,
    Allocator.free_each debug ps a h = (Returned tt, a1, h1) /\
    fst (fst (Allocator.allocate_n debug (List.length ps) a1 h1))
    = map Returned (rev ps).
Proof.
  intros Hreach Hnd Hincl. destruct (reachable_inv _ _ _ _ Hreach) as (fl & Hinv).
  destruct (free_each_push debug ps a h fl live Hinv Hnd Hincl)
    as (a1 & h1 & live' & E & Hinv1 & _).
  exists a1, h1. split; [exact E|].
  destruct (allocate_n_prefix debug _ _ _ _ _ Hinv1) as (a2 & h2 & E2 & _).
  rewrite length_rev, length_map in E2. rewrite E2. cbn [fst].
  rewrite <- map_rev, (live_payloads debug a h fl live (rev ps) Hinv).
  - reflexivity.
  - intros x Hx. apply Hincl. apply in_rev. exact Hx.
Qed.

Lemma frees_come_back_in_reverse_witness :
  let s := Allocator.new true 64 4 0 4096 zero_heap in
  let r := Allocator.allocate_n true 3 (fst s) (snd s) in
  exists a1 h1,
    Allocator.free_each true [4312; 4408] (snd (fst r)) (snd r) = (Returned tt, a1, h1) /\
    fst (fst (Allocator.allocate_n true (List.length [4312; 4408]) a1 h1))
    = map Returned (rev [4312; 4408]).
Proof.
  intros s r.
  set (r1 := Allocator.allocate true (fst s) (snd s)).
  set (r2 := Allocator.allocate true (snd (fst r1)) (snd r1)).
  set (r3 := Allocator.allocate true (snd (fst r2)) (snd r2)).
  assert (Hr : r = ([Returned 4408; Returned 4312; Returned 4216],
                    snd (fst r3), snd r3)) by (vm_compute; reflexivity).
  rewrite Hr. cbn [fst snd].
  apply (frees_come_back_in_reverse true (snd (fst r3)) (snd r3)
           [4216; 4312; 4408] [4312; 4408]).
  - apply (reach_allocate true (snd (fst r2)) (snd r2) [4312; 4408] 4216).
    + apply (reach_allocate true (snd (fst r1)) (snd r1) [4408] 4312).
      * apply (reach_allocate true (fst s) (snd s) [] 4408).
        -- apply (reach_new true 64 4 0 4096 zero_heap).
           ++ repeat split; vm_compute; reflexivity.
           ++ apply surjective_pairing.
        -- apply result_eta. vm_compute. reflexivity.
        -- discriminate.
      * apply result_eta. vm_compute. reflexivity.
      * discriminate.
    + apply result_eta. vm_compute. reflexivity.
    + discriminate.
  - repeat constructor; cbn; intuition discriminate.
  - intros x [<-|[<-|[]]]; cbn; auto.
Defined.

(** X10.  Exhaustion is recoverable: under valid use, once every pointer in
    use has been freed, in any order, exactly [count] allocations succeed
    again and the next one returns null. *)
Theorem freeing_all_recovers_capacity
        (debug : bool) (a : Allocator.t) (h : Heap) (live ps : list Z) :
  reachable debug a h live ->
  Permutation ps live ->
  exists pool a1 h1,
    Allocator.m_MemoryPool a = Some pool /\
    Allocator.free_each debug ps a h = (Returned tt, a1, h1) /\
    exhausts_after debug (MemoryPool.block_count pool) a1 h1.
Proof.
  intros Hreach Hperm. destruct (reachable_inv _ _ _ _ Hreach) as (fl & Hinv).
  assert (Hnd : NoDup ps).
  { eapply Permutation_NoDup; [symmetry; exact Hperm|].
    pose proof (pool_inv_NoDup _ _ _ _ _ Hinv) as H.
    apply NoDup_app_remove_l in H. eapply NoDup_map_inv. exact H. }
  assert (Hincl : incl ps live).
  { intros x Hx. eapply Permutation_in; eauto. }
  destruct (pool_inv_count _ _ _ _ _ Hinv) as (pool & Hpool & _).
  destruct (free_each_push debug ps a h fl live Hinv Hnd Hincl)
    as (a1 & h1 & live' & E & Hinv1 & Hlen).
  apply Permutation_length in Hperm.
  assert (live' = []) by (destruct live'; [reflexivity|cbn in Hlen; lia]).
  subst live'.
  exists pool, a1, h1. split; [exact Hpool|]. split; [exact E|].
  destruct (pool_inv_count _ _ _ _ _ Hinv1) as (pool1 & Hpool1 & Hcount).
  assert (Hcnt : MemoryPool.block_count pool1 = MemoryPool.block_count pool).
  { clear - E Hpool Hpool1. revert a h pool E Hpool.
    induction ps as [|p ps IH]; intros a h pool E Hpool; cbn in E.
    - inversion E; subst. congruence.
    - destruct (Allocator.free debug p a h) as ((r & a') & h') eqn:Ef.
      destruct r as [[]| |]; try discriminate E.
      destruct (free_layout _ _ _ _ _ _ _ Ef) as (Hl & _).
      unfold layout in Hl. rewrite Hpool in Hl.
      destruct (Allocator.m_MemoryPool a') as [pool'|] eqn:Hp'; [|discriminate Hl].
      cbn in Hl. injection Hl as _ _ _ _ Hc.
      rewrite <- Hc. eapply IH; eauto. }
  cbn [List.length] in Hcount. rewrite Nat.add_0_r in Hcount.
  destruct (allocate_n_drains debug _ _ _ _ Hinv1) as (a2 & h2 & Hrun & _).
  rewrite Hcount, Hcnt in Hrun.
  eexists. rewrite Hrun. split; [reflexivity|].
  split; [rewrite length_map, Hcount, Hcnt; reflexivity|].
  apply Forall_forall. intros x Hx. apply in_map_iff in Hx.
  destruct Hx as (b & <- & Hb).
  destruct Hinv1 as (_ & pool' & Hp' & Hgeo & _ & Hperm1 & _).
  apply (payload_no_wrap debug pool' Hgeo b).
  eapply Permutation_in; [exact Hperm1|]. apply in_or_app. left. exact Hb.
Qed.

Lemma freeing_all_recovers_capacity_witness :
  let s := Allocator.new false 128 1 0 4096 zero_heap in
  let r := Allocator.allocate false (fst s) (snd s) in
  exists pool a1 h1,
    Allocator.m_MemoryPool (snd (fst r)) = Some pool /\
    Allocator.free_each false [4104] (snd (fst r)) (snd r) = (Returned tt, a1, h1) /\
    exhausts_after false (MemoryPool.block_count pool) a1 h1.
Proof.
  intros s r.
  apply (freeing_all_recovers_capacity false (snd (fst r)) (snd r) [4104] [4104]).
  - apply (reach_allocate false (fst s) (snd s) [] 4104 (snd (fst r)) (snd r)).
    + apply (reach_new false 128 1 0 4096 zero_heap).
      * repeat split; vm_compute; reflexivity.
      * apply surjective_pairing.
    + apply result_eta. vm_compute. reflexivity.
    + discriminate.
  - apply Permutation_refl.
Defined.

(** ** The pool under any use *)

Lemma chain_covers_on_list (h : Heap) (l : list Z) : forall p b,
  chain h p l -> on_list h p b -> In b l.
Proof.
  induction l as [|c l IH]; intros p b Hc Hon; cbn in Hc.
  - apply on_list_inv in Hon. tauto.
  - destruct Hc as (-> & _ & Hc). apply on_list_inv in Hon.
    destruct Hon as (_ & [->|Hon]); [left; reflexivity|right; eauto].
Qed.

Lemma accepted_in_slots (debug : bool) (pool : MemoryPool.t) (ptr : Z) :
  geometry debug pool ->
  header_accepted debug pool ptr = true ->
  In (wrap (ptr - sizeof_Block debug)) (slots pool).
Proof.
  intros Hgeo Hacc. pose proof (geometry_bs_pos debug pool Hgeo) as Hbs.
  cbv zeta in Hbs. destruct Hgeo as (Hm & _ & Hc & Hend).
  destruct (accepted_is_slot debug pool ptr) as (j & Hj & E);
    [lia|lia|nia|exact Hacc|].
  rewrite E. apply in_slots. exists (Z.to_nat j). split; [lia|].
  unfold slot. rewrite Z2Nat.id by lia.
  rewrite (wrap_small (j * MemoryPool.block_size pool)) by nia.
  apply wrap_small. nia.
Qed.

Lemma new_list_in_slots (debug : bool) (block_size block_count this mem : Z)
      (h0 : Heap) :
  constructible debug block_size block_count mem ->
  list_in_slots debug
    (fst (Allocator.new debug block_size block_count this mem h0))
    (snd (Allocator.new debug block_size block_count this mem h0)).
Proof.
  intros Hcon.
  destruct (new_ready debug block_size block_count this mem h0 Hcon)
    as (fl & h & E & Hinv & _).
  cbv zeta in E, Hinv. rewrite E. cbn [fst snd].
  destruct Hinv as (Hinit & pool & Hpool & Hgeo & Hchain & _).
  cbn [Allocator.m_MemoryPool] in Hpool. inversion Hpool; subst pool; clear Hpool.
  split; [exact Hinit|]. eexists. split; [reflexivity|].
  split; [exact Hgeo|]. intros b Hon. apply in_rev.
  eapply chain_covers_on_list; [exact Hchain|exact Hon].
Qed.

(** What one [allocate()] does to a pool whose free list stays in the
    slots: the invariant is kept, a non-null result is a slot payload, and
    only the header and canary of a slot are written. *)
Lemma allocate_in_slots (debug : bool) (a : Allocator.t) (h : Heap)
      (r : Outcome Z) (a' : Allocator.t) (h' : Heap) :
  list_in_slots debug a h ->
  Allocator.allocate debug a h = (r, a', h') ->
  exists pool,
    Allocator.m_MemoryPool a = Some pool /\
    (forall p, r = Returned p ->
       list_in_slots debug a' h' /\
       (p <> 0 -> In (block_of debug p) (slots pool))) /\
    (forall q, ~ In q (slots pool) -> blocks h' q = blocks h q) /\
    (forall q, (forall b, In b (slots pool) ->
                          q <> b + MemoryPool.block_size pool - sizeof_uint32) ->
               words h' q = words h q).
Proof.
  intros Hinv E. pose proof Hinv as (Hinit & pool & Hpool & Hgeo & Hlist).
  exists pool. split; [exact Hpool|].
  unfold Allocator.allocate in E. rewrite Hinit, Hpool in E. cbn [negb] in E.
  destruct (MemoryPool.free_list pool =? 0) eqn:Hfl.
  { inversion E; subst. split; [|split; reflexivity].
    intros p Hp. inversion Hp; subst. split; [exact Hinv|congruence]. }
  apply Z.eqb_neq in Hfl.
  set (block := MemoryPool.free_list pool) in *.
  assert (Hin : In block (slots pool)) by (apply Hlist; now constructor).
  destruct (payload_no_wrap debug pool Hgeo block Hin) as (Hw & _).
  assert (Hgo : forall h1,
             (forall q, next (blocks h1 q) = next (blocks h q)) ->
             list_in_slots debug
               (Allocator.set_pool a
                  (MemoryPool.set_free_list pool (next (blocks h block)))) h1).
  { intros h1 Hn. split; [exact Hinit|]. eexists. split; [reflexivity|].
    split; [exact Hgeo|]. intros b Hon. apply Hlist.
    apply on_list_next; [exact Hfl|]. eapply on_list_ext; eauto. }
  assert (Hback : block_of debug (payload_of debug block) = block)
    by (unfold block_of, payload_of; lia).
  clearbody block.
  destruct debug.
  - destruct (is_free (blocks h block)); cbn [negb] in E.
    + injection E as <- <- <-.
      replace (wrap (block + 24)) with (payload_of true block)
        by (symmetry; exact Hw).
      split; [|split].
      * intros p Hp. inversion Hp; subst. split; [|rewrite Hback; auto].
        apply Hgo. intros q. simpl. destruct (q =? block) eqn:Eq; [|reflexivity].
        apply Z.eqb_eq in Eq. subst q. reflexivity.
      * intros q Hq. cbn [blocks store_word]. apply store_block_other.
        intros ->. contradiction.
      * intros q Hq. rewrite store_word_other; [reflexivity|].
        rewrite (rear_no_wrap true pool Hgeo block Hin). apply Hq, Hin.
    + inversion E; subst. split; [|split; reflexivity].
      intros p Hp. discriminate Hp.
  - injection E as <- <- <-.
    replace (wrap (block + 8)) with (payload_of false block)
      by (symmetry; exact Hw).
    split; [|split; reflexivity].
    intros p Hp. inversion Hp; subst. split; [|rewrite Hback; auto].
    apply Hgo. reflexivity.
Qed.

(** The same for one [free(ptr)], whatever [ptr] is. *)
Lemma free_in_slots (debug : bool) (ptr : Z) (a : Allocator.t) (h : Heap)
      (r : Outcome unit) (a' : Allocator.t) (h' : Heap) :
  list_in_slots debug a h ->
  Allocator.free debug ptr a h = (r, a', h') ->
  exists pool,
    Allocator.m_MemoryPool a = Some pool /\
    (r = Returned tt -> list_in_slots debug a' h') /\
    (forall q, ~ In q (slots pool) -> blocks h' q = blocks h q) /\
    (forall q, words h' q = words h q).
Proof.
  intros Hinv E. pose proof Hinv as (Hinit & pool & Hpool & Hgeo & Hlist).
  exists pool. split; [exact Hpool|].
  unfold Allocator.free in E.
  destruct (ptr =? 0); [inversion E; subst; auto|].
  rewrite Hinit, Hpool in E. cbn [negb] in E. cbv zeta in E.
  set (block := wrap (ptr - sizeof_Block debug)) in *.
  destruct ((block <? MemoryPool.memory pool) || _) eqn:Hrange; [inversion E; subst; split; [discriminate|auto]|].
  destruct (MemoryPool.block_size pool =? 0); [inversion E; subst; split; [discriminate|auto]|].
  destruct (_ mod _ =? 0) eqn:Hmod; cbn [negb] in E;
    [|inversion E; subst; split; [discriminate|auto]].
  assert (Hin : In block (slots pool)).
  { apply accepted_in_slots; [exact Hgeo|]. unfold header_accepted. cbv zeta.
    fold block. rewrite Hrange, Hmod. reflexivity. }
  clearbody block.
  assert (Hgo : forall h1,
             (forall q, next (blocks h1 q) = next (blocks h q)) ->
             list_in_slots debug
               (Allocator.set_pool a (MemoryPool.set_free_list pool block))
               (store_block h1 block
                  (set_next (blocks h1 block) (MemoryPool.free_list pool)))).
  { intros h1 Hn. split; [exact Hinit|]. eexists. split; [reflexivity|].
    split; [exact Hgeo|]. intros b Hon.
    cbn [MemoryPool.set_free_list MemoryPool.free_list] in Hon.
    apply on_list_inv in Hon. destruct Hon as (_ & [->|Hon]); [exact Hin|].
    rewrite store_block_same in Hon. cbn [next set_next] in Hon.
    eapply on_list_update with (h := h) (blk := block)
                               (fl := MemoryPool.free_list pool) in Hon.
    - destruct Hon as [->|[Hon|Hon]]; auto.
    - rewrite store_block_same. reflexivity.
    - intros q Hq. rewrite store_block_other by exact Hq. apply Hn. }
  destruct debug.
  - destruct (negb _); [inversion E; subst; split; [discriminate|auto]|].
    destruct (is_free _); [inversion E; subst; split; [discriminate|auto]|].
    destruct (negb (canary_front _ =? _) || _);
      [inversion E; subst; split; [discriminate|auto]|].
    inversion E; subst. split; [|split; [|reflexivity]].
    + intros _. apply Hgo. intros q. simpl.
      destruct (q =? block) eqn:Eq; [|reflexivity].
      apply Z.eqb_eq in Eq. subst q. reflexivity.
    + intros q Hq. rewrite !store_block_other by (intros ->; contradiction).
      reflexivity.
  - inversion E; subst. split; [|split; [|reflexivity]].
    + intros _. apply Hgo. reflexivity.
    + intros q Hq. rewrite store_block_other by (intros ->; contradiction).
      reflexivity.
Qed.

Lemma client_states_in_slots (debug : bool) (a0 : Allocator.t) (h0 : Heap)
      (a : Allocator.t) (h : Heap) :
  list_in_slots debug a0 h0 -> client_states debug a0 h0 a h ->
  list_in_slots debug a h.
Proof.
  intros H0. induction 1 as [|a h p a' h' _ IH E|a h ptr a' h' _ IH E].
  - exact H0.
  - destruct (allocate_in_slots _ _ _ _ _ _ IH E) as (pool & _ & Hr & _).
    apply (Hr p eq_refl).
  - destruct (free_in_slots _ _ _ _ _ _ _ IH E) as (pool & _ & Hr & _).
    apply Hr. reflexivity.
Qed.

Lemma client_states_layout (debug : bool) (a0 : Allocator.t) (h0 : Heap)
      (a : Allocator.t) (h : Heap) :
  client_states debug a0 h0 a h -> layout a = layout a0.
Proof.
  induction 1 as [|a h p a' h' _ IH E|a h ptr a' h' _ IH E].
  - reflexivity.
  - destruct (allocate_layout _ _ _ _ _ _ E) as (-> & _). exact IH.
  - destruct (free_layout _ _ _ _ _ _ _ E) as (-> & _). exact IH.
Qed.

Lemma ready_layout (debug : bool) (block_size block_count this mem : Z)
      (h0 : Heap) :
  constructible debug block_size block_count mem ->
  exists id,
    layout (fst (Allocator.new debug block_size block_count this mem h0))
    = (true, id, Some (mem, Allocator.raw_block_size debug block_size, block_count)).
Proof.
  intros Hcon.
  destruct (new_ready debug block_size block_count this mem h0 Hcon)
    as (fl & h & E & _).
  cbv zeta in E. rewrite E. eexists. reflexivity.
Qed.

Lemma layout_pool (a : Allocator.t) (pool : MemoryPool.t) (i : bool)
      (id m b c : Z) :
  layout a = (i, id, Some (m, b, c)) ->
  Allocator.m_MemoryPool a = Some pool ->
  MemoryPool.memory pool = m /\ MemoryPool.block_size pool = b /\
  MemoryPool.block_count pool = c.
Proof.
  unfold layout. intros El Hp. rewrite Hp in El. cbn in El.
  injection El as _ _ -> -> ->. auto.
Qed.

Lemma in_slots_address (debug : bool) (block_size block_count mem : Z)
      (pool : MemoryPool.t) (q : Z) :
  MemoryPool.memory pool = mem ->
  MemoryPool.block_size pool = Allocator.raw_block_size debug block_size ->
  MemoryPool.block_count pool = block_count ->
  (In q (slots pool) <-> slot_address debug block_size block_count mem q).
Proof.
  intros Em Eb Ec. rewrite in_slots. unfold slot_address, slot.
  rewrite Em, Eb, Ec. split.
  - intros (i & Hi & ->). exists (Z.of_nat i). split; [lia|reflexivity].
  - intros (i & Hi & ->). exists (Z.to_nat i). split; [lia|].
    rewrite Z2Nat.id by lia. reflexivity.
Qed.

(** X11.  Whatever calls were made on a pool constructed without
    wrap-around, valid or not, a non-null pointer returned by [allocate()]
    is the payload address of one of the [count] slots of the buffer. *)
Theorem allocate_returns_a_slot
        (debug : bool) (block_size block_count this mem : Z) (h0 : Heap)
        (a0 : Allocator.t) (h1 : Heap) (a : Allocator.t) (h : Heap)
        (p : Z) (a' : Allocator.t) (h' : Heap) :
  constructible debug block_size block_count mem ->
  Allocator.new debug block_size block_count this mem h0 = (a0, h1) ->
  client_states debug a0 h1 a h ->
  Allocator.allocate debug a h = (Returned p, a', h') ->
  p <> 0 ->
  slot_address debug block_size block_count mem (block_of debug p).
Proof.
  intros Hcon Hnew Hrun Halloc Hp.
  pose proof (new_list_in_slots debug block_size block_count this mem h0 Hcon) as H0.
  destruct (ready_layout debug block_size block_count this mem h0 Hcon) as (id & El).
  rewrite Hnew in H0, El. cbn [fst snd] in H0, El.
  pose proof (client_states_in_slots _ _ _ _ _ H0 Hrun) as Hinv.
  rewrite <- (client_states_layout _ _ _ _ _ Hrun) in El.
  destruct (allocate_in_slots _ _ _ _ _ _ Hinv Halloc) as (pool & Hpool & Hr & _).
  destruct (layout_pool _ _ _ _ _ _ _ El Hpool) as (Em & Eb & Ec).
  apply (in_slots_address debug block_size block_count mem pool _ Em Eb Ec).
  apply (Hr p eq_refl). exact Hp.
Qed.

Lemma allocate_returns_a_slot_witness :
  slot_address false 128 2 4096 (block_of false 4240).
Proof.
  set (s := Allocator.new false 128 2 0 4096 zero_heap).
  set (r := Allocator.allocate false (fst s) (snd s)).
  set (f1 := Allocator.free false 4240 (snd (fst r)) (snd r)).
  set (f2 := Allocator.free false 4240 (snd (fst f1)) (snd f1)).
  set (r4 := Allocator.allocate false (snd (fst f2)) (snd f2)).
  apply (allocate_returns_a_slot false 128 2 0 4096 zero_heap (fst s) (snd s)
           (snd (fst f2)) (snd f2) 4240 (snd (fst r4)) (snd r4)).
  - repeat split; vm_compute; reflexivity.
  - apply surjective_pairing.
  - apply cs_free with (a := snd (fst f1)) (h := snd f1) (ptr := 4240).
    + apply cs_free with (a := snd (fst r)) (h := snd r) (ptr := 4240).
      * apply cs_allocate with (a := fst s) (h := snd s) (p := 4240).
        -- apply cs_start.
        -- apply result_eta. vm_compute. reflexivity.
      * apply result_eta. vm_compute. reflexivity.
    + apply result_eta. vm_compute. reflexivity.
  - apply result_eta. vm_compute. reflexivity.
  - discriminate.
Defined.

(** X12.  Whatever calls were made on a pool constructed without
    wrap-around, the next [allocate()] and the next [free(ptr)], for any
    [ptr] and whether they return or abort, write no header outside the
    slot addresses of the buffer; [allocate()] writes no word outside their
    trailing canaries and [free] writes no word at all. *)
Theorem calls_write_only_slots
        (debug : bool) (block_size block_count this mem : Z) (h0 : Heap)
        (a0 : Allocator.t) (h1 : Heap) (a : Allocator.t) (h : Heap) (ptr q : Z) :
  constructible debug block_size block_count mem ->
  Allocator.new debug block_size block_count this mem h0 = (a0, h1) ->
  client_states debug a0 h1 a h ->
  (~ slot_address debug block_size block_count mem q ->
   blocks (snd (Allocator.allocate debug a h)) q = blocks h q /\
   blocks (snd (Allocator.free debug ptr a h)) q = blocks h q) /\
  (~ canary_address debug block_size block_count mem q ->
   words (snd (Allocator.allocate debug a h)) q = words h q) /\
  words (snd (Allocator.free debug ptr a h)) q = words h q.
Proof.
  intros Hcon Hnew Hrun.
  pose proof (new_list_in_slots debug block_size block_count this mem h0 Hcon) as H0.
  destruct (ready_layout debug block_size block_count this mem h0 Hcon) as (id & El).
  rewrite Hnew in H0, El. cbn [fst snd] in H0, El.
  pose proof (client_states_in_slots _ _ _ _ _ H0 Hrun) as Hinv.
  rewrite <- (client_states_layout _ _ _ _ _ Hrun) in El.
  destruct (Allocator.allocate debug a h) as ((ra & aa) & ha) eqn:Ea.
  destruct (Allocator.free debug ptr a h) as ((rf & af) & hf) eqn:Ef.
  destruct (allocate_in_slots _ _ _ _ _ _ Hinv Ea) as (pool & Hpool & _ & Hab & Haw).
  destruct (free_in_slots _ _ _ _ _ _ _ Hinv Ef) as (pool' & Hpool' & _ & Hfb & Hfw).
  rewrite Hpool in Hpool'. inversion Hpool'; subst pool'; clear Hpool'.
  destruct (layout_pool _ _ _ _ _ _ _ El Hpool) as (Em & Eb & Ec).
  pose proof (in_slots_address debug block_size block_count mem pool) as Hsl.
  cbn [snd]. split; [|split].
  - intros Hq. split; [apply Hab|apply Hfb]; intros Hin; apply Hq;
      apply (Hsl q Em Eb Ec); exact Hin.
  - intros Hq. apply Haw. intros b Hb ->. apply Hq.
    apply (Hsl b Em Eb Ec) in Hb. destruct Hb as (i & Hi & ->).
    exists i. split; [exact Hi|]. rewrite Eb. reflexivity.
  - apply Hfw.
Qed.

Lemma calls_write_only_slots_witness :
  let s := Allocator.new true 64 4 0 4096 zero_heap in
  (~ slot_address true 64 4 4096 4100 ->
   blocks (snd (Allocator.allocate true (fst s) (snd s))) 4100 = blocks (snd s) 4100 /\
   blocks (snd (Allocator.free true 4124 (fst s) (snd s))) 4100 = blocks (snd s) 4100) /\
  (~ canary_address true 64 4 4096 4100 ->
   words (snd (Allocator.allocate true (fst s) (snd s))) 4100 = words (snd s) 4100) /\
  words (snd (Allocator.free true 4124 (fst s) (snd s))) 4100 = words (snd s) 4100.
Proof.
  intros s.
  apply (calls_write_only_slots true 64 4 0 4096 zero_heap (fst s) (snd s)
           (fst s) (snd s) 4124 4100).
  - repeat split; vm_compute; reflexivity.
  - apply surjective_pairing.
  - apply cs_start.
Defined.

(** ** Payloads *)

Lemma allocate_sizes (debug : bool) (a : Allocator.t) (h : Heap)
      (r : Outcome Z) (a' : Allocator.t) (h' : Heap) :
  Allocator.allocate debug a h = (r, a', h') -> sizes a' = sizes a.
Proof.
  unfold Allocator.allocate, sizes. intros E.
  destruct (Allocator.m_Initialized a); cbn [negb] in E;
    [|inversion E; subst; reflexivity].
  destruct (Allocator.m_MemoryPool a) as [pool|] eqn:Hpool;
    [|inversion E; subst; rewrite Hpool; reflexivity].
  destruct (MemoryPool.free_list pool =? 0);
    [inversion E; subst; rewrite Hpool; reflexivity|].
  destruct debug; [destruct (is_free _); cbn [negb] in E|];
    inversion E; subst; reflexivity.
Qed.

Lemma free_sizes (debug : bool) (ptr : Z) (a : Allocator.t) (h : Heap)
      (r : Outcome unit) (a' : Allocator.t) (h' : Heap) :
  Allocator.free debug ptr a h = (r, a', h') -> sizes a' = sizes a.
Proof.
  unfold Allocator.free, sizes. intros E.
  destruct (ptr =? 0); [inversion E; subst; reflexivity|].
  destruct (Allocator.m_Initialized a); cbn [negb] in E;
    [|inversion E; subst; reflexivity].
  destruct (Allocator.m_MemoryPool a) as [pool|] eqn:Hpool;
    [|inversion E; subst; rewrite Hpool; reflexivity].
  cbv zeta in E.
  destruct ((_ <? _) || _); [inversion E; subst; rewrite Hpool; reflexivity|].
  destruct (MemoryPool.block_size pool =? 0);
    [inversion E; subst; rewrite Hpool; reflexivity|].
  destruct (negb (_ mod _ =? 0)); [inversion E; subst; rewrite Hpool; reflexivity|].
  destruct debug; [|inversion E; subst; reflexivity].
  destruct (negb (pool_id _ =? _)); [inversion E; subst; rewrite Hpool; reflexivity|].
  destruct (is_free _); [inversion E; subst; rewrite Hpool; reflexivity|].
  destruct (negb (canary_front _ =? _) || _);
    inversion E; subst; rewrite ?Hpool; reflexivity.
Qed.

Lemma roomy_sizes (debug : bool) (a a' : Allocator.t) :
  sizes a' = sizes a -> roomy debug a -> roomy debug a'.
Proof.
  unfold sizes, roomy. intros E Hr pool' Hp'. rewrite Hp' in E.
  destruct (Allocator.m_MemoryPool a) as [pool|]; [|discriminate E].
  cbn in E. injection E as -> ->. apply Hr. reflexivity.
Qed.

Lemma reachable_roomy (debug : bool) (a : Allocator.t) (h : Heap) (live : list Z) :
  reachable debug a h live -> roomy debug a.
Proof.
  induction 1 as [bsz cnt this mem h0 a h Hcon Hnew
                 | a h live p a' h' _ IH Hal Hp
                 | a h live a' h' _ IH Hal
                 | a h l1 p l2 a' h' _ IH Hfr].
  - destruct (new_ready debug bsz cnt this mem h0 Hcon) as (fl & h1 & E & _).
    cbv zeta in E. rewrite E in Hnew. inversion Hnew; subst.
    intros pool Hp. inversion Hp; subst pool. cbn.
    destruct Hcon as (Hb & _ & Hs & _).
    apply (raw_block_size_bounds debug bsz Hb Hs).
  - eapply roomy_sizes; [eapply allocate_sizes; eauto|exact IH].
  - eapply roomy_sizes; [eapply allocate_sizes; eauto|exact IH].
  - eapply roomy_sizes; [eapply free_sizes; eauto|exact IH].
Qed.

(** X13.  Under valid use every pointer in use has a slot of its own
    inside the buffer: the header in front of it, then the [payload_size]
    bytes asked for at construction, which end before the last
    [tail_size] bytes of the slot, where a debug build keeps the trailing
    canary; the slots of two different pointers in use do not overlap,
    so neither do their headers, payloads and canaries. *)
Theorem payloads_in_use_are_apart
        (debug : bool) (a : Allocator.t) (h : Heap) (live : list Z) :
  reachable debug a h live ->
  exists pool,
    Allocator.m_MemoryPool a = Some pool /\
    (forall p, In p live ->
       let b := block_of debug p in
       MemoryPool.memory pool <= b /\
       b + sizeof_Block debug = p /\
       p + MemoryPool.payload_size pool
       <= b + MemoryPool.block_size pool - tail_size debug /\
       b + MemoryPool.block_size pool
       <= MemoryPool.memory pool
          + MemoryPool.block_size pool * MemoryPool.block_count pool /\
       (debug = true ->
        Allocator.rear b (MemoryPool.block_size pool)
        = b + MemoryPool.block_size pool - sizeof_uint32)) /\
    (forall p q, In p live -> In q live -> p <> q ->
       block_of debug p + MemoryPool.block_size pool <= block_of debug q \/
       block_of debug q + MemoryPool.block_size pool <= block_of debug p).
Proof.
  intros Hreach. pose proof (reachable_roomy _ _ _ _ Hreach) as Hroom.
  destruct (reachable_inv _ _ _ _ Hreach) as (fl & Hinv).
  destruct Hinv as (_ & pool & Hpool & Hgeo & _ & Hperm & _).
  exists pool. split; [exact Hpool|]. specialize (Hroom pool Hpool).
  assert (Hin : forall p, In p live -> In (block_of debug p) (slots pool)).
  { intros p Hp. eapply Permutation_in; [exact Hperm|].
    apply in_or_app. right. apply (in_map (block_of debug) _ _ Hp). }
  split.
  - intros p Hp b. pose proof (Hin p Hp) as Hb. fold b in Hb.
    pose proof (rear_no_wrap debug pool Hgeo b Hb) as Hrear. cbv zeta in Hrear.
    apply in_slots in Hb. destruct Hb as (i & Hi & E).
    pose proof (slot_bounds debug pool Hgeo i Hi) as Hbd. cbv zeta in Hbd.
    rewrite <- E in Hbd.
    assert (Hp' : b + sizeof_Block debug = p) by (unfold b, block_of; lia).
    split; [lia|]. split; [exact Hp'|]. split; [lia|]. split; [lia|].
    intros _. exact Hrear.
  - intros p q Hp Hq Hne.
    pose proof (Hin p Hp) as Hbp. pose proof (Hin q Hq) as Hbq.
    apply in_slots in Hbp. apply in_slots in Hbq.
    destruct Hbp as (i & Hi & Ei). destruct Hbq as (j & Hj & Ej).
    pose proof (geometry_bs_pos debug pool Hgeo) as Hbs. cbv zeta in Hbs.
    rewrite Ei, Ej. unfold slot.
    assert (i <> j).
    { intros ->. apply Hne. unfold block_of in Ei, Ej. lia. }
    destruct (Nat.lt_ge_cases i j); [left|right]; nia.
Qed.

Lemma payloads_in_use_are_apart_witness :
  let s := Allocator.new true 64 4 0 4096 zero_heap in
  let r := Allocator.allocate true (fst s) (snd s) in
  exists pool,
    Allocator.m_MemoryPool (snd (fst r)) = Some pool /\
    (forall p, In p [4408] ->
       let b := block_of true p in
       MemoryPool.memory pool <= b /\
       b + sizeof_Block true = p /\
       p + MemoryPool.payload_size pool
       <= b + MemoryPool.block_size pool - tail_size true /\
       b + MemoryPool.block_size pool
       <= MemoryPool.memory pool
          + MemoryPool.block_size pool * MemoryPool.block_count pool /\
       (true = true ->
        Allocator.rear b (MemoryPool.block_size pool)
        = b + MemoryPool.block_size pool - sizeof_uint32)) /\
    (forall p q, In p [4408] -> In q [4408] -> p <> q ->
       block_of true p + MemoryPool.block_size pool <= block_of true q \/
       block_of true q + MemoryPool.block_size pool <= block_of true p).
Proof.
  intros s r.
  apply (payloads_in_use_are_apart true (snd (fst r)) (snd r) [4408]).
  apply (reach_allocate true (fst s) (snd s) [] 4408 (snd (fst r)) (snd r)).
  - apply (reach_new true 64 4 0 4096 zero_heap).
    + repeat split; vm_compute; reflexivity.
    + apply surjective_pairing.
  - apply result_eta. vm_compute. reflexivity.
  - discriminate.
Defined.

(** ** Destruction *)

(** X14.  Whatever the constructor arguments and whatever calls returned
    since, the destructor hands [std::free] exactly the buffer the
    constructor obtained, and nothing when the construction had failed; it
    leaves the object unready with no buffer, so that running it again
    releases nothing, [allocate()] returns null and [free] returns
    without a check. *)
Theorem destroy_releases_the_buffer
        (debug : bool) (block_size block_count this mem : Z) (h0 : Heap)
        (a0 : Allocator.t) (h1 : Heap) (a : Allocator.t) (h : Heap) :
  Allocator.new debug block_size block_count this mem h0 = (a0, h1) ->
  client_states debug a0 h1 a h ->
  snd (Allocator.destroy a)
  = (if Allocator.is_initialized a0 then Some mem else None) /\
  Allocator.is_initialized (fst (Allocator.destroy a)) = false /\
  snd (Allocator.destroy (fst (Allocator.destroy a))) = None /\
  Allocator.allocate debug (fst (Allocator.destroy a)) h
  = (Returned 0, fst (Allocator.destroy a), h) /\
  forall ptr,
    Allocator.free debug ptr (fst (Allocator.destroy a)) h
    = (Returned tt, fst (Allocator.destroy a), h).
Proof.
  intros Hnew Hrun. pose proof (client_states_layout _ _ _ _ _ Hrun) as El.
  assert (H0 : layout a0
               = (Allocator.is_initialized a0, Allocator.m_PoolId a0,
                  if (block_size =? 0) || (block_count =? 0) then None
                  else Some (mem, Allocator.raw_block_size debug block_size,
                             block_count)) /\
               (Allocator.is_initialized a0 = true -> mem <> 0) /\
               (Allocator.is_initialized a0 = false ->
                (block_size =? 0) || (block_count =? 0) = false -> mem = 0)).
  { unfold Allocator.new in Hnew.
    destruct ((block_size =? 0) || (block_count =? 0)).
    - inversion Hnew; subst. cbn. repeat split; discriminate.
    - destruct (mem =? 0) eqn:Em.
      + inversion Hnew; subst. cbn. apply Z.eqb_eq in Em.
        repeat split; [discriminate|auto].
      + destruct (Allocator.init_blocks _ _ _ _ _ _ _ _) as (fl & h').
        inversion Hnew; subst. cbn. apply Z.eqb_neq in Em.
        repeat split; [auto|discriminate]. }
  destruct H0 as (H0 & Hready & Hfailed). rewrite H0 in El. clear H0.
  unfold layout in El. unfold Allocator.destroy.
  destruct (Allocator.m_MemoryPool a) as [pool|] eqn:Hpool; cbn in El.
  - destruct ((block_size =? 0) || (block_count =? 0)) eqn:Ez;
      [discriminate El|].
    injection El as Ei Eid Em Eb Ec.
    destruct (MemoryPool.memory pool =? 0) eqn:Emem.
    + apply Z.eqb_eq in Emem. cbn [fst snd Allocator.m_MemoryPool].
      rewrite Emem. cbn [Z.eqb].
      destruct (Allocator.is_initialized a0) eqn:Hi0.
      * exfalso. apply (Hready eq_refl). congruence.
      * repeat split; apply unready_allocate_free_noop; reflexivity.
    + apply Z.eqb_neq in Emem. cbn [fst snd Allocator.m_MemoryPool].
      cbn [MemoryPool.set_memory MemoryPool.memory Z.eqb].
      destruct (Allocator.is_initialized a0) eqn:Hi0.
      * rewrite Em. repeat split; apply unready_allocate_free_noop; reflexivity.
      * exfalso. apply Emem. rewrite Em. apply Hfailed; reflexivity.
  - destruct ((block_size =? 0) || (block_count =? 0)) eqn:Ez;
      [|discriminate El].
    injection El as Ei Eid. cbn [fst snd Allocator.m_MemoryPool].
    assert (Hi0 : Allocator.is_initialized a0 = false).
    { unfold Allocator.new in Hnew. rewrite Ez in Hnew.
      inversion Hnew; subst. reflexivity. }
    rewrite Hi0. repeat split; apply unready_allocate_free_noop; reflexivity.
Qed.

Lemma destroy_releases_the_buffer_witness :
  let s := Allocator.new true 64 4 0 4096 zero_heap in
  let r := Allocator.allocate true (fst s) (snd s) in
  snd (Allocator.destroy (snd (fst r)))
  = (if Allocator.is_initialized (fst s) then Some 4096 else None) /\
  Allocator.is_initialized (fst (Allocator.destroy (snd (fst r)))) = false /\
  snd (Allocator.destroy (fst (Allocator.destroy (snd (fst r))))) = None /\
  Allocator.allocate true (fst (Allocator.destroy (snd (fst r)))) (snd r)
  = (Returned 0, fst (Allocator.destroy (snd (fst r))), snd r) /\
  forall ptr,
    Allocator.free true ptr (fst (Allocator.destroy (snd (fst r)))) (snd r)
    = (Returned tt, fst (Allocator.destroy (snd (fst r))), snd r).
Proof.
  intros s r.
  apply (destroy_releases_the_buffer true 64 4 0 4096 zero_heap (fst s) (snd s)).
  - apply surjective_pairing.
  - apply cs_allocate with (a := fst s) (h := snd s) (p := 4408).
    + apply cs_start.
    + apply result_eta. vm_compute. reflexivity.
Defined.

(** ** The dispatcher *)

Lemma allocate_in_first_fit (debug : bool) (size : Z) (h : Heap)
      (a : Allocator.t) (post : list Allocator.t) :
  (exists bs, Allocator.block_size a = Returned bs /\ size <= bs) ->
  forall pre,
    (forall x, In x pre ->
       exists bs, Allocator.block_size x = Returned bs /\ bs < size) ->
    SlabAllocator.allocate_in debug size (pre ++ a :: post) h
    = (fst (fst (Allocator.allocate debug a h)),
       pre ++ snd (fst (Allocator.allocate debug a h)) :: post,
       snd (Allocator.allocate debug a h)).
Proof.
  intros (bs & Hbs & Hle). induction pre as [|x pre IH]; intros Hpre.
  - cbn [app SlabAllocator.allocate_in]. rewrite Hbs.
    apply Z.leb_le in Hle. rewrite Hle.
    destruct (Allocator.allocate debug a h) as ((r & a') & h'). reflexivity.
  - cbn [app SlabAllocator.allocate_in].
    destruct (Hpre x (or_introl eq_refl)) as (bx & -> & Hlt).
    apply Z.leb_gt in Hlt. rewrite Hlt, IH; [reflexivity|].
    intros y Hy. apply Hpre. right. exact Hy.
Qed.

Lemma free_in_first_fit (debug : bool) (ptr size : Z) (h : Heap)
      (a : Allocator.t) (post : list Allocator.t) :
  (exists bs, Allocator.block_size a = Returned bs /\ size <= bs) ->
  forall pre,
    (forall x, In x pre ->
       exists bs, Allocator.block_size x = Returned bs /\ bs < size) ->
    SlabAllocator.free_in debug ptr size (pre ++ a :: post) h
    = (fst (fst (Allocator.free debug ptr a h)),
       pre ++ snd (fst (Allocator.free debug ptr a h)) :: post,
       snd (Allocator.free debug ptr a h)).
Proof.
  intros (bs & Hbs & Hle). induction pre as [|x pre IH]; intros Hpre.
  - cbn [app SlabAllocator.free_in]. rewrite Hbs.
    apply Z.leb_le in Hle. rewrite Hle.
    destruct (Allocator.free debug ptr a h) as ((r & a') & h'). reflexivity.
  - cbn [app SlabAllocator.free_in].
    destruct (Hpre x (or_introl eq_refl)) as (bx & -> & Hlt).
    apply Z.leb_gt in Hlt. rewrite Hlt, IH; [reflexivity|].
    intros y Hy. apply Hpre. right. exact Hy.
Qed.

(** X15.  Both loops of the dispatcher stop at the same pool, the first
    one whose [block_size()] is at least [size]: [allocate(size)] and
    [free(ptr, size)] give what that pool's [allocate()] and [free(ptr)]
    give, abort included, and every other pool stays as it was. *)
Theorem slab_forwards_to_first_fit
        (debug : bool) (size : Z) (s : SlabAllocator.t) (h : Heap)
        (pre : list Allocator.t) (a : Allocator.t) (post : list Allocator.t) :
  first_fit size (SlabAllocator.m_Slabs s) pre a post ->
  SlabAllocator.allocate debug size s h
  = (fst (fst (Allocator.allocate debug a h)),
     {| SlabAllocator.m_Slabs :=
          pre ++ snd (fst (Allocator.allocate debug a h)) :: post |},
     snd (Allocator.allocate debug a h)) /\
  forall ptr,
    SlabAllocator.free debug ptr size s h
    = (fst (fst (Allocator.free debug ptr a h)),
       {| SlabAllocator.m_Slabs :=
            pre ++ snd (fst (Allocator.free debug ptr a h)) :: post |},
       snd (Allocator.free debug ptr a h)).
Proof.
  intros (Hs & Hpre & Ha). split; [|intros ptr].
  - unfold SlabAllocator.allocate. rewrite Hs.
    rewrite (allocate_in_first_fit debug size h a post Ha pre Hpre). reflexivity.
  - unfold SlabAllocator.free. rewrite Hs.
    rewrite (free_in_first_fit debug ptr size h a post Ha pre Hpre). reflexivity.
Qed.

Lemma slab_forwards_to_first_fit_witness :
  let s := fst (fresh_slab false) in
  let h := snd (fresh_slab false) in
  let pre := firstn 1 (SlabAllocator.m_Slabs s) in
  let a := nth 1 (SlabAllocator.m_Slabs s) (Allocator.mk false None 0) in
  let post := skipn 2 (SlabAllocator.m_Slabs s) in
  SlabAllocator.allocate false 100 s h
  = (fst (fst (Allocator.allocate false a h)),
     {| SlabAllocator.m_Slabs :=
          pre ++ snd (fst (Allocator.allocate false a h)) :: post |},
     snd (Allocator.allocate false a h)) /\
  forall ptr,
    SlabAllocator.free false ptr 100 s h
    = (fst (fst (Allocator.free false ptr a h)),
       {| SlabAllocator.m_Slabs :=
            pre ++ snd (fst (Allocator.free false ptr a h)) :: post |},
       snd (Allocator.free false ptr a h)).
Proof.
  intros s h pre a post.
  apply (slab_forwards_to_first_fit false 100 s h pre a post).
  split; [vm_compute; reflexivity|]. split.
  - intros x Hx. exists 72. vm_compute in Hx. destruct Hx as [<-|[]].
    split; vm_compute; reflexivity.
  - exists 136. split; [vm_compute; reflexivity|vm_compute; discriminate].
Defined.

(** X16.  A size larger than the [block_size()] of every pool is served
    by none: [allocate(size)] returns null and [free(ptr, size)] returns
    without a check and without releasing anything, whatever [ptr] is. *)
Theorem slab_oversize_is_ignored
        (debug : bool) (size : Z) (s : SlabAllocator.t) (h : Heap) :
  (forall a, In a (SlabAllocator.m_Slabs s) ->
     exists bs, Allocator.block_size a = Returned bs /\ bs < size) ->
  SlabAllocator.allocate debug size s h = (Returned 0, s, h) /\
  forall ptr, SlabAllocator.free debug ptr size s h = (Returned tt, s, h).
Proof.
  intros Hall. destruct s as [slabs]. cbn [SlabAllocator.m_Slabs] in Hall.
  unfold SlabAllocator.allocate, SlabAllocator.free. cbn [SlabAllocator.m_Slabs].
  split; [|intros ptr].
  - rewrite (allocate_in_none debug size h slabs Hall). reflexivity.
  - rewrite (free_in_none debug ptr size h slabs Hall). reflexivity.
Qed.

Lemma slab_oversize_is_ignored_witness :
  let s := fst (fresh_slab false) in
  let h := snd (fresh_slab false) in
  SlabAllocator.allocate false 600 s h = (Returned 0, s, h) /\
  forall ptr, SlabAllocator.free false ptr 600 s h = (Returned tt, s, h).
Proof.
  intros s h. apply (slab_oversize_is_ignored false 600 s h).
  intros a Ha. vm_compute in Ha.
  destruct Ha as [<-|[<-|[<-|[<-|[]]]]];
    [exists 72|exists 136|exists 264|exists 520];
    (split; vm_compute; reflexivity).
Defined.

(** ** The four pools after construction *)

Lemma ready_class_frame (debug : bool) (a : Allocator.t) (h h' : Heap)
      (size mem : Z) :
  constructible debug size 100 mem ->
  ready_class debug a h size mem ->
  (forall q, mem <= q < mem + Allocator.raw_block_size debug size * 100 ->
             blocks h' q = blocks h q /\ words h' q = words h q) ->
  ready_class debug a h' size mem.
Proof.
  intros Hcon (fl & Hpool & Hinv) Hsame. exists fl. split; [exact Hpool|].
  eapply pool_inv_frame; [exact Hinv|]. intros pool b Hp Hb.
  rewrite Hpool in Hp. inversion Hp; subst pool; clear Hp.
  pose proof (slot_in_buffer debug _ b
                (constructible_geometry debug size 100 mem fl Hcon) Hb) as Hin.
  cbn [fresh_pool MemoryPool.memory MemoryPool.block_size
       MemoryPool.block_count] in *.
  unfold sizeof_uint32.
  destruct (Hsame b ltac:(lia)) as (-> & _).
  destruct (Hsame (b + Allocator.raw_block_size debug size - 4) ltac:(lia))
    as (_ & ->).
  split; reflexivity.
Qed.

Lemma slab_pools_ready
      (debug : bool) (this0 mem0 this1 mem1 this2 mem2 this3 mem3 : Z)
      (h0 : Heap) (s : SlabAllocator.t) (h : Heap) :
  constructible debug 64 100 mem0 ->
  constructible debug 128 100 mem1 ->
  constructible debug 256 100 mem2 ->
  constructible debug 512 100 mem3 ->
  separate debug 64 mem0 128 mem1 ->
  separate debug 64 mem0 256 mem2 ->
  separate debug 64 mem0 512 mem3 ->
  separate debug 128 mem1 256 mem2 ->
  separate debug 128 mem1 512 mem3 ->
  separate debug 256 mem2 512 mem3 ->
  SlabAllocator.new debug (this0, mem0) (this1, mem1) (this2, mem2) (this3, mem3) h0
  = (s, h) ->
  exists a0 a1 a2 a3,
    s = {| SlabAllocator.m_Slabs := [a0; a1; a2; a3] |} /\
    ready_class debug a0 h 64 mem0 /\
    ready_class debug a1 h 128 mem1 /\
    ready_class debug a2 h 256 mem2 /\
    ready_class debug a3 h 512 mem3.
Proof.
  intros C0 C1 C2 C3 S01 S02 S03 S12 S13 S23 Hnew.
  destruct (new_ready_outside debug 64 100 this0 mem0 h0 C0)
    as (fl0 & g0 & E0 & I0 & _).
  destruct (new_ready_outside debug 128 100 this1 mem1 g0 C1)
    as (fl1 & g1 & E1 & I1 & F1).
  destruct (new_ready_outside debug 256 100 this2 mem2 g1 C2)
    as (fl2 & g2 & E2 & I2 & F2).
  destruct (new_ready_outside debug 512 100 this3 mem3 g2 C3)
    as (fl3 & g3 & E3 & I3 & F3).
  cbv zeta in *.
  unfold SlabAllocator.new in Hnew. cbn [fst snd] in Hnew.
  rewrite E0, E1, E2, E3 in Hnew. inversion Hnew; subst s h; clear Hnew.
  unfold separate in *.
  do 4 eexists. split; [reflexivity|]. split; [|split; [|split]].
  - apply (ready_class_frame debug _ g0 g3 64 mem0 C0).
    + exists fl0. split; [reflexivity|exact I0].
    + intros q Hq.
      destruct (F3 q ltac:(lia)) as (-> & ->).
      destruct (F2 q ltac:(lia)) as (-> & ->).
      destruct (F1 q ltac:(lia)) as (-> & ->). split; reflexivity.
  - apply (ready_class_frame debug _ g1 g3 128 mem1 C1).
    + exists fl1. split; [reflexivity|exact I1].
    + intros q Hq.
      destruct (F3 q ltac:(lia)) as (-> & ->).
      destruct (F2 q ltac:(lia)) as (-> & ->). split; reflexivity.
  - apply (ready_class_frame debug _ g2 g3 256 mem2 C2).
    + exists fl2. split; [reflexivity|exact I2].
    + intros q Hq.
      destruct (F3 q ltac:(lia)) as (-> & ->). split; reflexivity.
  - exists fl3. split; [reflexivity|exact I3].
Qed.

Lemma block_size_sizes (a a' : Allocator.t) :
  sizes a' = sizes a -> Allocator.block_size a' = Allocator.block_size a.
Proof.
  unfold sizes, Allocator.block_size. intros E.
  destruct (Allocator.m_MemoryPool a'), (Allocator.m_MemoryPool a);
    cbn in E; congruence.
Qed.

Lemma ready_class_block_size (debug : bool) (a : Allocator.t) (h : Heap)
      (size mem : Z) :
  ready_class debug a h size mem ->
  Allocator.block_size a = Returned (Allocator.raw_block_size debug size).
Proof.
  intros (fl & Hpool & _). unfold Allocator.block_size. rewrite Hpool. reflexivity.
Qed.

(** A fresh pool serves a request, takes the block back and serves it
    again; the block lies in the buffer of the pool. *)
Lemma class_round_trip (debug : bool) (a : Allocator.t) (h : Heap) (size mem : Z) :
  constructible debug size 100 mem ->
  ready_class debug a h size mem ->
  exists p a1 h1 a2 h2 a3 h3,
    Allocator.allocate debug a h = (Returned p, a1, h1) /\
    p <> 0 /\
    Allocator.free debug p a1 h1 = (Returned tt, a2, h2) /\
    Allocator.allocate debug a2 h2 = (Returned p, a3, h3) /\
    Allocator.block_size a1 = Returned (Allocator.raw_block_size debug size) /\
    Allocator.block_size a2 = Returned (Allocator.raw_block_size debug size) /\
    mem <= wrap (p - sizeof_Block debug)
        < mem + Allocator.raw_block_size debug size * 100.
Proof.
  intros Hcon Hready.
  pose proof (ready_class_block_size _ _ _ _ _ Hready) as Hbs.
  destruct Hready as (fl0 & Hpool & Hinv).
  pose proof (constructible_geometry debug size 100 mem fl0 Hcon) as Hgeo.
  set (pool := fresh_pool debug size 100 mem fl0) in *.
  destruct (rev (slots pool)) as [|b fl] eqn:Hrev.
  { apply (f_equal (@List.length Z)) in Hrev.
    rewrite length_rev, (slots_length pool) in Hrev. discriminate Hrev. }
  assert (Hb : In b (slots pool)).
  { apply in_rev. rewrite Hrev. left. reflexivity. }
  destruct (allocate_pop debug a h b fl [] Hinv) as (a1 & h1 & E1 & Hnz & I1).
  destruct (free_push debug a1 h1 fl [] (payload_of debug b) [] I1)
    as (a2 & h2 & E2 & I2).
  replace (block_of debug (payload_of debug b)) with b in I2
    by (unfold block_of, payload_of; lia).
  cbn [app] in I2.
  destruct (allocate_pop debug a2 h2 b fl [] I2) as (a3 & h3 & E3 & _ & _).
  exists (payload_of debug b), a1, h1, a2, h2, a3, h3.
  split; [exact E1|]. split; [exact Hnz|]. split; [exact E2|].
  split; [exact E3|].
  pose proof (allocate_sizes _ _ _ _ _ _ E1) as Z1.
  pose proof (free_sizes _ _ _ _ _ _ _ E2) as Z2.
  split; [rewrite (block_size_sizes _ _ Z1); exact Hbs|].
  split; [rewrite (block_size_sizes _ _ Z2), (block_size_sizes _ _ Z1); exact Hbs|].
  replace (payload_of debug b - sizeof_Block debug) with b
    by (unfold payload_of; lia).
  pose proof (slot_in_buffer debug pool b Hgeo Hb) as Hin.
  cbn [pool fresh_pool MemoryPool.memory MemoryPool.block_size
       MemoryPool.block_count] in Hin.
  destruct Hcon as (_ & _ & _ & _ & Hm & He).
  rewrite wrap_small by lia. lia.
Qed.

(** A pool aborts on a pointer whose header lies outside its buffer,
    whatever the heap holds. *)
Lemma ready_class_rejects (debug : bool) (a : Allocator.t) (h h' : Heap)
      (size mem ptr : Z) :
  constructible debug size 100 mem ->
  ready_class debug a h size mem ->
  ptr <> 0 ->
  wrap (ptr - sizeof_Block debug) < mem \/
  mem + Allocator.raw_block_size debug size * 100 <= wrap (ptr - sizeof_Block debug) ->
  Allocator.free debug ptr a h' = (Aborted msg_not_from_pool, a, h').
Proof.
  intros Hcon (fl & Hpool & (Hinit & _)) Hnz Hout.
  destruct Hcon as (Hb & _ & Hs & Hn & Hm & He).
  pose proof (raw_block_size_bounds debug size Hb Hs) as Hrbs.
  pose proof (sizeof_Block_pos debug) as Hsz.
  pose proof (tail_size_range debug) as Htl.
  unfold Allocator.free. apply Z.eqb_neq in Hnz. rewrite Hnz, Hinit, Hpool.
  cbn [negb fresh_pool MemoryPool.memory MemoryPool.block_size
       MemoryPool.block_count]. cbv zeta.
  rewrite (wrap_small (Allocator.raw_block_size debug size * 100)) by lia.
  rewrite (wrap_small (mem + Allocator.raw_block_size debug size * 100)) by lia.
  replace ((wrap (ptr - sizeof_Block debug) <? mem)
           || (wrap (ptr - sizeof_Block debug)
               >=? mem + Allocator.raw_block_size debug size * 100))
    with true; [reflexivity|].
  symmetry. apply orb_true_iff. rewrite Z.geb_leb.
  destruct Hout; [left; apply Z.ltb_lt|right; apply Z.leb_le]; lia.
Qed.

(** Runs the loop of the dispatcher over pools whose [block_size()] is
    known, with the comparisons already decided. *)
Ltac slab_run :=
  repeat (cbn [SlabAllocator.m_Slabs SlabAllocator.allocate_in
               SlabAllocator.free_in];
          match goal with
          | H : Allocator.block_size _ = Returned _ |- _ => rewrite H
          | H : (_ <=? _) = _ |- _ => rewrite H
          end).

(** X17.  On a dispatcher as its constructor leaves it, its four buffers
    inside the address space and apart from one another, every request of
    at most the largest stride is served with a non-null pointer,
    [free(p, size)] with the same size returns, and the next request of
    that size gets the same pointer again. *)
Theorem slab_serves_and_reuses
        (debug : bool) (this0 mem0 this1 mem1 this2 mem2 this3 mem3 : Z)
        (h0 : Heap) (s : SlabAllocator.t) (h : Heap) (size : Z) :
  constructible debug 64 100 mem0 ->
  constructible debug 128 100 mem1 ->
  constructible debug 256 100 mem2 ->
  constructible debug 512 100 mem3 ->
  separate debug 64 mem0 128 mem1 ->
  separate debug 64 mem0 256 mem2 ->
  separate debug 64 mem0 512 mem3 ->
  separate debug 128 mem1 256 mem2 ->
  separate debug 128 mem1 512 mem3 ->
  separate debug 256 mem2 512 mem3 ->
  SlabAllocator.new debug (this0, mem0) (this1, mem1) (this2, mem2) (this3, mem3) h0
  = (s, h) ->
  size <= Allocator.raw_block_size debug 512 ->
  exists p s1 h1 s2 h2 s3 h3,
    SlabAllocator.allocate debug size s h = (Returned p, s1, h1) /\
    p <> 0 /\
    SlabAllocator.free debug p size s1 h1 = (Returned tt, s2, h2) /\
    SlabAllocator.allocate debug size s2 h2 = (Returned p, s3, h3).
Proof.
  intros C0 C1 C2 C3 S01 S02 S03 S12 S13 S23 Hnew Hsize.
  destruct (slab_pools_ready debug this0 mem0 this1 mem1 this2 mem2 this3 mem3
              h0 s h C0 C1 C2 C3 S01 S02 S03 S12 S13 S23 Hnew)
    as (a0 & a1 & a2 & a3 & -> & R0 & R1 & R2 & R3).
  pose proof (ready_class_block_size _ _ _ _ _ R0) as B0.
  pose proof (ready_class_block_size _ _ _ _ _ R1) as B1.
  pose proof (ready_class_block_size _ _ _ _ _ R2) as B2.
  pose proof (ready_class_block_size _ _ _ _ _ R3) as B3.
  apply Z.leb_le in Hsize.
  unfold SlabAllocator.allocate, SlabAllocator.free.
  destruct (size <=? Allocator.raw_block_size debug 64) eqn:L0;
    [|destruct (size <=? Allocator.raw_block_size debug 128) eqn:L1;
      [|destruct (size <=? Allocator.raw_block_size debug 256) eqn:L2]].
  - destruct (class_round_trip debug a0 h 64 mem0 C0 R0)
      as (p & x1 & h1 & x2 & h2 & x3 & h3 & E1 & Hnz & E2 & E3 & Hb1 & Hb2 & _).
    exists p, {| SlabAllocator.m_Slabs := [x1; a1; a2; a3] |}, h1,
           {| SlabAllocator.m_Slabs := [x2; a1; a2; a3] |}, h2,
           {| SlabAllocator.m_Slabs := [x3; a1; a2; a3] |}, h3.
    split; [slab_run; rewrite E1; reflexivity|]. split; [exact Hnz|].
    split; [slab_run; rewrite E2; reflexivity|slab_run; rewrite E3; reflexivity].
  - destruct (class_round_trip debug a1 h 128 mem1 C1 R1)
      as (p & x1 & h1 & x2 & h2 & x3 & h3 & E1 & Hnz & E2 & E3 & Hb1 & Hb2 & _).
    exists p, {| SlabAllocator.m_Slabs := [a0; x1; a2; a3] |}, h1,
           {| SlabAllocator.m_Slabs := [a0; x2; a2; a3] |}, h2,
           {| SlabAllocator.m_Slabs := [a0; x3; a2; a3] |}, h3.
    split; [slab_run; rewrite E1; reflexivity|]. split; [exact Hnz|].
    split; [slab_run; rewrite E2; reflexivity|slab_run; rewrite E3; reflexivity].
  - destruct (class_round_trip debug a2 h 256 mem2 C2 R2)
      as (p & x1 & h1 & x2 & h2 & x3 & h3 & E1 & Hnz & E2 & E3 & Hb1 & Hb2 & _).
    exists p, {| SlabAllocator.m_Slabs := [a0; a1; x1; a3] |}, h1,
           {| SlabAllocator.m_Slabs := [a0; a1; x2; a3] |}, h2,
           {| SlabAllocator.m_Slabs := [a0; a1; x3; a3] |}, h3.
    split; [slab_run; rewrite E1; reflexivity|]. split; [exact Hnz|].
    split; [slab_run; rewrite E2; reflexivity|slab_run; rewrite E3; reflexivity].
  - destruct (class_round_trip debug a3 h 512 mem3 C3 R3)
      as (p & x1 & h1 & x2 & h2 & x3 & h3 & E1 & Hnz & E2 & E3 & Hb1 & Hb2 & _).
    exists p, {| SlabAllocator.m_Slabs := [a0; a1; a2; x1] |}, h1,
           {| SlabAllocator.m_Slabs := [a0; a1; a2; x2] |}, h2,
           {| SlabAllocator.m_Slabs := [a0; a1; a2; x3] |}, h3.
    split; [slab_run; rewrite E1; reflexivity|]. split; [exact Hnz|].
    split; [slab_run; rewrite E2; reflexivity|slab_run; rewrite E3; reflexivity].
Qed.

Lemma slab_serves_and_reuses_witness :
  exists p s1 h1 s2 h2 s3 h3,
    SlabAllocator.allocate true 200 (fst (fresh_slab true)) (snd (fresh_slab true))
    = (Returned p, s1, h1) /\
    p <> 0 /\
    SlabAllocator.free true p 200 s1 h1 = (Returned tt, s2, h2) /\
    SlabAllocator.allocate true 200 s2 h2 = (Returned p, s3, h3).
Proof.
  apply (slab_serves_and_reuses true 0 65536 0 131072 0 196608 0 262144 zero_heap).
  - repeat split; vm_compute; reflexivity.
  - repeat split; vm_compute; reflexivity.
  - repeat split; vm_compute; reflexivity.
  - repeat split; vm_compute; reflexivity.
  - left. vm_compute. discriminate.
  - left. vm_compute. discriminate.
  - left. vm_compute. discriminate.
  - left. vm_compute. discriminate.
  - left. vm_compute. discriminate.
  - left. vm_compute. discriminate.
  - apply surjective_pairing.
  - vm_compute. discriminate.
Defined.

(** Decides the size classes in [Hsome] and [Hne] from the comparisons
    in the context. *)
Ltac class_facts Hsome Hne :=
  repeat match goal with
         | H : (_ <=? _) = _ |- _ =>
             first [rewrite H in Hsome | rewrite H in Hne]
         end;
  cbn [option_map] in Hsome, Hne.

(** Rejects the pointer in the pool the loop stopped at. *)
Ltac other_pool_rejects h C0 R0 C1 R1 C2 R2 C3 R3 Hp :=
  match goal with
  | |- context [Allocator.free ?d ?q ?x ?hh] =>
      first
        [ rewrite (ready_class_rejects d x h hh _ _ q C0 R0 Hp ltac:(lia))
        | rewrite (ready_class_rejects d x h hh _ _ q C1 R1 Hp ltac:(lia))
        | rewrite (ready_class_rejects d x h hh _ _ q C2 R2 Hp ltac:(lia))
        | rewrite (ready_class_rejects d x h hh _ _ q C3 R3 Hp ltac:(lia)) ]
  end.

(** X18.  On a dispatcher as its constructor leaves it, freeing a pointer
    just obtained with a size of another size class than the one it was
    requested with aborts with the pointer-not-from-pool diagnostic, in
    both builds: the loop stops at a pool whose buffer does not hold the
    block. *)
Theorem slab_free_of_other_class_aborts
        (debug : bool) (this0 mem0 this1 mem1 this2 mem2 this3 mem3 : Z)
        (h0 : Heap) (s : SlabAllocator.t) (h : Heap) (size size' p : Z)
        (s1 : SlabAllocator.t) (h1 : Heap) :
  constructible debug 64 100 mem0 ->
  constructible debug 128 100 mem1 ->
  constructible debug 256 100 mem2 ->
  constructible debug 512 100 mem3 ->
  separate debug 64 mem0 128 mem1 ->
  separate debug 64 mem0 256 mem2 ->
  separate debug 64 mem0 512 mem3 ->
  separate debug 128 mem1 256 mem2 ->
  separate debug 128 mem1 512 mem3 ->
  separate debug 256 mem2 512 mem3 ->
  SlabAllocator.new debug (this0, mem0) (this1, mem1) (this2, mem2) (this3, mem3) h0
  = (s, h) ->
  SlabAllocator.allocate debug size s h = (Returned p, s1, h1) ->
  p <> 0 ->
  size_class debug size' <> None ->
  size_class debug size' <> size_class debug size ->
  SlabAllocator.free debug p size' s1 h1 = (Aborted msg_not_from_pool, s1, h1).
Proof.
  intros C0 C1 C2 C3 S01 S02 S03 S12 S13 S23 Hnew Halloc Hp Hsome Hne.
  destruct (slab_pools_ready debug this0 mem0 this1 mem1 this2 mem2 this3 mem3
              h0 s h C0 C1 C2 C3 S01 S02 S03 S12 S13 S23 Hnew)
    as (a0 & a1 & a2 & a3 & -> & R0 & R1 & R2 & R3).
  pose proof (ready_class_block_size _ _ _ _ _ R0) as B0.
  pose proof (ready_class_block_size _ _ _ _ _ R1) as B1.
  pose proof (ready_class_block_size _ _ _ _ _ R2) as B2.
  pose proof (ready_class_block_size _ _ _ _ _ R3) as B3.
  unfold size_class, strides in Hsome, Hne.
  cbn [map first_at_least] in Hsome, Hne.
  unfold separate in *.
  revert Halloc. unfold SlabAllocator.allocate, SlabAllocator.free.
  destruct (size <=? Allocator.raw_block_size debug 64) eqn:L0;
    [|destruct (size <=? Allocator.raw_block_size debug 128) eqn:L1;
      [|destruct (size <=? Allocator.raw_block_size debug 256) eqn:L2;
        [|destruct (size <=? Allocator.raw_block_size debug 512) eqn:L3]]].
  - destruct (class_round_trip debug a0 h 64 mem0 C0 R0)
      as (q & x1 & g1 & _ & _ & _ & _ & E1 & _ & _ & _ & Hb1 & _ & Hin).
    slab_run. rewrite E1. intros Halloc. inversion Halloc; subst; clear Halloc.
    destruct (size' <=? Allocator.raw_block_size debug 64) eqn:M0;
      [|destruct (size' <=? Allocator.raw_block_size debug 128) eqn:M1;
        [|destruct (size' <=? Allocator.raw_block_size debug 256) eqn:M2;
          [|destruct (size' <=? Allocator.raw_block_size debug 512) eqn:M3]]];
      class_facts Hsome Hne; try congruence; slab_run;
      other_pool_rejects h C0 R0 C1 R1 C2 R2 C3 R3 Hp; reflexivity.
  - destruct (class_round_trip debug a1 h 128 mem1 C1 R1)
      as (q & x1 & g1 & _ & _ & _ & _ & E1 & _ & _ & _ & Hb1 & _ & Hin).
    slab_run. rewrite E1. intros Halloc. inversion Halloc; subst; clear Halloc.
    destruct (size' <=? Allocator.raw_block_size debug 64) eqn:M0;
      [|destruct (size' <=? Allocator.raw_block_size debug 128) eqn:M1;
        [|destruct (size' <=? Allocator.raw_block_size debug 256) eqn:M2;
          [|destruct (size' <=? Allocator.raw_block_size debug 512) eqn:M3]]];
      class_facts Hsome Hne; try congruence; slab_run;
      other_pool_rejects h C0 R0 C1 R1 C2 R2 C3 R3 Hp; reflexivity.
  - destruct (class_round_trip debug a2 h 256 mem2 C2 R2)
      as (q & x1 & g1 & _ & _ & _ & _ & E1 & _ & _ & _ & Hb1 & _ & Hin).
    slab_run. rewrite E1. intros Halloc. inversion Halloc; subst; clear Halloc.
    destruct (size' <=? Allocator.raw_block_size debug 64) eqn:M0;
      [|destruct (size' <=? Allocator.raw_block_size debug 128) eqn:M1;
        [|destruct (size' <=? Allocator.raw_block_size debug 256) eqn:M2;
          [|destruct (size' <=? Allocator.raw_block_size debug 512) eqn:M3]]];
      class_facts Hsome Hne; try congruence; slab_run;
      other_pool_rejects h C0 R0 C1 R1 C2 R2 C3 R3 Hp; reflexivity.
  - destruct (class_round_trip debug a3 h 512 mem3 C3 R3)
      as (q & x1 & g1 & _ & _ & _ & _ & E1 & _ & _ & _ & Hb1 & _ & Hin).
    slab_run. rewrite E1. intros Halloc. inversion Halloc; subst; clear Halloc.
    destruct (size' <=? Allocator.raw_block_size debug 64) eqn:M0;
      [|destruct (size' <=? Allocator.raw_block_size debug 128) eqn:M1;
        [|destruct (size' <=? Allocator.raw_block_size debug 256) eqn:M2;
          [|destruct (size' <=? Allocator.raw_block_size debug 512) eqn:M3]]];
      class_facts Hsome Hne; try congruence; slab_run;
      other_pool_rejects h C0 R0 C1 R1 C2 R2 C3 R3 Hp; reflexivity.
  - slab_run. intros Halloc. inversion Halloc; subst. congruence.
Qed.

Lemma slab_free_of_other_class_aborts_witness :
  let s := fst (fresh_slab true) in
  let h := snd (fresh_slab true) in
  let r := SlabAllocator.allocate true 500 s h in
  SlabAllocator.free true 316024 50 (snd (fst r)) (snd r)
  = (Aborted msg_not_from_pool, snd (fst r), snd r).
Proof.
  intros s h r.
  apply (slab_free_of_other_class_aborts true 0 65536 0 131072 0 196608 0 262144
           zero_heap s h 500 50).
  - repeat split; vm_compute; reflexivity.
  - repeat split; vm_compute; reflexivity.
  - repeat split; vm_compute; reflexivity.
  - repeat split; vm_compute; reflexivity.
  - left. vm_compute. discriminate.
  - left. vm_compute. discriminate.
  - left. vm_compute. discriminate.
  - left. vm_compute. discriminate.
  - left. vm_compute. discriminate.
  - left. vm_compute. discriminate.
  - apply surjective_pairing.
  - apply result_eta. vm_compute. reflexivity.
  - discriminate.
  - vm_compute. discriminate.
  - vm_compute. discriminate.
Defined.

(** ** Order of service and the canaries *)

Lemma rev_seq (n : nat) :
  rev (seq 0 n) = map (fun i => (n - 1 - i)%nat) (seq 0 n).
Proof.
  induction n as [|n IH]; [reflexivity|].
  rewrite seq_S at 1. cbn [plus]. rewrite rev_app_distr. cbn [rev app].
  cbn [seq map]. f_equal; [lia|].
  rewrite IH, <- seq_shift, map_map. apply map_ext. intros i. lia.
Qed.

(** X19.  A fresh pool hands out its slots from the highest address
    downwards: the [k]-th of the first [block_count] calls of [allocate()]
    returns the payload of slot [block_count - 1 - k]. *)
Theorem fresh_pool_serves_from_the_top
        (debug : bool) (block_size block_count this mem : Z) (h0 : Heap) :
  constructible debug block_size block_count mem ->
  fst (fst (Allocator.allocate_n debug (Z.to_nat block_count)
              (fst (Allocator.new debug block_size block_count this mem h0))
              (snd (Allocator.new debug block_size block_count this mem h0))))
  = map (fun k => Returned (mem + (block_count - 1 - Z.of_nat k)
                                  * Allocator.raw_block_size debug block_size
                            + sizeof_Block debug))
        (seq 0 (Z.to_nat block_count)).
Proof.
  intros Hcon.
  destruct (new_ready debug block_size block_count this mem h0 Hcon)
    as (fl & h & E & Hinv & _).
  cbv zeta in E, Hinv. rewrite E. cbn [fst snd].
  set (pool := fresh_pool debug block_size block_count mem fl) in *.
  rewrite <- (app_nil_r (rev (slots pool))) in Hinv.
  destruct (allocate_n_prefix debug (rev (slots pool)) _ _ [] [] Hinv)
    as (a' & h' & En & _).
  rewrite length_rev, (slots_length pool) in En.
  cbn [pool fresh_pool MemoryPool.block_count] in En. rewrite En. cbn [fst].
  unfold slots. cbn [pool fresh_pool MemoryPool.block_count].
  rewrite <- map_rev, rev_seq, !map_map.
  apply map_ext_in. intros k Hk. apply in_seq in Hk.
  unfold payload_of, slot. cbn [fresh_pool MemoryPool.memory MemoryPool.block_size].
  f_equal. f_equal. f_equal. f_equal. lia.
Qed.

Lemma fresh_pool_serves_from_the_top_witness :
  fst (fst (Allocator.allocate_n true (Z.to_nat 3)
              (fst (Allocator.new true 64 3 0 4096 zero_heap))
              (snd (Allocator.new true 64 3 0 4096 zero_heap))))
  = map (fun k => Returned (4096 + (3 - 1 - Z.of_nat k)
                                   * Allocator.raw_block_size true 64
                            + sizeof_Block true))
        (seq 0 (Z.to_nat 3)).
Proof.
  apply (fresh_pool_serves_from_the_top true 64 3 0 4096 zero_heap).
  repeat split; vm_compute; reflexivity.
Defined.

(** X20.  In a debug build, under valid use, a block in use whose
    trailing canary word or whose front canary field has been overwritten
    with another value is caught by [free]: it aborts with the
    canary diagnostic and leaves the pool and the heap as they are. *)
Theorem smashed_canary_aborts
        (a : Allocator.t) (h : Heap) (live : list Z) (pool : MemoryPool.t)
        (p v : Z) :
  reachable true a h live ->
  Allocator.m_MemoryPool a = Some pool ->
  In p live ->
  v <> CANARY_VALUE ->
  let b := block_of true p in
  let trailing := store_word h (Allocator.rear b (MemoryPool.block_size pool)) v in
  let front := store_block h b (set_canary_front (blocks h b) v) in
  Allocator.free true p a trailing = (Aborted msg_canary, a, trailing) /\
  Allocator.free true p a front = (Aborted msg_canary, a, front).
Proof.
  intros Hreach Hpool Hlive Hv b trailing front.
  destruct (reachable_inv _ _ _ _ Hreach) as (fl & Hinv).
  destruct Hinv as (Hinit & pool' & Hpool' & Hgeo & _ & Hperm & Hdbg).
  rewrite Hpool in Hpool'. inversion Hpool'; subst pool'; clear Hpool'.
  assert (Hused : In b (map (block_of true) live)) by (apply in_map; exact Hlive).
  assert (Hin : In b (slots pool)).
  { eapply Permutation_in; [exact Hperm|]. apply in_or_app. right. exact Hused. }
  destruct (block_ptr_no_wrap true pool Hgeo p Hin) as (Hw & Hp & _).
  pose proof (slot_passes_checks true pool Hgeo b Hin) as (Hrange & Hbs & Hmod).
  cbv zeta in Hrange, Hbs, Hmod.
  destruct (Hdbg eq_refl b Hin) as (Hid & _ & Hu).
  destruct (Hu Hused) as (Hfree & Hcf & Hcr).
  apply Z.eqb_neq in Hp. apply Z.eqb_neq in Hv.
  unfold Allocator.free. rewrite Hp, Hinit, Hpool. cbn [negb]. cbv zeta.
  rewrite Hw. fold b. rewrite Hrange, Hbs, Hmod. cbn [negb].
  split.
  - unfold trailing. rewrite store_word_same. cbn [blocks store_word].
    rewrite Hid, Z.eqb_refl, Hfree, Hcf, Z.eqb_refl, Hv. reflexivity.
  - unfold front. rewrite store_block_same.
    cbn [pool_id is_free canary_front set_canary_front].
    rewrite Hid, Z.eqb_refl, Hfree, Hv. reflexivity.
Qed.

Lemma smashed_canary_aborts_witness :
  let s := Allocator.new true 64 4 0 4096 zero_heap in
  let r := Allocator.allocate true (fst s) (snd s) in
  let a := snd (fst r) in
  let h := snd r in
  let b := block_of true 4408 in
  let trailing := store_word h (Allocator.rear b 96) 0 in
  let front := store_block h b (set_canary_front (blocks h b) 0) in
  Allocator.free true 4408 a trailing = (Aborted msg_canary, a, trailing) /\
  Allocator.free true 4408 a front = (Aborted msg_canary, a, front).
Proof.
  intros s r a h.
  apply (smashed_canary_aborts a h [4408]
           (fresh_pool true 64 4 4096 4288) 4408 0).
  - apply (reach_allocate true (fst s) (snd s) [] 4408 a h).
    + apply (reach_new true 64 4 0 4096 zero_heap).
      * repeat split; vm_compute; reflexivity.
      * apply surjective_pairing.
    + apply result_eta. vm_compute. reflexivity.
    + discriminate.
  - vm_compute. reflexivity.
  - left. reflexivity.
  - vm_compute. discriminate.
Defined.
